(** * HDR PNG converter and analyzer: a shallow embedding

    The development follows the two source files of the repository:

    - [png_hdr_analyzer.py]: the chunk stream reader [read_png_chunks], the
      chunk decoders ([parse_ihdr], [parse_cicp], ...) and the scan loop of
      [analyze_png_hdr] that builds the HDR summary;
    - [hdr_convert.py]: the profile extractor [extract_icc_profile], the
      photometric chain ([srgb_to_linear], [linear_to_pq],
      [create_radial_mask], the body of [convert_to_hdr]) and the chunk
      stream writer ([make_chunk], [save_16bit_png_with_icc]).

    Files are byte lists, a file handle is the list of bytes still to be
    read, and Python exceptions are an explicit error result.  NumPy's
    binary64 arithmetic is idealised as arithmetic on the real numbers; the
    casts to float32 and the float32 operations of the two boosts are kept,
    as roundings of a real number to 24 significant bits. *)

From Stdlib Require Import ZArith Lia Bool String Ascii.
From Stdlib Require Import Strings.Byte DecimalString List.
From Stdlib Require Import Reals Lra.
Import ListNotations.

Local Open Scope Z_scope.

(** ** Python exceptions as results *)

Inductive exn : Type :=
| ValueError          (* bad signature, [bytes.index] without a match *)
| StructError         (* [struct.pack] / [struct.unpack] *)
| IndexError          (* [data[i]] out of range *)
| UnicodeDecodeError  (* [bytes.decode('ascii')] on a byte above 127 *)
| ZlibError.          (* [zlib.decompress] on a malformed stream *)

Inductive result (A : Type) : Type :=
| Ok (a : A)
| Raise (e : exn).

Arguments Ok {A} a.
Arguments Raise {A} e.

Definition bind {A B : Type} (r : result A) (k : A -> result B) : result B :=
  match r with
  | Ok a => k a
  | Raise e => Raise e
  end.

Notation "x <- r ;; k" := (bind r (fun x => k))
  (at level 61, r at next level, right associativity).
Notation "' p <- r ;; k" := (bind r (fun x => let p := x in k))
  (at level 61, p pattern, r at next level, right associativity).

Definition is_ok {A : Type} (r : result A) : bool :=
  match r with Ok _ => true | Raise _ => false end.

Fixpoint mapM {A B : Type} (f : A -> result B) (l : list A) : result (list B) :=
  match l with
  | [] => Ok []
  | a :: l' => b <- f a ;; bs <- mapM f l' ;; Ok (b :: bs)
  end.

(** ** Bytes and [struct] *)

Module Bytes.

Definition bytes := list byte.

Definition byte_to_Z (b : byte) : Z := Z.of_N (Byte.to_N b).

Definition byte_of_Z (z : Z) : byte :=
  match Byte.of_N (Z.to_N (z mod 256)) with
  | Some b => b
  | None => x00
  end.

(** [f.read(n)] on a handle whose unread part is [f]: the bytes read (at
    most [n], fewer at end of file) and the new unread part. *)
Definition read (n : nat) (f : bytes) : bytes * bytes := (firstn n f, skipn n f).

(** [data[i]] *)
Definition index (data : bytes) (i : nat) : result Z :=
  match nth_error data i with
  | Some b => Ok (byte_to_Z b)
  | None => Raise IndexError
  end.

(** Big-endian digits, most significant first. *)
Fixpoint be_bytes (k : nat) (n : Z) : bytes :=
  match k with
  | O => []
  | S k' => byte_of_Z (Z.shiftr n (8 * Z.of_nat k')) :: be_bytes k' n
  end.

Fixpoint be_value (l : bytes) : Z :=
  match l with
  | [] => 0
  | b :: t => byte_to_Z b * 2 ^ (8 * Z.of_nat (length t)) + be_value t
  end.

(** [struct.pack('>I', n)], [struct.pack('>H', n)], [struct.pack('>B', n)]:
    [struct.error] when [n] does not fit the field. *)
Definition pack_uint (k : nat) (n : Z) : result bytes :=
  if (0 <=? n) && (n <? 2 ^ (8 * Z.of_nat k))
  then Ok (be_bytes k n) else Raise StructError.

(** [struct.unpack('>I', b)[0]] and the like: [struct.error] unless [b] has
    exactly the size of the field. *)
Definition unpack_uint (k : nat) (b : bytes) : result Z :=
  if Nat.eqb (length b) k then Ok (be_value b) else Raise StructError.

(** [struct.unpack] with a format of several unsigned big-endian fields,
    given by their sizes: [struct.error] unless the buffer has exactly the
    size of the format. *)
Fixpoint split_fields (sizes : list nat) (b : bytes) : list Z :=
  match sizes with
  | [] => []
  | k :: sizes' => be_value (firstn k b) :: split_fields sizes' (skipn k b)
  end.

Definition unpack (sizes : list nat) (b : bytes) : result (list Z) :=
  if Nat.eqb (length b) (list_sum sizes)
  then Ok (split_fields sizes b) else Raise StructError.

Definition field (values : list Z) (i : nat) : Z := nth i values 0.

Definition pack_I := pack_uint 4.
Definition pack_H := pack_uint 2.
Definition pack_B := pack_uint 1.
Definition unpack_I := unpack_uint 4.
Definition unpack_H := unpack_uint 2.

(** [b.decode('ascii')] *)
Definition decode_ascii (b : bytes) : result string :=
  if forallb (fun c => byte_to_Z c <? 128) b
  then Ok (string_of_list_byte b) else Raise UnicodeDecodeError.

(** [b.decode('latin-1')]: total, one character per byte. *)
Definition decode_latin1 (b : bytes) : string := string_of_list_byte b.

(** [s.encode('ascii')] on the tags used by the writer. *)
Definition encode_ascii (s : string) : bytes := list_byte_of_string s.

(** [data.index(b'\x00')] *)
Fixpoint index_nul (data : bytes) : result nat :=
  match data with
  | [] => Raise ValueError
  | b :: t => if Byte.eqb b x00 then Ok O else i <- index_nul t ;; Ok (S i)
  end.

Definition png_signature : bytes :=
  [x89; x50; x4e; x47; x0d; x0a; x1a; x0a].

Definition bytes_eqb (a b : bytes) : bool :=
  if list_eq_dec Byte.byte_eq_dec a b then true else false.

End Bytes.
Import Bytes.

(** ** The zlib primitives used by both programs *)

Module Zlib.

(** [zlib.crc32]: the reflected CRC-32 with polynomial [0xEDB88320]. *)
Fixpoint crc_shift (n : nat) (c : Z) : Z :=
  match n with
  | O => c
  | S n' =>
      crc_shift n'
        (if Z.testbit c 0
         then Z.lxor (Z.shiftr c 1) 0xEDB88320
         else Z.shiftr c 1)
  end.

Definition crc_update (c : Z) (b : byte) : Z :=
  crc_shift 8 (Z.lxor c (byte_to_Z b)).

Definition crc32 (data : bytes) : Z :=
  Z.lxor (fold_left crc_update data 0xFFFFFFFF) 0xFFFFFFFF.

(** A deflate codec, as far as the programs rely on it: [compress data
    level] and [decompress], which fails on a malformed stream. *)
Record codec : Type := {
  compress : bytes -> Z -> bytes;
  decompress : bytes -> result bytes
}.

Definition lossless (z : codec) : Prop :=
  forall data level, decompress z (compress z data level) = Ok data.

(** The simplest instance: a two-byte zlib header ([78 DA], the header of
    level 9) in front of the data kept as it is. *)
Definition stored : codec := {|
  compress := fun data _ => x78 :: xda :: data;
  decompress := fun s =>
    match s with
    | b0 :: b1 :: data =>
        if Byte.eqb b0 x78 && Byte.eqb b1 xda then Ok data else Raise ZlibError
    | _ => Raise ZlibError
    end
|}.

End Zlib.

(** ** float32 *)

Module Float32.

Local Open Scope R_scope.

(** The binade of a positive real: [2 ^ (mag a - 1) <= a < 2 ^ mag a]. *)
Definition mag (a : R) : Z := (Zfloor (ln a / ln 2) + 1)%Z.

(** The exponent of the last place of binary32 at the magnitude [a]: 24
    significant bits, and the subnormal numbers are the multiples of
    [2 ^ -149]. *)
Definition cexp (a : R) : Z := Z.max (mag a - 24) (-149).

(** The nearest integer, a tie going to the even one. *)
Definition nearest_even (r : R) : Z :=
  let f := Zfloor r in
  if Rlt_dec (r - IZR f) (/ 2) then f
  else if Rlt_dec (/ 2) (r - IZR f) then (f + 1)%Z
  else if Z.even f then f else (f + 1)%Z.

(** A magnitude rounded to the nearest multiple of its last place. *)
Definition round32 (a : R) : R :=
  IZR (nearest_even (a * powerRZ 2 (- cexp a))) * powerRZ 2 (cexp a).

(** [np.float32(x)], and the rounding of the result of every float32
    operation: sign and rounded magnitude.  The overflow to infinity above
    the largest binary32 number is left out, as the range of binary64 is. *)
Definition float32 (x : R) : R :=
  if Rle_dec 0 x then round32 x else - round32 (- x).

(** The binary32 numbers, infinities apart. *)
Definition is_float32 (x : R) : Prop :=
  exists n e, x = IZR n * powerRZ 2 e /\ (Z.abs n < 2 ^ 24)%Z /\ (-149 <= e)%Z.

End Float32.

Import Float32.

(** ** png_hdr_analyzer.py *)

Module png_hdr_analyzer.

Record chunk : Type := {
  c_type : string;
  c_length : Z;
  c_data : bytes;
  c_crc : Z
}.

(** The [while True] loop of [read_png_chunks]; [f] is the unread part of
    the file.  Every iteration consumes the four bytes of a length field,
    so [length f] iterations are always enough; [None] is the exhausted
    iteration budget, which [read_loop_total] shows is never met. *)
Fixpoint read_loop (fuel : nat) (f : bytes) : option (result (list chunk)) :=
  match fuel with
  | O => None
  | S fuel' =>
      let '(length_data, f) := read 4 f in
      if (length length_data <? 4)%nat then Some (Ok [])
      else
        match unpack_I length_data with
        | Raise e => Some (Raise e)
        | Ok len =>
            let '(type_bytes, f) := read 4 f in
            match decode_ascii type_bytes with
            | Raise e => Some (Raise e)
            | Ok chunk_type =>
                let '(data, f) := read (Z.to_nat len) f in
                let '(crc, f) := read 4 f in
                match unpack_I crc with
                | Raise e => Some (Raise e)
                | Ok crc_value =>
                    let c := {| c_type := chunk_type; c_length := len;
                                c_data := data; c_crc := crc_value |} in
                    if String.eqb chunk_type "IEND" then Some (Ok [c])
                    else
                      match read_loop fuel' f with
                      | Some (Ok cs) => Some (Ok (c :: cs))
                      | other => other
                      end
                end
            end
        end
  end.

Definition read_png_chunks_fuel (fuel : nat) (file : bytes)
  : option (result (list chunk)) :=
  let '(signature, f) := read 8 file in
  if bytes_eqb signature png_signature then read_loop fuel f
  else Some (Raise ValueError).

Definition read_png_chunks (file : bytes) : result (list chunk) :=
  match read_png_chunks_fuel (S (length file)) file with
  | Some r => r
  | None => Ok []
  end.

(** *** Chunk decoders *)

Record ihdr_info : Type := {
  width : Z;
  height : Z;
  bit_depth : Z;
  color_type : Z;
  color_type_name : string;
  compression : Z;
  filter_method : Z;
  interlace : Z
}.

Definition color_type_names (t : Z) : option string :=
  match t with
  | 0 => Some "Grayscale"
  | 2 => Some "RGB (Truecolor)"
  | 3 => Some "Indexed-color (Palette)"
  | 4 => Some "Grayscale with Alpha"
  | 6 => Some "RGBA (Truecolor with Alpha)"
  | _ => None
  end%string.

(** [d.get(k, default)] *)
Definition get {A : Type} (d : Z -> option A) (k : Z) (default : A) : A :=
  match d k with Some v => v | None => default end.

Definition parse_ihdr (data : bytes) : result ihdr_info :=
  values <- unpack [4; 4]%nat (firstn 8 data) ;;
  let w := field values 0 in
  let h := field values 1 in
  bd <- index data 8 ;;
  ct <- index data 9 ;;
  cm <- index data 10 ;;
  fm <- index data 11 ;;
  il <- index data 12 ;;
  Ok {| width := w; height := h; bit_depth := bd; color_type := ct;
        color_type_name := get color_type_names ct "Unknown"%string;
        compression := cm; filter_method := fm; interlace := il |}.

Record gama_info : Type := { gamma : R; raw_value : Z }.

Definition parse_gama (data : bytes) : result gama_info :=
  gamma_int <- unpack_I data ;;
  Ok {| gamma := (IZR gamma_int / 100000)%R; raw_value := gamma_int |}.

Record chrm_info : Type := {
  white_point_x : R; white_point_y : R;
  red_x : R; red_y : R;
  green_x : R; green_y : R;
  blue_x : R; blue_y : R
}.

Definition parse_chrm (data : bytes) : result chrm_info :=
  values <- unpack [4; 4; 4; 4; 4; 4; 4; 4]%nat data ;;
  let v i := (IZR (field values i) / 100000)%R in
  Ok {| white_point_x := v 0%nat; white_point_y := v 1%nat;
        red_x := v 2%nat; red_y := v 3%nat;
        green_x := v 4%nat; green_y := v 5%nat;
        blue_x := v 6%nat; blue_y := v 7%nat |}.

Definition intent_names (i : Z) : option string :=
  match i with
  | 0 => Some "Perceptual"
  | 1 => Some "Relative colorimetric"
  | 2 => Some "Saturation"
  | 3 => Some "Absolute colorimetric"
  | _ => None
  end%string.

Record srgb_info : Type := { rendering_intent : Z; intent_name : string }.

Definition parse_srgb (data : bytes) : result srgb_info :=
  ri <- index data 0 ;;
  Ok {| rendering_intent := ri; intent_name := get intent_names ri "Unknown"%string |}.

(** ITU-T H.273 tables of [parse_cicp]. *)
Definition primaries_names (p : Z) : option string :=
  match p with
  | 1 => Some "BT.709 (sRGB)"
  | 4 => Some "BT.470M"
  | 5 => Some "BT.601 (625)"
  | 6 => Some "BT.601 (525)"
  | 7 => Some "SMPTE 240M"
  | 8 => Some "Generic film"
  | 9 => Some "BT.2020 / BT.2100"
  | 10 => Some "SMPTE ST 428-1 (XYZ)"
  | 11 => Some "SMPTE RP 431-2 (DCI-P3)"
  | 12 => Some "SMPTE EG 432-1 (Display P3)"
  | 22 => Some "EBU Tech 3213-E"
  | _ => None
  end%string.

Definition transfer_names (t : Z) : option string :=
  match t with
  | 1 => Some "BT.709 / BT.1361"
  | 4 => Some "BT.470M (Gamma 2.2)"
  | 5 => Some "BT.470BG (Gamma 2.8)"
  | 6 => Some "BT.601 / SMPTE 170M"
  | 7 => Some "SMPTE 240M"
  | 8 => Some "Linear"
  | 9 => Some "Logarithmic (100:1)"
  | 10 => Some "Logarithmic (100*sqrt(10):1)"
  | 11 => Some "IEC 61966-2-4"
  | 12 => Some "BT.1361 Extended"
  | 13 => Some "sRGB / sYCC"
  | 14 => Some "BT.2020 (10-bit)"
  | 15 => Some "BT.2020 (12-bit)"
  | 16 => Some "SMPTE ST 2084 (PQ / HDR10)"
  | 17 => Some "SMPTE ST 428-1"
  | 18 => Some "ARIB STD-B67 (HLG)"
  | _ => None
  end%string.

Definition matrix_names (m : Z) : option string :=
  match m with
  | 0 => Some "Identity (RGB)"
  | 1 => Some "BT.709"
  | 4 => Some "FCC"
  | 5 => Some "BT.470BG"
  | 6 => Some "BT.601"
  | 7 => Some "SMPTE 240M"
  | 8 => Some "YCgCo"
  | 9 => Some "BT.2020 non-constant luminance"
  | 10 => Some "BT.2020 constant luminance"
  | 11 => Some "SMPTE ST 2085"
  | 12 => Some "Chromaticity-derived non-constant luminance"
  | 13 => Some "Chromaticity-derived constant luminance"
  | 14 => Some "ICtCp"
  | _ => None
  end%string.

(** [f'Unknown ({n})'] *)
Definition unknown (n : Z) : string :=
  ("Unknown (" ++ NilZero.string_of_int (Z.to_int n) ++ ")")%string.

Record cicp_info : Type := {
  color_primaries : Z;
  color_primaries_name : string;
  transfer_characteristics : Z;
  transfer_name : string;
  matrix_coefficients : Z;
  matrix_name : string;
  video_full_range : Z;
  full_range_name : string
}.

Definition parse_cicp (data : bytes) : result cicp_info :=
  cp <- index data 0 ;;
  tc <- index data 1 ;;
  mc <- index data 2 ;;
  fr <- index data 3 ;;
  Ok {| color_primaries := cp;
        color_primaries_name := get primaries_names cp (unknown cp);
        transfer_characteristics := tc;
        transfer_name := get transfer_names tc (unknown tc);
        matrix_coefficients := mc;
        matrix_name := get matrix_names mc (unknown mc);
        video_full_range := fr;
        full_range_name :=
          if fr =? 0 then "Limited range (16-235)"%string
          else "Full range (0-255)"%string |}.

Record mdcv_info : Type := {
  display_primaries_red_x : R; display_primaries_red_y : R;
  display_primaries_green_x : R; display_primaries_green_y : R;
  display_primaries_blue_x : R; display_primaries_blue_y : R;
  mdcv_white_point_x : R; mdcv_white_point_y : R;
  max_luminance : R; min_luminance : R
}.

Definition parse_mdcv (data : bytes) : result mdcv_info :=
  values <- unpack [2; 2; 2; 2; 2; 2; 2; 2; 4; 4]%nat data ;;
  let c i := (IZR (field values i) / 50000)%R in
  let l i := (IZR (field values i) / 10000)%R in
  Ok {| display_primaries_red_x := c 0%nat; display_primaries_red_y := c 1%nat;
        display_primaries_green_x := c 2%nat; display_primaries_green_y := c 3%nat;
        display_primaries_blue_x := c 4%nat; display_primaries_blue_y := c 5%nat;
        mdcv_white_point_x := c 6%nat; mdcv_white_point_y := c 7%nat;
        max_luminance := l 8%nat; min_luminance := l 9%nat |}.

Record clli_info : Type := {
  max_content_light_level : Z;
  max_frame_average_light_level : Z
}.

Definition parse_clli (data : bytes) : result clli_info :=
  values <- unpack [4; 4]%nat data ;;
  Ok {| max_content_light_level := field values 0;
        max_frame_average_light_level := field values 1 |}.

(** *** The embedded profile ([parse_iccp]) *)

(** [b.decode('ascii', errors='ignore')] *)
Definition decode_ascii_ignore (b : bytes) : string :=
  string_of_list_byte (filter (fun c => byte_to_Z c <? 128) b).

Fixpoint lstrip (p : ascii -> bool) (s : string) : string :=
  match s with
  | EmptyString => EmptyString
  | String c s' => if p c then lstrip p s' else s
  end.

Definition rev_string (s : string) : string :=
  string_of_list_ascii (rev (list_ascii_of_string s)).

(** [s.strip(chars)] *)
Definition strip_with (p : ascii -> bool) (s : string) : string :=
  rev_string (lstrip p (rev_string (lstrip p s))).

Definition is_nul (c : ascii) : bool := (nat_of_ascii c =? 0)%nat.

(** The white space of [str.strip()] among the ASCII characters. *)
Definition is_space (c : ascii) : bool :=
  let n := nat_of_ascii c in
  ((9 <=? n) && (n <=? 13) || (28 <=? n) && (n <=? 32))%nat.

Definition str (n : Z) : string := NilZero.string_of_int (Z.to_int n).

(** [f'{n:0kd}'] for a non-negative [n] *)
Fixpoint zeros (k : nat) : string :=
  match k with O => EmptyString | S k' => String "0" (zeros k') end.

Definition zero_padded (k : nat) (n : Z) : string :=
  (zeros (k - String.length (str n)) ++ str n)%string.

Definition slice (b : bytes) (i j : nat) : bytes := firstn (j - i) (skipn i b).

Definition platform_names (p : string) : string :=
  if String.eqb p "APPL" then "Apple"
  else if String.eqb p "MSFT" then "Microsoft"
  else if String.eqb p "SGI " then "Silicon Graphics"
  else if String.eqb p "SUNW" then "Sun Microsystems"
  else if String.eqb p EmptyString then "Unspecified"
  else p.

Record icc_info : Type := {
  profile_size : Z;
  preferred_cmm : string;
  version : string;
  device_class : string;
  color_space : string;
  pcs : string;
  creation_date : string;
  signature : string;
  platform : string;
  icc_rendering_intent : string
}.

Definition parse_icc_header (profile_data : bytes) : icc_info :=
  let u i j := be_value (slice profile_data i j) in
  let byte_at i := be_value (slice profile_data i (S i)) in
  let text i j := decode_ascii_ignore (slice profile_data i j) in
  let ri := u 64%nat 68%nat in
  {| profile_size := u 0%nat 4%nat;
     preferred_cmm := strip_with is_nul (text 4%nat 8%nat);
     version :=
       (str (byte_at 8%nat) ++ "." ++
        str (Z.land (Z.shiftr (byte_at 9%nat) 4) 0x0F) ++ "." ++
        str (Z.land (byte_at 9%nat) 0x0F))%string;
     device_class := strip_with is_space (text 12%nat 16%nat);
     color_space := strip_with is_space (text 16%nat 20%nat);
     pcs := strip_with is_space (text 20%nat 24%nat);
     creation_date :=
       (zero_padded 4 (u 24%nat 26%nat) ++ "-" ++
        zero_padded 2 (u 26%nat 28%nat) ++ "-" ++
        zero_padded 2 (u 28%nat 30%nat) ++ " " ++
        zero_padded 2 (u 30%nat 32%nat) ++ ":" ++
        zero_padded 2 (u 32%nat 34%nat) ++ ":" ++
        zero_padded 2 (u 34%nat 36%nat))%string;
     signature := text 36%nat 40%nat;
     platform := platform_names (strip_with is_nul (text 40%nat 44%nat));
     icc_rendering_intent := get intent_names ri (unknown ri) |}.

(** The two dictionaries [parse_iccp] can return: the decoded one, whose
    [icc_info] is empty for a profile shorter than the 128-byte header, and
    the one of the [except] branch, which carries the error. *)
Inductive iccp_info : Type :=
| IccpDecoded (profile_name : string) (compression_method : Z)
    (compressed_size decompressed_size : Z) (info : option icc_info)
| IccpFailed (profile_name : string) (compression_method : Z) (error : exn).

Section WithZlib.

Variable zlib : Zlib.codec.

Definition parse_iccp (data : bytes) : result iccp_info :=
  null_pos <- index_nul data ;;
  let profile_name := decode_latin1 (firstn null_pos data) in
  compression_method <- index data (null_pos + 1) ;;
  let compressed_profile := skipn (null_pos + 2) data in
  match Zlib.decompress zlib compressed_profile with
  | Ok profile_data =>
      Ok (IccpDecoded profile_name compression_method
            (Z.of_nat (length compressed_profile))
            (Z.of_nat (length profile_data))
            (if (128 <=? length profile_data)%nat
             then Some (parse_icc_header profile_data) else None))
  | Raise e => Ok (IccpFailed profile_name compression_method e)
  end.

(** *** The scan of [analyze_png_hdr] *)

Record hdr_info : Type := {
  has_hdr : bool;
  hdr_type : option string;
  high_bit_depth : bool;
  cicp : option cicp_info;
  mdcv : option mdcv_info;
  clli : option clli_info
}.

Definition hdr_info_init : hdr_info :=
  {| has_hdr := false; hdr_type := None; high_bit_depth := false;
     cicp := None; mdcv := None; clli := None |}.

Definition set_high_bit_depth (i : hdr_info) : hdr_info :=
  {| has_hdr := true; hdr_type := hdr_type i; high_bit_depth := true;
     cicp := cicp i; mdcv := mdcv i; clli := clli i |}.

Definition set_cicp (c : cicp_info) (i : hdr_info) : hdr_info :=
  {| has_hdr := true; hdr_type := hdr_type i;
     high_bit_depth := high_bit_depth i;
     cicp := Some c; mdcv := mdcv i; clli := clli i |}.

Definition set_hdr_type (t : string) (i : hdr_info) : hdr_info :=
  {| has_hdr := has_hdr i; hdr_type := Some t;
     high_bit_depth := high_bit_depth i;
     cicp := cicp i; mdcv := mdcv i; clli := clli i |}.

Definition set_mdcv (m : mdcv_info) (i : hdr_info) : hdr_info :=
  {| has_hdr := true; hdr_type := hdr_type i;
     high_bit_depth := high_bit_depth i;
     cicp := cicp i; mdcv := Some m; clli := clli i |}.

Definition set_clli (l : clli_info) (i : hdr_info) : hdr_info :=
  {| has_hdr := true; hdr_type := hdr_type i;
     high_bit_depth := high_bit_depth i;
     cicp := cicp i; mdcv := mdcv i; clli := Some l |}.

(** The listing loop: [chunk['type'][0].isupper()] needs a first
    character. *)
Definition list_chunk (c : chunk) : result bool :=
  match c_type c with
  | EmptyString => Raise IndexError
  | String ch _ =>
      Ok ((65 <=? nat_of_ascii ch) && (nat_of_ascii ch <=? 90))%nat
  end.

(** The body of the second loop, one chunk applied to the summary built
    so far (the printing is left out). *)
Definition analyze_chunk (info : hdr_info) (c : chunk) : result hdr_info :=
  let chunk_type := c_type c in
  let data := c_data c in
  if String.eqb chunk_type "IHDR" then
    ihdr <- parse_ihdr data ;;
    Ok (if bit_depth ihdr =? 16 then set_high_bit_depth info else info)
  else if String.eqb chunk_type "gAMA" then
    _ <- parse_gama data ;; Ok info
  else if String.eqb chunk_type "cHRM" then
    _ <- parse_chrm data ;; Ok info
  else if String.eqb chunk_type "sRGB" then
    _ <- parse_srgb data ;; Ok info
  else if String.eqb chunk_type "cICP" then
    c <- parse_cicp data ;;
    let info := set_cicp c info in
    Ok (if transfer_characteristics c =? 16 then set_hdr_type "HDR10 (PQ)" info
        else if transfer_characteristics c =? 18 then set_hdr_type "HLG" info
        else info)
  else if String.eqb chunk_type "iCCP" then
    _ <- parse_iccp data ;; Ok info
  else if String.eqb chunk_type "mDCv" then
    m <- parse_mdcv data ;; Ok (set_mdcv m info)
  else if String.eqb chunk_type "cLLi" then
    l <- parse_clli data ;; Ok (set_clli l info)
  else Ok info.

Fixpoint analyze_loop (info : hdr_info) (chunks : list chunk) : result hdr_info :=
  match chunks with
  | [] => Ok info
  | c :: chunks' => info' <- analyze_chunk info c ;; analyze_loop info' chunks'
  end.

Definition analyze_chunks (chunks : list chunk) : result hdr_info :=
  _ <- mapM list_chunk chunks ;;
  analyze_loop hdr_info_init chunks.

Definition analyze_png_hdr (file : bytes) : result hdr_info :=
  chunks <- read_png_chunks file ;;
  analyze_chunks chunks.

End WithZlib.

End png_hdr_analyzer.

(** ** hdr_convert.py *)

Module hdr_convert.

Local Open Scope R_scope.

(** *** The photometric chain *)

(** [np.clip(x, lo, hi)] *)
Definition clip (x lo hi : R) : R := Rmin (Rmax x lo) hi.

(** [np.power(x, y)] for the bases and exponents of this program: a
    positive exponent and a base that is never negative (a negative base
    would give nan). *)
Definition power (x y : R) : R :=
  if Rlt_dec 0 x then Rpower x y else 0.

(** [np.where(x <= 0.04045, x / 12.92, ((x + 0.055) / 1.055) ** 2.4)] *)
Definition srgb_to_linear (x : R) : R :=
  if Rle_dec x 0.04045 then x / 12.92
  else power ((x + 0.055) / 1.055) 2.4.

Definition m1 : R := 2610 / 16384.
Definition m2 : R := 2523 / 4096 * 128.
Definition c1 : R := 3424 / 4096.
Definition c2 : R := 2413 / 4096 * 32.
Definition c3 : R := 2392 / 4096 * 32.

(** The ST 2084 formula, without the clip. *)
Definition pq_formula (x : R) : R :=
  let x_pow_m1 := power x m1 in
  let numerator := c1 + c2 * x_pow_m1 in
  let denominator := 1 + c3 * x_pow_m1 in
  power (numerator / denominator) m2.

Definition linear_to_pq (x : R) : R := pq_formula (clip x 0 1).

(** [create_radial_mask], the value at row [y], column [x]: the distance
    and the soft edge are binary64, the hard edge is cast to float32, and
    so is the mask that is returned. *)
Definition center_of (width height : Z) (center : option (Z * Z)) : Z * Z :=
  match center with
  | Some c => c
  | None => (width / 2, height / 2)%Z
  end.

Definition dist (width height : Z) (center : option (Z * Z)) (y x : Z) : R :=
  let c := center_of width height center in
  sqrt (IZR ((x - fst c) ^ 2 + (y - snd c) ^ 2)).

Definition create_radial_mask (width height : Z) (radius : R)
    (center : option (Z * Z)) (falloff : R) (y x : Z) : R :=
  let d := dist width height center y x in
  let mask :=
    if Rlt_dec 0 falloff then clip ((d - radius) / falloff) 0 1
    else float32 (if Rlt_dec radius d then 1 else 0) in
  float32 mask.

(** A grey image as PIL hands it over ([Image.open(path).convert('L')]):
    its size, its 8-bit pixels by row and column and, the resampling being
    PIL's own, the pixels of [resize((w, h), LANCZOS)] for every target
    size. *)
Record gray_image : Type := {
  im_width : nat;
  im_height : nat;
  im_pixel : nat -> nat -> byte;
  im_resize : nat -> nat -> nat -> nat -> byte
}.

(** The arguments of [convert_to_hdr].  [mask_path] is the image in the
    mask file; [reference_hdr] is the content of the reference file when
    the path is given and exists. *)
Record config : Type := {
  gain : R;
  nits : R;
  radial_boost : option R;
  radial_gain : R;
  falloff : R;
  mask_path : option gray_image;
  mask_gain : R;
  reference_hdr : option bytes
}.

(** [1.0 + mask_3d * (g - 1.0)] for a float32 mask: [g - 1.0] is a Python
    float, the product and the sum are float32 operations. *)
Definition boost (mask g : R) : R :=
  float32 (1 + float32 (mask * float32 (g - 1))).

Definition radial_multiplier (cfg : config) (width height : Z) (y x : Z) : R :=
  match radial_boost cfg with
  | Some radius =>
      boost (create_radial_mask width height radius None (falloff cfg) y x)
            (radial_gain cfg)
  | None => 1
  end.

(** [load_mask_image], the value at row [y], column [x]: an image of
    another size is resized, never refused, and the 8-bit values are
    divided by 255 in float32. *)
Definition load_mask_image (mask_img : gray_image)
    (target_width target_height : nat) (y x : nat) : R :=
  let mask_img_pixel :=
    if negb ((im_width mask_img =? target_width)%nat
             && (im_height mask_img =? target_height)%nat)
    then im_resize mask_img target_width target_height
    else im_pixel mask_img in
  float32 (IZR (byte_to_Z (mask_img_pixel y x)) / 255).

Definition mask_multiplier (cfg : config) (width height : nat) (y x : nat) : R :=
  match mask_path cfg with
  | Some mask_img =>
      boost (load_mask_image mask_img width height y x) (mask_gain cfg)
  | None => 1
  end.

(** One normalised sample [s] of the pixel at row [y], column [x], from
    [srgb_to_linear] to the result of [linear_to_pq]. *)
Definition pq_sample (cfg : config) (width height : nat) (y x : nat) (s : R) : R :=
  let linear := srgb_to_linear s in
  let linear := linear * gain cfg in
  let linear :=
    match radial_boost cfg with
    | Some _ =>
        linear * radial_multiplier cfg (Z.of_nat width) (Z.of_nat height)
                   (Z.of_nat y) (Z.of_nat x)
    | None => linear
    end in
  let linear :=
    match mask_path cfg with
    | Some _ => linear * mask_multiplier cfg width height y x
    | None => linear
    end in
  let linear := linear * (nits cfg / 10000) in
  let linear := clip linear 0 1 in
  linear_to_pq linear.

(** [a.astype(np.uint16)] on one float: the fraction is dropped (rounding
    toward zero), and the integer is reduced to 16 bits. *)
Definition trunc (r : R) : Z :=
  if Rle_dec 0 r then Zfloor r else Zceil r.

Definition astype_uint16 (r : R) : Z := (trunc r mod 65536)%Z.

Definition quantize (pq : R) : Z := astype_uint16 (pq * 65535).

(** *** Images *)

Definition pixel : Type := (Z * Z * Z)%type.

(** An array of shape (height, width, 3). *)
Record ndarray : Type := {
  nd_height : nat;
  nd_width : nat;
  nd_rows : list (list pixel)
}.

Definition at_ (a : ndarray) (y x : nat) : pixel :=
  nth x (nth y (nd_rows a) []) (0, 0, 0)%Z.

Definition in_range (bound : Z) (p : pixel) : Prop :=
  let '(r, g, b) := p in
  (0 <= r < bound /\ 0 <= g < bound /\ 0 <= b < bound)%Z.

(** A well-formed array of unsigned [bits]-bit samples. *)
Definition well_formed (bits : Z) (a : ndarray) : Prop :=
  length (nd_rows a) = nd_height a /\
  Forall (fun row => length row = nd_width a) (nd_rows a) /\
  Forall (Forall (in_range (2 ^ bits))) (nd_rows a).

(** [np.array(img_rgb, dtype=np.float64) / 255.0] on one sample *)
Definition normalize (v : Z) : R := IZR v / 255.

Definition convert_pixel (cfg : config) (width height y x : nat) (p : pixel) : pixel :=
  let '(r, g, b) := p in
  let f v := quantize (pq_sample cfg width height y x (normalize v)) in
  (f r, f g, f b).

(** The array [img_16bit] of [convert_to_hdr]. *)
Definition convert_pixels (cfg : config) (img : ndarray) : ndarray :=
  let width := nd_width img in
  let height := nd_height img in
  {| nd_height := height;
     nd_width := width;
     nd_rows :=
       map (fun y =>
              map (fun x => convert_pixel cfg width height y x (at_ img y x))
                  (seq 0 width))
           (seq 0 height) |}.

(** *** The profile extractor and the chunk stream writer *)

Local Open Scope Z_scope.

(** [make_chunk]; the callers pass the tag as bytes. *)
Definition make_chunk (chunk_type : bytes) (data : bytes) : result bytes :=
  let chunk := chunk_type ++ data in
  let crc := Z.land (Zlib.crc32 chunk) 0xffffffff in
  len <- pack_I (Z.of_nat (length data)) ;;
  crc_bytes <- pack_I crc ;;
  Ok (len ++ chunk ++ crc_bytes).

(** [range(0, stop, step)] *)
Definition range_step (stop step : nat) : list nat :=
  map (fun k => (k * step)%nat) (seq 0 ((stop + step - 1) / step)).

Definition chunk_size : nat := Z.to_nat 8192.

(** [struct.pack('>HHH', r, g, b)] *)
Definition pack_HHH (p : pixel) : result bytes :=
  let '(r, g, b) := p in
  r' <- pack_H r ;; g' <- pack_H g ;; b' <- pack_H b ;;
  Ok (r' ++ g' ++ b').

Section WithZlib.

Variable zlib : Zlib.codec.

(** The [while True] loop of [extract_icc_profile], with the iteration
    budget of [png_hdr_analyzer.read_loop]. *)
Fixpoint extract_loop (fuel : nat) (f : bytes)
  : option (result (option (string * bytes))) :=
  match fuel with
  | O => None
  | S fuel' =>
      let '(length_data, f) := read 4 f in
      if (length length_data <? 4)%nat then Some (Ok None)
      else
        match unpack_I length_data with
        | Raise e => Some (Raise e)
        | Ok len =>
            let '(type_bytes, f) := read 4 f in
            match decode_ascii type_bytes with
            | Raise e => Some (Raise e)
            | Ok chunk_type =>
                let '(data, f) := read (Z.to_nat len) f in
                let '(_, f) := read 4 f in
                if String.eqb chunk_type "iCCP" then
                  Some (null_pos <- index_nul data ;;
                        let profile_name := decode_latin1 (firstn null_pos data) in
                        let compressed_profile := skipn (null_pos + 2) data in
                        icc_data <- Zlib.decompress zlib compressed_profile ;;
                        Ok (Some (profile_name, icc_data)))
                else if String.eqb chunk_type "IEND" then Some (Ok None)
                else extract_loop fuel' f
            end
        end
  end.

Definition extract_icc_profile_fuel (fuel : nat) (file : bytes)
  : option (result (option (string * bytes))) :=
  let '(signature, f) := read 8 file in
  if bytes_eqb signature png_signature then extract_loop fuel f
  else Some (Ok None).

Definition extract_icc_profile (file : bytes) : result (option (string * bytes)) :=
  match extract_icc_profile_fuel (S (length file)) file with
  | Some r => r
  | None => Ok None
  end.

(** One scanline of [raw_data]: the filter type, then the samples. *)
Definition scanline (img_array : ndarray) (y : nat) : result bytes :=
  samples <- mapM (fun x => pack_HHH (at_ img_array y x))
                  (seq 0 (nd_width img_array)) ;;
  Ok (x00 :: concat samples).

Definition idat_chunks (compressed_data : bytes) : result bytes :=
  cs <- mapM (fun i => make_chunk (encode_ascii "IDAT")
                         (firstn chunk_size (skipn i compressed_data)))
             (range_step (length compressed_data) chunk_size) ;;
  Ok (concat cs).

(** [save_16bit_png_with_icc]: the bytes written to [output_path].  Every
    chunk is built before the file is opened. *)
Definition save_16bit_png_with_icc (img_array : ndarray)
    (icc_profile : option bytes) : result bytes :=
  let height := nd_height img_array in
  let width := nd_width img_array in
  w <- pack_I (Z.of_nat width) ;;
  h <- pack_I (Z.of_nat height) ;;
  let ihdr_data := w ++ h ++ [x10; x02; x00; x00; x00] in
  iccp_chunk <-
    match icc_profile with
    | Some (b :: p) =>
        let profile_name := encode_ascii "PQ HDR" ++ [x00] in
        let compression_method := [x00] in
        let compressed_profile := Zlib.compress zlib (b :: p) 9 in
        make_chunk (encode_ascii "iCCP")
          (profile_name ++ compression_method ++ compressed_profile)
    | _ => Ok []
    end ;;
  lines <- mapM (scanline img_array) (seq 0 height) ;;
  let raw_data := concat lines in
  let compressed_data := Zlib.compress zlib raw_data 9 in
  idat <- idat_chunks compressed_data ;;
  ihdr <- make_chunk (encode_ascii "IHDR") ihdr_data ;;
  iend <- make_chunk (encode_ascii "IEND") [] ;;
  Ok (png_signature ++ ihdr ++ iccp_chunk ++ idat ++ iend).

(** [convert_to_hdr]: the bytes of the output file.  [img] is the array of
    the input image after PIL's conversion to RGB. *)
Definition convert_to_hdr (img : ndarray) (cfg : config) : result bytes :=
  let img_16bit := convert_pixels cfg img in
  icc_profile <-
    match reference_hdr cfg with
    | Some file =>
        icc_data <- extract_icc_profile file ;;
        Ok (match icc_data with
            | Some (_, data) => Some data
            | None => None
            end)
    | None => Ok None
    end ;;
  save_16bit_png_with_icc img_16bit icc_profile.

End WithZlib.

End hdr_convert.


(** ** The container format, as the specification words it *)

Module Container.

Import png_hdr_analyzer hdr_convert.

(** A chunk record as it lies in a stream: big-endian length, tag, payload,
    big-endian checksum. *)
Definition chunk_bytes (c : chunk) : bytes :=
  be_bytes 4 (c_length c) ++ encode_ascii (c_type c) ++ c_data c
    ++ be_bytes 4 (c_crc c).

Definition chunk_stream (cs : list chunk) : bytes := concat (map chunk_bytes cs).

Definition is_ascii (s : string) : bool :=
  forallb (fun b => byte_to_Z b <? 128) (encode_ascii s).

(** The invariants of a ChunkRecord: a four-character ASCII tag, a payload
    of exactly [c_length] bytes, 32-bit length and checksum. *)
Definition valid_chunk (c : chunk) : Prop :=
  length (encode_ascii (c_type c)) = 4%nat /\
  is_ascii (c_type c) = true /\
  c_length c = Z.of_nat (length (c_data c)) /\
  c_length c < 2 ^ 32 /\
  0 <= c_crc c < 2 ^ 32.

Definition has_type (t : string) (c : chunk) : bool := String.eqb (c_type c) t.

Definition payloads (t : string) (chunks : list chunk) : list bytes :=
  map c_data (filter (has_type t) chunks).

(** The decoded image headers of a chunk list. *)
Definition image_headers (chunks : list chunk) : list (result ihdr_info) :=
  map parse_ihdr (payloads "IHDR" chunks).

(** The header that describes a 16-bit RGB array. *)
Definition header_of (a : ndarray) : ihdr_info :=
  {| width := Z.of_nat (nd_width a); height := Z.of_nat (nd_height a);
     bit_depth := 16; color_type := 2; color_type_name := "RGB (Truecolor)";
     compression := 0; filter_method := 0; interlace := 0 |}.

(** An ImageHeader of the writer: 32-bit positive dimensions, bit depth 16,
    colour type RGB, the three methods 0. *)
Definition valid_header (h : ihdr_info) : Prop :=
  0 < width h < 2 ^ 32 /\ 0 < height h < 2 ^ 32 /\
  bit_depth h = 16 /\ color_type h = 2 /\
  color_type_name h = "RGB (Truecolor)"%string /\
  compression h = 0 /\ filter_method h = 0 /\ interlace h = 0.

Definition dimensions_match (h : ihdr_info) (a : ndarray) : Prop :=
  width h = Z.of_nat (nd_width a) /\ height h = Z.of_nat (nd_height a).

(** Reassembling the pixels: the samples of one scanline, three big-endian
    16-bit values per pixel, and the scanlines of the inflated data, each
    behind its filter byte. *)
Fixpoint samples (w : nat) (line : bytes) : list pixel :=
  match w with
  | O => []
  | S w' =>
      (be_value (firstn 2 line),
       be_value (firstn 2 (skipn 2 line)),
       be_value (firstn 2 (skipn 4 line))) :: samples w' (skipn 6 line)
  end.

Fixpoint unfilter (h w : nat) (raw : bytes) : list (list pixel) :=
  match h with
  | O => []
  | S h' =>
      samples w (firstn (6 * w) (skipn 1 raw))
        :: unfilter h' w (skipn (1 + 6 * w) raw)
  end.

Definition decode_pixels (zlib : Zlib.codec) (h : ihdr_info)
    (chunks : list chunk) : result (list (list pixel)) :=
  raw <- Zlib.decompress zlib (concat (payloads "IDAT" chunks)) ;;
  Ok (unfilter (Z.to_nat (height h)) (Z.to_nat (width h)) raw).

(** The record the writer builds for a tag and a payload ([make_chunk]). *)
Definition record (t : string) (data : bytes) : chunk :=
  {| c_type := t;
     c_length := Z.of_nat (length data);
     c_data := data;
     c_crc := Z.land (Zlib.crc32 (encode_ascii t ++ data)) 0xffffffff |}.

(** The bytes of a pixel and of a scanline in the raw image data. *)
Definition pixel_bytes (p : pixel) : bytes :=
  let '(r, g, b) := p in be_bytes 2 r ++ be_bytes 2 g ++ be_bytes 2 b.

Definition scanline_bytes (row : list pixel) : bytes :=
  x00 :: concat (map pixel_bytes row).

(** The slices of the compressed data that go into the IDAT chunks. *)
Definition pieces (data : bytes) : list bytes :=
  map (fun i => firstn chunk_size (skipn i data))
      (range_step (length data) chunk_size).

(** The records of a file written by [save_16bit_png_with_icc]: the
    header, the profile if there is a non-empty one, the slices of the
    compressed scanlines, the end marker. *)
Definition iccp_records (zlib : Zlib.codec) (icc_profile : option bytes)
  : list chunk :=
  match icc_profile with
  | Some (b :: p) =>
      [record "iCCP" ((encode_ascii "PQ HDR" ++ [x00]) ++ [x00]
                        ++ Zlib.compress zlib (b :: p) 9)]
  | _ => []
  end.

Definition idat_records (zlib : Zlib.codec) (a : ndarray) : list chunk :=
  map (record "IDAT")
      (pieces (Zlib.compress zlib (concat (map scanline_bytes (nd_rows a))) 9)).

Definition written_chunks (zlib : Zlib.codec) (a : ndarray)
    (icc_profile : option bytes) : list chunk :=
  (record "IHDR" (be_bytes 4 (Z.of_nat (nd_width a))
                    ++ be_bytes 4 (Z.of_nat (nd_height a))
                    ++ [x10; x02; x00; x00; x00])
     :: iccp_records zlib icc_profile ++ idat_records zlib a)
    ++ [record "IEND" []].

(** The invariant of a record built by [make_chunk]. *)
Definition checksummed (c : chunk) : Prop :=
  c_crc c = Z.land (Zlib.crc32 (encode_ascii (c_type c) ++ c_data c)) 0xffffffff /\
  c_length c = Z.of_nat (length (c_data c)).

(** What the reader promises about the records it emits. *)
Definition payload_exact (c : chunk) : Prop :=
  Z.of_nat (length (c_data c)) = c_length c.

Fixpoint iend_only_last (cs : list chunk) : Prop :=
  match cs with
  | [] => True
  | c :: cs' => (c_type c = "IEND"%string -> cs' = []) /\ iend_only_last cs'
  end.

Definition not_iend (c : chunk) : Prop := c_type c <> "IEND"%string.

Definition not_iccp (c : chunk) : Prop := c_type c <> "iCCP"%string.

(** The classification of the transfer characteristics of a cICP chunk. *)
Definition hdr_type_of (transfer : Z) : option string :=
  if transfer =? 16 then Some "HDR10 (PQ)"%string
  else if transfer =? 18 then Some "HLG"%string
  else None.

Definition not_cicp (c : chunk) : Prop := c_type c <> "cICP"%string.

(** The chunks that mark a stream as HDR whatever the bit depth. *)
Definition hdr_chunk (c : chunk) : Prop :=
  c_type c = "cICP"%string \/ c_type c = "mDCv"%string \/ c_type c = "cLLi"%string.

(** An image header chunk that decodes to the bit depth [d]. *)
Definition ihdr_of_depth (d : Z) (c : chunk) : Prop :=
  c_type c = "IHDR"%string /\
  exists h, parse_ihdr (c_data c) = Ok h /\ bit_depth h = d.

(** The rational function inside the ST 2084 formula. *)
Definition ratio (t : R) : R := ((c1 + c2 * t) / (1 + c3 * t))%R.

(** Nearest-integer rounding, as a relation: no integer is closer. *)
Definition nearest_integer (r : R) (z : Z) : Prop :=
  forall z' : Z, (Rabs (IZR z - r) <= Rabs (IZR z' - r))%R.

(** The two transfer functions in the words of the specification, with
    its numbers: the inverse sRGB EOTF and the forward PQ transform.  A real
    power [x ^ y] of a base that is not negative is [exp (y * ln x)], and 0
    for the base 0. *)
Definition real_power (x y : R) : R :=
  if Req_dec_T x 0 then 0%R else Rpower x y.

Definition srgbToLinear (x : R) : R :=
  if Rle_dec x 0.04045 then (x / 12.92)%R
  else real_power ((x + 0.055) / 1.055) 2.4.

Definition pq (x : R) : R :=
  real_power
    ((3424 / 4096 + 2413 / 4096 * 32 * real_power x (2610 / 16384))
     / (1 + 2392 / 4096 * 32 * real_power x (2610 / 16384)))
    (2523 / 4096 * 128).

End Container.

(** ** Concrete inputs *)

Module Examples.

Import png_hdr_analyzer hdr_convert Container.

(** A 2 x 1 image of 16-bit samples and its header. *)
Definition image_2x1 : ndarray :=
  {| nd_height := 1; nd_width := 2;
     nd_rows := [[(65535, 0, 258); (1, 2, 3)]] |}.

Definition header_2x1 : ihdr_info := header_of image_2x1.

Definition profile_2 : bytes := [x01; x02].

(** A stream that breaks off two bytes into the length field that would
    follow its only chunk. *)
Definition ihdr_4x4 : chunk :=
  record "IHDR" [x00; x00; x00; x04; x00; x00; x00; x04; x08; x02; x00; x00; x00].

Definition iend : chunk := record "IEND" [].

(** A stream without a profile, and one that is no PNG file. *)
Definition plain_stream : bytes :=
  png_signature ++ chunk_stream [ihdr_4x4] ++ chunk_bytes iend ++ [].

Definition not_png : bytes := [x47; x49; x46; x38; x39; x61; x00; x00; x00].

(** A stream with the profile [profile_2] embedded under the name sRGB,
    with the codec [Zlib.stored]. *)
Definition iccp_srgb : chunk :=
  record "iCCP" ([x73; x52; x47; x42] ++ [x00] ++ [x00]
                   ++ Zlib.compress Zlib.stored profile_2 9).

Definition profile_stream : bytes :=
  png_signature ++ chunk_stream [ihdr_4x4] ++ chunk_bytes iccp_srgb
    ++ chunk_bytes iend.

(** A stream whose header announces 16 bits and nothing else. *)
Definition ihdr_deep : chunk :=
  record "IHDR" [x00; x00; x00; x02; x00; x00; x00; x01; x10; x02; x00; x00; x00].

Definition deep_stream : bytes :=
  png_signature ++ chunk_bytes ihdr_deep ++ chunk_bytes iend.

(** The default configuration: gain 1, SDR white at 10000 nits, no radial
    boost, no mask, no reference file. *)
Definition neutral_config : config :=
  {| gain := 1; nits := 10000; radial_boost := None; radial_gain := 2;
     falloff := 50; mask_path := None; mask_gain := 100;
     reference_hdr := None |}.

(** A radial boost of radius 100 and outer gain 2, with a hard edge and
    with the default falloff. *)
Definition hard_edge_config : config :=
  {| gain := 1; nits := 10000; radial_boost := Some 100%R; radial_gain := 2;
     falloff := 0; mask_path := None; mask_gain := 100;
     reference_hdr := None |}.

Definition soft_edge_config : config :=
  {| gain := 1; nits := 10000; radial_boost := Some 100%R; radial_gain := 2;
     falloff := 50; mask_path := None; mask_gain := 100;
     reference_hdr := None |}.

(** A configuration outside the documented domain: gain 0 and 20000 nits. *)
Definition out_of_domain_config : config :=
  {| gain := 0; nits := 20000; radial_boost := None; radial_gain := 2;
     falloff := 50; mask_path := None; mask_gain := 100;
     reference_hdr := None |}.

(** A white pixel, as an 8-bit RGB image. *)
Definition white_1x1 : ndarray :=
  {| nd_height := 1; nd_width := 1; nd_rows := [[(255, 255, 255)]] |}.

(** A cICP chunk: BT.2020 primaries, PQ transfer, RGB, full range. *)
Definition cicp_pq : chunk := record "cICP" [x09; x10; x00; x01].

Definition truncated_stream : bytes :=
  png_signature ++ chunk_bytes ihdr_4x4 ++ [x00; x00].

(** Both boosts at once: radius 100 with falloff 50 and outer gain 2, and a
    400 x 300 mask that is white on its left half.  Resized, the mask is
    taken to be grey everywhere. *)
Definition left_half_mask : gray_image :=
  {| im_width := 400; im_height := 300;
     im_pixel := fun y x => if (x <? 200)%nat then xff else x00;
     im_resize := fun w h y x => x80 |}.

Definition boosted_config : config :=
  {| gain := 1; nits := 1000; radial_boost := Some 100%R; radial_gain := 2;
     falloff := 50; mask_path := Some left_half_mask; mask_gain := 100;
     reference_hdr := None |}.

(** A soft edge with the outer gain 1.1, which is no binary32 number. *)
Definition fractional_gain_config : config :=
  {| gain := 1; nits := 10000; radial_boost := Some 100%R; radial_gain := 1.1;
     falloff := 50; mask_path := None; mask_gain := 100;
     reference_hdr := None |}.

(** The 400 x 300 mask with a 1 x 1 image: the sizes differ. *)
Definition mismatched_mask_config : config :=
  {| gain := 1; nits := 10000; radial_boost := None; radial_gain := 2;
     falloff := 50; mask_path := Some left_half_mask; mask_gain := 100;
     reference_hdr := None |}.

(** Two cICP chunks in one stream: HLG first, then the transfer
    characteristics 13 (sRGB), which the analyzer does not classify. *)
Definition cicp_hlg : chunk := record "cICP" [x09; x12; x00; x01].

Definition cicp_srgb : chunk := record "cICP" [x01; x0d; x00; x01].

Definition two_cicp_stream : bytes :=
  png_signature ++ chunk_stream [ihdr_4x4; cicp_hlg; cicp_srgb]
    ++ chunk_bytes iend.

(** A conversion that takes its profile from [profile_stream], and one
    whose reference file has an iCCP chunk without the NUL that ends the
    profile name. *)
Definition reference_config : config :=
  {| gain := 1; nits := 10000; radial_boost := None; radial_gain := 2;
     falloff := 50; mask_path := None; mask_gain := 100;
     reference_hdr := Some profile_stream |}.

Definition iccp_unnamed : chunk := record "iCCP" [x73; x52; x47; x42].

Definition damaged_reference : bytes :=
  png_signature ++ chunk_stream [ihdr_4x4; iccp_unnamed] ++ chunk_bytes iend.

Definition damaged_reference_config : config :=
  {| gain := 1; nits := 10000; radial_boost := None; radial_gain := 2;
     falloff := 50; mask_path := None; mask_gain := 100;
     reference_hdr := Some damaged_reference |}.

(** A stream cut inside its IDAT chunk, one byte into the payload. *)
Definition idat_3 : chunk := record "IDAT" [x01; x02; x03].

Definition cut_stream : bytes :=
  png_signature ++ chunk_stream [ihdr_4x4] ++ firstn 9 (chunk_bytes idat_3).

(** A stream whose gAMA chunk has five bytes instead of four. *)
Definition gama_5 : chunk := record "gAMA" [x00; x00; xb1; x8f; x00].

Definition bad_gama_stream : bytes :=
  png_signature ++ chunk_stream [ihdr_4x4; gama_5] ++ chunk_bytes iend ++ [].

(** Payloads of metadata chunks: a gAMA of 45455, a cLLi of 1000 and 400
    nits, and an mDCv with BT.2020 primaries, D65 white, 1000 and 0.005
    nits; the same mDCv without its last four bytes. *)
Definition gama_payload : bytes := [x00; x00; xb1; x8f].

Definition clli_payload : bytes := [x00; x00; x03; xe8; x00; x00; x01; x90].

Definition mdcv_payload : bytes :=
  [x8a; x48; x39; x08; x21; x34; x9b; xaa; x19; x96; x08; xfc;
   x3d; x13; x40; x42; x00; x98; x96; x80; x00; x00; x00; x32].

Definition mdcv_short : bytes := firstn 20 mdcv_payload.

Definition chrm_payload : bytes :=
  [x00; x00; x7a; x26; x00; x00; x80; x84; x00; x00; xfa; x00; x00; x00; x80; xe8;
   x00; x00; x75; x30; x00; x00; xea; x60; x00; x00; x3a; x98; x00; x00; x17; x70].

End Examples.

(** * Properties *)

(** ** Bytes *)

Module BytesFacts.

Lemma byte_to_Z_range (b : byte) : 0 <= byte_to_Z b < 256.
Proof.
  unfold byte_to_Z. pose proof (Byte.to_N_bounded b). lia.
Qed.

Lemma byte_to_of_Z (z : Z) : byte_to_Z (byte_of_Z z) = z mod 256.
Proof.
  unfold byte_to_Z, byte_of_Z.
  assert (Hm : 0 <= z mod 256 < 256) by (apply Z.mod_pos_bound; lia).
  destruct (Byte.of_N (Z.to_N (z mod 256))) as [b|] eqn:E.
  - apply Byte.to_of_N in E. rewrite E. lia.
  - apply Byte.of_N_None_iff in E. lia.
Qed.

Lemma byte_of_to_Z (b : byte) : byte_of_Z (byte_to_Z b) = b.
Proof.
  unfold byte_of_Z. pose proof (byte_to_Z_range b) as Hr.
  rewrite Z.mod_small by lia. unfold byte_to_Z.
  rewrite N2Z.id, Byte.of_to_N. reflexivity.
Qed.

Lemma length_be_bytes (k : nat) (n : Z) : length (be_bytes k n) = k.
Proof. induction k; simpl; congruence. Qed.

Lemma be_value_be_bytes (k : nat) (n : Z) :
  be_value (be_bytes k n) = n mod 2 ^ (8 * Z.of_nat k).
Proof.
  induction k as [|k IH].
  - simpl. now rewrite Z.mod_1_r.
  - cbn [be_bytes be_value]. rewrite IH, length_be_bytes, byte_to_of_Z.
    rewrite Z.shiftr_div_pow2 by lia.
    replace (8 * Z.of_nat (S k)) with (8 * Z.of_nat k + 8) by lia.
    rewrite Z.pow_add_r by lia. change (2 ^ 8) with 256.
    rewrite Z.rem_mul_r by lia. lia.
Qed.

Lemma be_value_range (l : bytes) : 0 <= be_value l < 2 ^ (8 * Z.of_nat (length l)).
Proof.
  induction l as [|b t IH].
  - simpl. lia.
  - cbn [be_value length]. pose proof (byte_to_Z_range b) as Hb.
    replace (8 * Z.of_nat (S (length t))) with (8 * Z.of_nat (length t) + 8) by lia.
    rewrite Z.pow_add_r by lia. change (2 ^ 8) with 256.
    nia.
Qed.

Lemma pack_uint_ok (k : nat) (n : Z) :
  0 <= n < 2 ^ (8 * Z.of_nat k) -> pack_uint k n = Ok (be_bytes k n).
Proof.
  intros H. unfold pack_uint.
  destruct (0 <=? n) eqn:E1; [|lia]. destruct (n <? _) eqn:E2; [|lia].
  reflexivity.
Qed.

Lemma unpack_be_bytes (k : nat) (n : Z) :
  0 <= n < 2 ^ (8 * Z.of_nat k) -> unpack_uint k (be_bytes k n) = Ok n.
Proof.
  intros H. unfold unpack_uint.
  rewrite length_be_bytes, Nat.eqb_refl, be_value_be_bytes, Z.mod_small by lia.
  reflexivity.
Qed.

Lemma unpack_uint_length (k : nat) (b : bytes) :
  length b = k -> unpack_uint k b = Ok (be_value b).
Proof. intros H. unfold unpack_uint. now rewrite H, Nat.eqb_refl. Qed.

Lemma unpack_uint_inv (k : nat) (b : bytes) (n : Z) :
  unpack_uint k b = Ok n -> length b = k /\ 0 <= n.
Proof.
  unfold unpack_uint. destruct (Nat.eqb (length b) k) eqn:E; [|discriminate].
  intros H. injection H as <-. apply Nat.eqb_eq in E.
  split; [assumption|apply be_value_range].
Qed.

Lemma firstn_exact {A : Type} (n : nat) (a b : list A) :
  length a = n -> firstn n (a ++ b) = a.
Proof.
  intros <-. rewrite firstn_app, Nat.sub_diag, firstn_all. simpl.
  apply app_nil_r.
Qed.

Lemma skipn_exact {A : Type} (n : nat) (a b : list A) :
  length a = n -> skipn n (a ++ b) = b.
Proof.
  intros <-. rewrite skipn_app, Nat.sub_diag, skipn_all. reflexivity.
Qed.

Lemma read_app (n : nat) (a b : bytes) :
  length a = n -> read n (a ++ b) = (a, b).
Proof.
  intros H. unfold read. now rewrite firstn_exact, skipn_exact.
Qed.

Lemma decode_encode_ascii (s : string) :
  Container.is_ascii s = true -> decode_ascii (encode_ascii s) = Ok s.
Proof.
  unfold Container.is_ascii, decode_ascii, encode_ascii. intros ->.
  now rewrite string_of_list_byte_of_string.
Qed.

(** The checksum of the end marker, as every PNG file has it. *)
Example crc32_IEND : Zlib.crc32 (encode_ascii "IEND") = 0xAE426082.
Proof. vm_compute. reflexivity. Qed.

Lemma mapM_ok {A B : Type} (f : A -> result B) (g : A -> B) (l : list A) :
  (forall a, In a l -> f a = Ok (g a)) -> mapM f l = Ok (map g l).
Proof.
  induction l as [|a l IH]; intros H; simpl.
  - reflexivity.
  - rewrite (H a) by now left. simpl. rewrite IH by (intros; apply H; now right).
    reflexivity.
Qed.

Lemma map_nth_seq {A : Type} (l : list A) (d : A) :
  map (fun i => nth i l d) (seq 0 (length l)) = l.
Proof.
  induction l as [|a l IH]; simpl.
  - reflexivity.
  - f_equal. rewrite <- seq_shift, map_map. exact IH.
Qed.

End BytesFacts.

(** ** The chunk stream reader *)

Module ReaderFacts.

Import png_hdr_analyzer Container BytesFacts.

Lemma read_loop_unfold (fuel : nat) (f : bytes) :
  read_loop (S fuel) f =
  if (length (firstn 4 f) <? 4)%nat then Some (Ok [])
  else
    match unpack_I (firstn 4 f) with
    | Raise e => Some (Raise e)
    | Ok len =>
        match decode_ascii (firstn 4 (skipn 4 f)) with
        | Raise e => Some (Raise e)
        | Ok chunk_type =>
            let body := skipn 4 (skipn 4 f) in
            let data := firstn (Z.to_nat len) body in
            let after := skipn (Z.to_nat len) body in
            match unpack_I (firstn 4 after) with
            | Raise e => Some (Raise e)
            | Ok crc_value =>
                let c := {| c_type := chunk_type; c_length := len;
                            c_data := data; c_crc := crc_value |} in
                if String.eqb chunk_type "IEND" then Some (Ok [c])
                else
                  match read_loop fuel (skipn 4 after) with
                  | Some (Ok cs) => Some (Ok (c :: cs))
                  | other => other
                  end
            end
        end
    end.
Proof. reflexivity. Qed.

(** The iteration budget is never exhausted: every iteration that goes on
    has consumed at least the four bytes of a length field. *)
Lemma read_loop_total (fuel : nat) :
  forall f, (length f < fuel)%nat -> exists r, read_loop fuel f = Some r.
Proof.
  induction fuel as [|fuel IH]; intros f Hf; [lia|].
  rewrite read_loop_unfold.
  destruct (length (firstn 4 f) <? 4)%nat eqn:E4; [eauto|].
  apply Nat.ltb_ge in E4. rewrite length_firstn in E4.
  destruct (unpack_I (firstn 4 f)) as [len|e]; [|eauto].
  destruct (decode_ascii _) as [ty|e]; [|eauto].
  cbv zeta.
  destruct (unpack_I _) as [crc|e]; [|eauto].
  destruct (String.eqb ty "IEND"); [eauto|].
  destruct (IH (skipn 4 (skipn (Z.to_nat len) (skipn 4 (skipn 4 f))))) as [r Hr].
  { rewrite !length_skipn. lia. }
  rewrite Hr. destruct r as [cs|e]; eauto.
Qed.

Lemma read_loop_mono (fuel : nat) :
  forall fuel' f r, read_loop fuel f = Some r -> (fuel <= fuel')%nat ->
                    read_loop fuel' f = Some r.
Proof.
  induction fuel as [|fuel IH]; intros fuel' f r H Hle; [discriminate|].
  destruct fuel' as [|fuel']; [lia|].
  rewrite read_loop_unfold in *.
  destruct (length (firstn 4 f) <? 4)%nat; [assumption|].
  destruct (unpack_I (firstn 4 f)) as [len|e]; [|assumption].
  destruct (decode_ascii _) as [ty|e]; [|assumption].
  cbv zeta in *.
  destruct (unpack_I _) as [crc|e]; [|assumption].
  destruct (String.eqb ty "IEND"); [assumption|].
  destruct (read_loop fuel _) as [r'|] eqn:E; [|discriminate].
  rewrite (IH fuel' _ r' E) by lia. assumption.
Qed.

(** Every record of a returned list carries exactly [c_length] payload
    bytes, and none but the last has the tag IEND. *)
Lemma read_loop_records (fuel : nat) :
  forall f chunks, read_loop fuel f = Some (Ok chunks) ->
                   Forall payload_exact chunks /\ iend_only_last chunks.
Proof.
  induction fuel as [|fuel IH]; intros f chunks H; [discriminate|].
  rewrite read_loop_unfold in H.
  destruct (length (firstn 4 f) <? 4)%nat.
  { injection H as <-. split; [constructor|exact I]. }
  destruct (unpack_I (firstn 4 f)) as [len|e] eqn:Elen; [|discriminate].
  destruct (decode_ascii _) as [ty|e]; [|discriminate].
  cbv zeta in H.
  set (body := skipn 4 (skipn 4 f)) in *.
  destruct (unpack_I (firstn 4 (skipn (Z.to_nat len) body))) as [crc|e] eqn:Ecrc;
    [|discriminate].
  assert (Hpay : payload_exact {| c_type := ty; c_length := len;
                                  c_data := firstn (Z.to_nat len) body;
                                  c_crc := crc |}).
  { unfold payload_exact; cbn [c_data c_length].
    apply unpack_uint_inv in Elen, Ecrc.
    destruct Elen as [_ Hlen]. destruct Ecrc as [E4 _].
    rewrite length_firstn, length_skipn in E4.
    rewrite length_firstn. lia. }
  destruct (String.eqb ty "IEND") eqn:Ety.
  { injection H as <-. split; [repeat constructor; assumption|].
    cbn. auto. }
  destruct (read_loop fuel _) as [[cs|e]|] eqn:E; try discriminate.
  injection H as <-. destruct (IH _ _ E) as [H1 H2].
  split; [constructor; assumption|].
  cbn [iend_only_last c_type]. split; [|assumption].
  intros ->. discriminate.
Qed.

(** One well-formed record in front of the unread part. *)
Lemma read_loop_chunk (fuel : nat) (c : chunk) (rest : bytes) :
  valid_chunk c ->
  read_loop (S fuel) (chunk_bytes c ++ rest) =
  if String.eqb (c_type c) "IEND" then Some (Ok [c])
  else match read_loop fuel rest with
       | Some (Ok cs) => Some (Ok (c :: cs))
       | other => other
       end.
Proof.
  intros (Hty & Hascii & Hlen & Hlt & Hcrc).
  rewrite read_loop_unfold. unfold chunk_bytes.
  rewrite <- !app_assoc.
  assert (Hn : Z.to_nat (c_length c) = length (c_data c)) by lia.
  rewrite (firstn_exact 4 (be_bytes 4 (c_length c))) by apply length_be_bytes.
  rewrite (skipn_exact 4 (be_bytes 4 (c_length c))) by apply length_be_bytes.
  rewrite length_be_bytes. change (4 <? 4)%nat with false. cbv iota.
  unfold unpack_I. rewrite unpack_be_bytes by (cbn; lia).
  rewrite (firstn_exact 4 (encode_ascii (c_type c))) by assumption.
  rewrite (skipn_exact 4 (encode_ascii (c_type c))) by assumption.
  rewrite decode_encode_ascii by assumption. cbv zeta.
  rewrite Hn.
  rewrite (firstn_exact _ (c_data c)), (skipn_exact _ (c_data c)) by reflexivity.
  rewrite (firstn_exact 4 (be_bytes 4 (c_crc c))) by apply length_be_bytes.
  rewrite (skipn_exact 4 (be_bytes 4 (c_crc c))) by apply length_be_bytes.
  rewrite unpack_be_bytes by (cbn; lia).
  replace {| c_type := c_type c; c_length := c_length c;
             c_data := c_data c; c_crc := c_crc c |} with c by now destruct c.
  reflexivity.
Qed.

Lemma read_loop_stream (cs : list chunk) :
  forall fuel rest r,
    Forall valid_chunk cs -> Forall not_iend cs ->
    read_loop fuel rest = Some (Ok r) ->
    read_loop (length cs + fuel) (chunk_stream cs ++ rest) = Some (Ok (cs ++ r)).
Proof.
  induction cs as [|c cs IH]; intros fuel rest r Hv Hn Hr.
  - exact Hr.
  - inversion Hv; subst. inversion Hn; subst.
    unfold chunk_stream. cbn [map concat length Nat.add].
    rewrite <- app_assoc, read_loop_chunk by assumption.
    destruct (String.eqb (c_type c) "IEND") eqn:E.
    { apply String.eqb_eq in E. contradiction. }
    fold (chunk_stream cs). rewrite (IH fuel rest r) by assumption.
    reflexivity.
Qed.

Lemma length_chunk_stream (cs : list chunk) :
  (length cs <= length (chunk_stream cs))%nat.
Proof.
  induction cs as [|c cs IH]; [reflexivity|].
  unfold chunk_stream in *. cbn [map concat length].
  unfold chunk_bytes at 1. rewrite !length_app, length_be_bytes. lia.
Qed.

Lemma read_png_chunks_signature (file : bytes) (r : result (list chunk)) :
  read_loop (S (length (png_signature ++ file))) file = Some r ->
  read_png_chunks (png_signature ++ file) = r.
Proof.
  intros H. unfold read_png_chunks, read_png_chunks_fuel.
  rewrite read_app by reflexivity.
  change (bytes_eqb png_signature png_signature) with true. cbv iota.
  now rewrite H.
Qed.

(** Reading a stream of well-formed records that stops short. *)
Lemma read_png_chunks_truncated (cs : list chunk) (tail : bytes) :
  Forall valid_chunk cs -> Forall not_iend cs -> (length tail < 4)%nat ->
  read_png_chunks (png_signature ++ chunk_stream cs ++ tail) = Ok cs.
Proof.
  intros Hv Hn Ht. apply read_png_chunks_signature.
  apply read_loop_mono with (fuel := (length cs + 1)%nat).
  - rewrite <- (app_nil_r cs) at 3. apply read_loop_stream; try assumption.
    rewrite read_loop_unfold.
    destruct (length (firstn 4 tail) <? 4)%nat eqn:E; [reflexivity|].
    apply Nat.ltb_ge in E. rewrite length_firstn in E. lia.
  - pose proof (length_chunk_stream cs). rewrite !length_app. cbn. lia.
Qed.

(** Reading a stream of well-formed records up to the end marker; what
    follows the marker is not read. *)
Lemma read_png_chunks_to_iend (cs : list chunk) (iend : chunk) (rest : bytes) :
  Forall valid_chunk cs -> Forall not_iend cs ->
  valid_chunk iend -> c_type iend = "IEND"%string ->
  read_png_chunks (png_signature ++ chunk_stream cs ++ chunk_bytes iend ++ rest)
  = Ok (cs ++ [iend]).
Proof.
  intros Hv Hn Hi Ht. apply read_png_chunks_signature.
  apply read_loop_mono with (fuel := (length cs + 1)%nat).
  - apply read_loop_stream; try assumption.
    rewrite read_loop_chunk by assumption. now rewrite Ht.
  - pose proof (length_chunk_stream cs). rewrite !length_app. cbn. lia.
Qed.

Lemma split_signature (stream : bytes) :
  firstn 8 stream = png_signature -> stream = png_signature ++ skipn 8 stream.
Proof. intros <-. symmetry. apply firstn_skipn. Qed.

(** C7.  Chunk stream reader contract.  For every byte sequence that
    begins with the PNG signature: the loop ends within its iteration
    budget; every record of a returned list has a payload of exactly
    [c_length] bytes, and only the last record can have the tag IEND; on a
    stream of well-formed records followed by fewer than four bytes, where
    the next length field is expected, the reader returns those records
    without error; and on a stream of well-formed records up to an IEND
    record it returns the records up to and including IEND, whatever
    follows. *)
Theorem read_png_chunks_contract (stream : bytes) :
  firstn 8 stream = png_signature ->
  (exists r, read_png_chunks_fuel (S (length stream)) stream = Some r) /\
  (forall chunks, read_png_chunks stream = Ok chunks ->
                  Forall payload_exact chunks /\ iend_only_last chunks) /\
  (forall cs tail,
      skipn 8 stream = chunk_stream cs ++ tail ->
      Forall valid_chunk cs -> Forall not_iend cs -> (length tail < 4)%nat ->
      read_png_chunks stream = Ok cs) /\
  (forall cs iend rest,
      skipn 8 stream = chunk_stream cs ++ chunk_bytes iend ++ rest ->
      Forall valid_chunk cs -> Forall not_iend cs ->
      valid_chunk iend -> c_type iend = "IEND"%string ->
      read_png_chunks stream = Ok (cs ++ [iend])).
Proof.
  intros Hsig. apply split_signature in Hsig.
  set (rest := skipn 8 stream) in *. clearbody rest. subst stream.
  destruct (read_loop_total (S (length (png_signature ++ rest))) rest) as [r Hr].
  { rewrite length_app. cbn. lia. }
  split; [|split; [|split]].
  - exists r. unfold read_png_chunks_fuel. rewrite read_app by reflexivity.
    exact Hr.
  - intros chunks H. rewrite (read_png_chunks_signature _ _ Hr) in H. subst r.
    now apply read_loop_records in Hr.
  - intros cs tail ->. exact (read_png_chunks_truncated cs tail).
  - intros cs iend tail ->. exact (read_png_chunks_to_iend cs iend tail).
Qed.

Lemma read_png_chunks_contract_witness :
  read_png_chunks Examples.truncated_stream = Ok [Examples.ihdr_4x4] /\
  Forall payload_exact [Examples.ihdr_4x4].
Proof.
  destruct (read_png_chunks_contract Examples.truncated_stream eq_refl)
    as (_ & Hrecords & Hshort & _).
  assert (Hread : read_png_chunks Examples.truncated_stream
                  = Ok [Examples.ihdr_4x4]).
  { apply (Hshort [Examples.ihdr_4x4] [x00; x00]).
    - reflexivity.
    - constructor; [|constructor].
      repeat split; vm_compute; solve [reflexivity | discriminate].
    - repeat constructor. unfold not_iend. vm_compute. discriminate.
    - cbn [length]. lia. }
  split; [exact Hread|]. exact (proj1 (Hrecords _ Hread)).
Defined.

End ReaderFacts.

(** ** The chunk stream writer *)

Module WriterFacts.

Import png_hdr_analyzer hdr_convert Container BytesFacts ReaderFacts.

Lemma valid_record (t : string) (data : bytes) :
  length (encode_ascii t) = 4%nat -> is_ascii t = true ->
  Z.of_nat (length data) < 2 ^ 32 ->
  valid_chunk (record t data).
Proof.
  intros Ht Ha Hl. unfold valid_chunk, record; cbn [c_type c_length c_data c_crc].
  repeat split; try assumption.
  - apply Z.land_nonneg. right. lia.
  - change 0xffffffff with (Z.ones 32). rewrite Z.land_ones by lia.
    apply Z.mod_pos_bound. lia.
Qed.

Lemma make_chunk_record (t : string) (data : bytes) :
  Z.of_nat (length data) < 2 ^ 32 ->
  make_chunk (encode_ascii t) data = Ok (chunk_bytes (record t data)).
Proof.
  intros Hl. unfold make_chunk, pack_I.
  rewrite pack_uint_ok by (change (2 ^ (8 * Z.of_nat 4)) with (2 ^ 32); lia).
  cbn [bind]. rewrite pack_uint_ok.
  - cbn [bind]. unfold chunk_bytes, record; cbn [c_type c_length c_data c_crc].
    now rewrite <- app_assoc.
  - change 0xffffffff with (Z.ones 32). rewrite Z.land_ones by lia.
    apply Z.mod_pos_bound. reflexivity.
Qed.

(** *** Splitting into IDAT payloads *)

Lemma concat_slices (s : nat) (cnt : nat) :
  forall l : bytes, (length l <= cnt * s)%nat ->
    concat (map (fun i => firstn s (skipn i l))
                (map (fun k => (k * s)%nat) (seq 0 cnt))) = l.
Proof.
  induction cnt as [|cnt IH]; intros l Hl.
  - destruct l; [reflexivity|simpl in Hl; lia].
  - cbn [seq map concat]. rewrite <- seq_shift, !map_map.
    cbn [Nat.mul skipn].
    transitivity (firstn s l ++ skipn s l); [|apply firstn_skipn]. f_equal.
    transitivity (concat (map (fun i => firstn s (skipn i (skipn s l)))
                              (map (fun k => (k * s)%nat) (seq 0 cnt)))).
    + rewrite map_map. f_equal. apply map_ext. intros k.
      now rewrite skipn_skipn, (Nat.add_comm (k * s) s).
    + apply IH. rewrite length_skipn. simpl in Hl. lia.
Qed.

Lemma chunk_size_pos : (0 < chunk_size)%nat.
Proof. unfold chunk_size. lia. Qed.

Lemma concat_pieces (data : bytes) : concat (pieces data) = data.
Proof.
  unfold pieces, range_step. apply concat_slices.
  pose proof chunk_size_pos as Hs.
  pose proof (Nat.div_mod_eq (length data + chunk_size - 1) chunk_size) as Hd.
  pose proof (Nat.mod_upper_bound (length data + chunk_size - 1) chunk_size) as Hm.
  nia.
Qed.

Lemma length_piece (data : bytes) (i : nat) :
  Z.of_nat (length (firstn chunk_size (skipn i data))) < 2 ^ 32.
Proof.
  rewrite length_firstn. unfold chunk_size.
  assert (Z.of_nat (Z.to_nat 8192) = 8192) by lia. lia.
Qed.

Lemma idat_chunks_ok (data : bytes) :
  idat_chunks data = Ok (chunk_stream (map (record "IDAT") (pieces data))).
Proof.
  unfold idat_chunks, pieces, chunk_stream.
  rewrite (mapM_ok _ (fun i => chunk_bytes (record "IDAT"
                                 (firstn chunk_size (skipn i data))))).
  - cbn [bind]. now rewrite !map_map.
  - intros i _. apply make_chunk_record, length_piece.
Qed.

Lemma idat_records_valid (data : bytes) :
  Forall valid_chunk (map (record "IDAT") (pieces data)) /\
  Forall not_iend (map (record "IDAT") (pieces data)).
Proof.
  unfold pieces. rewrite map_map. split; apply Forall_forall; intros c Hc;
    apply in_map_iff in Hc; destruct Hc as (i & <- & _).
  - apply valid_record; [reflexivity|reflexivity|apply length_piece].
  - unfold not_iend. cbn. discriminate.
Qed.

(** *** Scanlines *)

Lemma pack_HHH_ok (p : pixel) :
  in_range (2 ^ 16) p -> pack_HHH p = Ok (pixel_bytes p).
Proof.
  destruct p as [[r g] b]. cbn [in_range]. intros (Hr & Hg & Hb).
  unfold pack_HHH, pack_H, pixel_bytes.
  rewrite !pack_uint_ok by assumption. reflexivity.
Qed.

Lemma scanline_ok (a : ndarray) (y : nat) :
  well_formed 16 a -> (y < nd_height a)%nat ->
  scanline a y = Ok (scanline_bytes (nth y (nd_rows a) [])).
Proof.
  intros (Hh & Hw & Hr) Hy. unfold scanline, scanline_bytes.
  assert (Hin : In (nth y (nd_rows a) []) (nd_rows a)) by (apply nth_In; lia).
  pose proof (proj1 (Forall_forall _ _) Hw _ Hin) as Hlen. cbv beta in Hlen.
  pose proof (proj1 (Forall_forall _ _) Hr _ Hin) as Hrange. cbv beta in Hrange.
  rewrite (mapM_ok _ (fun x => pixel_bytes (at_ a y x))).
  - cbn [bind]. do 3 f_equal. unfold at_.
    rewrite <- Hlen, <- (map_map (fun x => nth x _ _) pixel_bytes).
    now rewrite map_nth_seq.
  - intros x Hx. apply in_seq in Hx. apply pack_HHH_ok. unfold at_.
    apply (proj1 (Forall_forall _ _) Hrange). apply nth_In. lia.
Qed.

Lemma scanlines_ok (a : ndarray) :
  well_formed 16 a ->
  mapM (scanline a) (seq 0 (nd_height a)) = Ok (map scanline_bytes (nd_rows a)).
Proof.
  intros Hwf.
  rewrite (mapM_ok _ (fun y => scanline_bytes (nth y (nd_rows a) []))).
  - destruct Hwf as (Hh & _). rewrite <- Hh.
    rewrite <- (map_map (fun y => nth y _ _) scanline_bytes).
    now rewrite map_nth_seq.
  - intros y Hy. apply in_seq in Hy. apply scanline_ok; [assumption|lia].
Qed.

Lemma length_pixel_bytes (p : pixel) : length (pixel_bytes p) = 6%nat.
Proof. destruct p as [[r g] b]. reflexivity. Qed.

Lemma length_concat_pixels (row : list pixel) :
  length (concat (map pixel_bytes row)) = (6 * length row)%nat.
Proof.
  induction row as [|p row IH]; [reflexivity|].
  cbn [map concat length]. rewrite length_app, length_pixel_bytes, IH. lia.
Qed.

Lemma be_value_be_bytes_2 (v : Z) (rest : bytes) :
  0 <= v < 2 ^ 16 -> be_value (firstn 2 (be_bytes 2 v ++ rest)) = v.
Proof.
  intros H. rewrite firstn_exact by apply length_be_bytes.
  rewrite be_value_be_bytes. apply Z.mod_small. assumption.
Qed.

Lemma samples_pixels (row : list pixel) :
  Forall (in_range (2 ^ 16)) row ->
  samples (length row) (concat (map pixel_bytes row)) = row.
Proof.
  induction 1 as [|p row Hp Hrow IH]; [reflexivity|].
  cbn [length map concat samples]. destruct p as [[r g] b].
  destruct Hp as (Hr & Hg & Hb).
  change (pixel_bytes (r, g, b)) with (be_bytes 2 r ++ be_bytes 2 g ++ be_bytes 2 b).
  rewrite <- !app_assoc.
  rewrite be_value_be_bytes_2 by assumption.
  rewrite (skipn_exact 2 (be_bytes 2 r)) by apply length_be_bytes.
  rewrite be_value_be_bytes_2 by assumption.
  replace (be_bytes 2 r ++ be_bytes 2 g ++ be_bytes 2 b ++ concat (map pixel_bytes row))
    with ((be_bytes 2 r ++ be_bytes 2 g) ++ be_bytes 2 b ++ concat (map pixel_bytes row))
    by now rewrite <- app_assoc.
  rewrite (skipn_exact 4) by (rewrite length_app, !length_be_bytes; reflexivity).
  rewrite be_value_be_bytes_2 by assumption.
  replace ((be_bytes 2 r ++ be_bytes 2 g) ++ be_bytes 2 b ++ concat (map pixel_bytes row))
    with ((be_bytes 2 r ++ be_bytes 2 g ++ be_bytes 2 b) ++ concat (map pixel_bytes row))
    by now rewrite <- !app_assoc.
  rewrite (skipn_exact 6) by (rewrite !length_app, !length_be_bytes; reflexivity).
  now rewrite IH.
Qed.

Lemma unfilter_scanlines (w : nat) (rows : list (list pixel)) :
  Forall (fun row => length row = w) rows ->
  Forall (Forall (in_range (2 ^ 16))) rows ->
  unfilter (length rows) w (concat (map scanline_bytes rows)) = rows.
Proof.
  induction rows as [|row rows IH]; intros Hw Hr; [reflexivity|].
  inversion Hw as [|? ? Hlen Hw']; subst. inversion Hr as [|? ? Hrow Hr']; subst.
  cbn [length map concat unfilter].
  change (scanline_bytes row) with (x00 :: concat (map pixel_bytes row)).
  assert (H6 : length (concat (map pixel_bytes row)) = (6 * length row)%nat)
    by apply length_concat_pixels.
  change (skipn 1 ((x00 :: ?l) ++ ?r)) with (l ++ r).
  change (skipn (1 + ?n) ((x00 :: ?l) ++ ?r)) with (skipn n (l ++ r)).
  rewrite firstn_exact, skipn_exact by assumption.
  rewrite samples_pixels by assumption. f_equal. now apply IH.
Qed.

(** *** Reading back what was written *)

Lemma payloads_app (t : string) (a b : list chunk) :
  payloads t (a ++ b) = payloads t a ++ payloads t b.
Proof. unfold payloads. now rewrite filter_app, map_app. Qed.

Lemma payloads_same (t : string) (l : list bytes) :
  payloads t (map (record t) l) = l.
Proof.
  unfold payloads. induction l as [|d l IH]; [reflexivity|].
  cbn [map filter]. unfold has_type at 1. cbn [c_type record].
  rewrite String.eqb_refl. cbn [map c_data record]. now rewrite IH.
Qed.

Lemma payloads_other (t u : string) (l : list bytes) :
  String.eqb u t = false -> payloads t (map (record u) l) = [].
Proof.
  intros Hne. unfold payloads. induction l as [|d l IH]; [reflexivity|].
  cbn [map filter]. unfold has_type at 1. cbn [c_type record].
  now rewrite Hne.
Qed.

Lemma parse_ihdr_written (w h : Z) :
  0 <= w < 2 ^ 32 -> 0 <= h < 2 ^ 32 ->
  parse_ihdr (be_bytes 4 w ++ be_bytes 4 h ++ [x10; x02; x00; x00; x00]) =
  Ok {| width := w; height := h; bit_depth := 16; color_type := 2;
        color_type_name := "RGB (Truecolor)";
        compression := 0; filter_method := 0; interlace := 0 |}.
Proof.
  intros Hw Hh. unfold parse_ihdr.
  rewrite app_assoc.
  rewrite (firstn_exact 8 (be_bytes 4 w ++ be_bytes 4 h))
    by (rewrite length_app, !length_be_bytes; reflexivity).
  unfold unpack. rewrite length_app, !length_be_bytes.
  cbn [list_sum Nat.add Nat.eqb bind split_fields].
  rewrite firstn_exact, skipn_exact by apply length_be_bytes.
  rewrite firstn_all2 by (rewrite length_be_bytes; lia).
  rewrite !be_value_be_bytes, !Z.mod_small by assumption.
  unfold index.
  assert (Hn : forall i, nth_error ((be_bytes 4 w ++ be_bytes 4 h)
                                      ++ [x10; x02; x00; x00; x00]) (8 + i)
                         = nth_error [x10; x02; x00; x00; x00] i).
  { intros i. rewrite nth_error_app2;
      rewrite length_app, !length_be_bytes; [|lia].
    f_equal. lia. }
  pose proof (Hn 0%nat) as H0. pose proof (Hn 1%nat) as H1.
  pose proof (Hn 2%nat) as H2. pose proof (Hn 3%nat) as H3.
  pose proof (Hn 4%nat) as H4. cbn [Nat.add] in H0, H1, H2, H3, H4.
  rewrite H0, H1, H2, H3, H4. reflexivity.
Qed.

(** The optional iCCP chunk of the writer. *)
Lemma iccp_chunk_ok (zlib : Zlib.codec) (icc_profile : option bytes) :
  (forall p, icc_profile = Some p ->
             8 + Z.of_nat (length (Zlib.compress zlib p 9)) < 2 ^ 32) ->
  exists iccp : list chunk,
    match icc_profile with
    | Some (b :: p) =>
        make_chunk (encode_ascii "iCCP")
          ((encode_ascii "PQ HDR" ++ [x00]) ++ [x00]
             ++ Zlib.compress zlib (b :: p) 9)
    | _ => Ok []
    end = Ok (chunk_stream iccp) /\
    Forall valid_chunk iccp /\ Forall not_iend iccp /\
    payloads "IHDR" iccp = [] /\ payloads "IDAT" iccp = [].
Proof.
  intros Hfit.
  destruct icc_profile as [[|b p]|];
    try (exists []; repeat split; solve [reflexivity | constructor]).
  specialize (Hfit (b :: p) eq_refl).
  exists [record "iCCP" ((encode_ascii "PQ HDR" ++ [x00]) ++ [x00]
                           ++ Zlib.compress zlib (b :: p) 9)].
  assert (Hlen : Z.of_nat (length ((encode_ascii "PQ HDR" ++ [x00]) ++ [x00]
                                     ++ Zlib.compress zlib (b :: p) 9)) < 2 ^ 32).
  { rewrite !length_app.
    change (length (encode_ascii "PQ HDR")) with 6%nat. cbn [length]. lia. }
  repeat split.
  - rewrite make_chunk_record by assumption.
    unfold chunk_stream. cbn [map concat]. now rewrite app_nil_r.
  - repeat constructor; try assumption.
    + apply Z.land_nonneg. right. lia.
    + cbn [c_crc record]. change 0xffffffff with (Z.ones 32).
      rewrite Z.land_ones by lia. apply Z.mod_pos_bound. lia.
  - repeat constructor. unfold not_iend. cbn. discriminate.
Qed.

(** What [save_16bit_png_with_icc] writes. *)
Lemma save_written (zlib : Zlib.codec) (buffer : ndarray)
    (icc_profile : option bytes) :
  well_formed 16 buffer ->
  Z.of_nat (nd_width buffer) < 2 ^ 32 ->
  Z.of_nat (nd_height buffer) < 2 ^ 32 ->
  (forall p, icc_profile = Some p ->
             8 + Z.of_nat (length (Zlib.compress zlib p 9)) < 2 ^ 32) ->
  exists iccp : list chunk,
    Forall valid_chunk iccp /\ Forall not_iend iccp /\
    payloads "IHDR" iccp = [] /\ payloads "IDAT" iccp = [] /\
    save_16bit_png_with_icc zlib buffer icc_profile =
    Ok (png_signature
          ++ chunk_stream
               (record "IHDR" (be_bytes 4 (Z.of_nat (nd_width buffer))
                                 ++ be_bytes 4 (Z.of_nat (nd_height buffer))
                                 ++ [x10; x02; x00; x00; x00])
                  :: iccp
                  ++ map (record "IDAT")
                       (pieces (Zlib.compress zlib
                                  (concat (map scanline_bytes (nd_rows buffer))) 9)))
          ++ chunk_bytes (record "IEND" []) ++ []).
Proof.
  intros Hwf Hw Hh Hfit.
  destruct (iccp_chunk_ok zlib icc_profile Hfit)
    as (iccp & Hiccp & Hiv & Hin & Hi1 & Hi2).
  exists iccp. repeat (split; [assumption|]).
  unfold save_16bit_png_with_icc, pack_I.
  rewrite !pack_uint_ok by (change (2 ^ (8 * Z.of_nat 4)) with (2 ^ 32); lia).
  cbn [bind]. rewrite Hiccp. cbn [bind].
  rewrite scanlines_ok by assumption. cbn [bind].
  rewrite idat_chunks_ok. cbn [bind].
  rewrite !make_chunk_record by (cbn; lia). cbn [bind].
  do 2 f_equal. unfold chunk_stream. cbn [map concat].
  rewrite map_app, concat_app, app_nil_r, <- !app_assoc. reflexivity.
Qed.

(** C1.  Container round trip.  For a valid image header (positive 32-bit
    dimensions, bit depth 16, colour type RGB) and a 16-bit pixel buffer
    of the same dimensions, the writer succeeds, the reader reads the
    written stream back without error, the only image header among the
    chunks decodes to the given header, and inflating the concatenated
    IDAT payloads and dropping the filter byte of every scanline gives
    back the rows of the buffer.  The zlib codec is any lossless one; an
    optional profile has to fit the 32-bit length field of its chunk. *)
Theorem container_round_trip (zlib : Zlib.codec) (h : ihdr_info)
    (buffer : ndarray) (icc_profile : option bytes) :
  Zlib.lossless zlib ->
  valid_header h ->
  well_formed 16 buffer ->
  dimensions_match h buffer ->
  (forall p, icc_profile = Some p ->
             8 + Z.of_nat (length (Zlib.compress zlib p 9)) < 2 ^ 32) ->
  exists (file : bytes) (chunks : list chunk),
    save_16bit_png_with_icc zlib buffer icc_profile = Ok file /\
    read_png_chunks file = Ok chunks /\
    image_headers chunks = [Ok h] /\
    decode_pixels zlib h chunks = Ok (nd_rows buffer).
Proof.
  intros Hz (Hw & Hh & Hbd & Hct & Hname & Hc & Hf & Hi) Hwf (Hdw & Hdh) Hfit.
  destruct (save_written zlib buffer icc_profile Hwf) as
    (iccp & Hiv & Hin & Hi1 & Hi2 & Hsave); [lia|lia|assumption|].
  set (raw := concat (map scanline_bytes (nd_rows buffer))) in *.
  set (idat := map (record "IDAT") (pieces (Zlib.compress zlib raw 9))) in *.
  set (ihdr_data := be_bytes 4 (Z.of_nat (nd_width buffer))
                      ++ be_bytes 4 (Z.of_nat (nd_height buffer))
                      ++ [x10; x02; x00; x00; x00]) in *.
  destruct (idat_records_valid (Zlib.compress zlib raw 9)) as [Hdv Hdn].
  fold idat in Hdv, Hdn.
  eexists. exists ((record "IHDR" ihdr_data :: iccp ++ idat) ++ [record "IEND" []]).
  split; [exact Hsave|split; [|split]].
  - apply read_png_chunks_to_iend.
    + constructor; [apply valid_record; try reflexivity; cbn; lia|].
      apply Forall_app. split; assumption.
    + constructor; [unfold not_iend; cbn; discriminate|].
      apply Forall_app. split; assumption.
    + apply valid_record; reflexivity.
    + reflexivity.
  - unfold image_headers.
    change (record "IHDR" ihdr_data :: iccp ++ idat)
      with ([record "IHDR" ihdr_data] ++ iccp ++ idat).
    rewrite !payloads_app, Hi1. unfold idat.
    rewrite payloads_other by reflexivity.
    change (payloads "IHDR" [record "IHDR" ihdr_data]) with [ihdr_data].
    change (payloads "IHDR" [record "IEND" []]) with (@nil bytes).
    cbn [app map]. unfold ihdr_data. rewrite parse_ihdr_written by lia.
    do 2 f_equal. clear Hsave. destruct h.
    cbn [width height bit_depth color_type color_type_name compression
           filter_method interlace] in *.
    congruence.
  - unfold decode_pixels.
    change (record "IHDR" ihdr_data :: iccp ++ idat)
      with ([record "IHDR" ihdr_data] ++ iccp ++ idat).
    rewrite !payloads_app, Hi2. unfold idat. rewrite payloads_same.
    change (payloads "IDAT" [record "IHDR" ihdr_data]) with (@nil bytes).
    change (payloads "IDAT" [record "IEND" []]) with (@nil bytes).
    cbn [app]. rewrite app_nil_r, concat_pieces, Hz. cbn [bind]. f_equal.
    rewrite Hdw, Hdh, !Nat2Z.id. destruct Hwf as (Hrows & Hcols & Hrange).
    rewrite <- Hrows. now apply unfilter_scanlines.
Qed.

Lemma container_round_trip_witness :
  exists (file : bytes) (chunks : list chunk),
    save_16bit_png_with_icc Zlib.stored Examples.image_2x1
      (Some Examples.profile_2) = Ok file /\
    read_png_chunks file = Ok chunks /\
    image_headers chunks = [Ok Examples.header_2x1] /\
    decode_pixels Zlib.stored Examples.header_2x1 chunks
    = Ok (nd_rows Examples.image_2x1).
Proof.
  apply (container_round_trip Zlib.stored Examples.header_2x1
           Examples.image_2x1 (Some Examples.profile_2)).
  - intros data level. reflexivity.
  - unfold valid_header. cbn. repeat split; lia.
  - unfold well_formed. cbn. repeat constructor; lia.
  - split; reflexivity.
  - intros p Hp. injection Hp as <-. cbn. lia.
Defined.

End WriterFacts.

(** ** The colour profile extractor *)

Module ExtractFacts.

Import png_hdr_analyzer hdr_convert Container BytesFacts.

Section WithZlib.

Variable zlib : Zlib.codec.

Lemma extract_loop_unfold (fuel : nat) (f : bytes) :
  extract_loop zlib (S fuel) f =
  if (length (firstn 4 f) <? 4)%nat then Some (Ok None)
  else
    match unpack_I (firstn 4 f) with
    | Raise e => Some (Raise e)
    | Ok len =>
        match decode_ascii (firstn 4 (skipn 4 f)) with
        | Raise e => Some (Raise e)
        | Ok chunk_type =>
            let body := skipn 4 (skipn 4 f) in
            let data := firstn (Z.to_nat len) body in
            let after := skipn (Z.to_nat len) body in
            if String.eqb chunk_type "iCCP" then
              Some (null_pos <- index_nul data ;;
                    icc_data <- Zlib.decompress zlib (skipn (null_pos + 2) data) ;;
                    Ok (Some (decode_latin1 (firstn null_pos data), icc_data)))
            else if String.eqb chunk_type "IEND" then Some (Ok None)
            else extract_loop zlib fuel (skipn 4 after)
        end
    end.
Proof. reflexivity. Qed.

Lemma extract_loop_total (fuel : nat) :
  forall f, (length f < fuel)%nat -> exists r, extract_loop zlib fuel f = Some r.
Proof.
  induction fuel as [|fuel IH]; intros f Hf; [lia|].
  rewrite extract_loop_unfold.
  destruct (length (firstn 4 f) <? 4)%nat eqn:E4; [eauto|].
  apply Nat.ltb_ge in E4. rewrite length_firstn in E4.
  destruct (unpack_I (firstn 4 f)) as [len|e]; [|eauto].
  destruct (decode_ascii _) as [ty|e]; [|eauto].
  cbv zeta.
  destruct (String.eqb ty "iCCP"); [eauto|].
  destruct (String.eqb ty "IEND"); [eauto|].
  apply IH. rewrite !length_skipn. lia.
Qed.

Lemma extract_loop_mono (fuel : nat) :
  forall fuel' f r, extract_loop zlib fuel f = Some r -> (fuel <= fuel')%nat ->
                    extract_loop zlib fuel' f = Some r.
Proof.
  induction fuel as [|fuel IH]; intros fuel' f r H Hle; [discriminate|].
  destruct fuel' as [|fuel']; [lia|].
  rewrite extract_loop_unfold in *.
  destruct (length (firstn 4 f) <? 4)%nat; [assumption|].
  destruct (unpack_I (firstn 4 f)) as [len|e]; [|assumption].
  destruct (decode_ascii _) as [ty|e]; [|assumption].
  cbv zeta in *.
  destruct (String.eqb ty "iCCP"); [assumption|].
  destruct (String.eqb ty "IEND"); [assumption|].
  apply IH; [assumption|lia].
Qed.

Lemma extract_loop_chunk (fuel : nat) (c : chunk) (rest : bytes) :
  valid_chunk c ->
  extract_loop zlib (S fuel) (chunk_bytes c ++ rest) =
  if String.eqb (c_type c) "iCCP" then
    Some (null_pos <- index_nul (c_data c) ;;
          icc_data <- Zlib.decompress zlib (skipn (null_pos + 2) (c_data c)) ;;
          Ok (Some (decode_latin1 (firstn null_pos (c_data c)), icc_data)))
  else if String.eqb (c_type c) "IEND" then Some (Ok None)
  else extract_loop zlib fuel rest.
Proof.
  intros (Hty & Hascii & Hlen & Hlt & Hcrc).
  rewrite extract_loop_unfold. unfold chunk_bytes.
  rewrite <- !app_assoc.
  assert (Hn : Z.to_nat (c_length c) = length (c_data c)) by lia.
  rewrite (firstn_exact 4 (be_bytes 4 (c_length c))) by apply length_be_bytes.
  rewrite (skipn_exact 4 (be_bytes 4 (c_length c))) by apply length_be_bytes.
  rewrite length_be_bytes. change (4 <? 4)%nat with false. cbv iota.
  unfold unpack_I. rewrite unpack_be_bytes by (cbn; lia).
  rewrite (firstn_exact 4 (encode_ascii (c_type c))) by assumption.
  rewrite (skipn_exact 4 (encode_ascii (c_type c))) by assumption.
  rewrite decode_encode_ascii by assumption. cbv zeta.
  rewrite Hn.
  rewrite (firstn_exact _ (c_data c)), (skipn_exact _ (c_data c)) by reflexivity.
  rewrite (skipn_exact 4 (be_bytes 4 (c_crc c))) by apply length_be_bytes.
  reflexivity.
Qed.

(** Records that are neither a profile nor the end marker are skipped. *)
Lemma extract_loop_stream (cs : list chunk) :
  forall fuel rest r,
    Forall valid_chunk cs -> Forall not_iccp cs -> Forall not_iend cs ->
    extract_loop zlib fuel rest = Some r ->
    extract_loop zlib (length cs + fuel) (chunk_stream cs ++ rest) = Some r.
Proof.
  induction cs as [|c cs IH]; intros fuel rest r Hv Hp Hn Hr.
  - exact Hr.
  - inversion Hv; subst. inversion Hp; subst. inversion Hn; subst.
    unfold chunk_stream. cbn [map concat length Nat.add].
    rewrite <- app_assoc, extract_loop_chunk by assumption.
    destruct (String.eqb (c_type c) "iCCP") eqn:E1.
    { apply String.eqb_eq in E1. contradiction. }
    destruct (String.eqb (c_type c) "IEND") eqn:E2.
    { apply String.eqb_eq in E2. contradiction. }
    fold (chunk_stream cs). now apply IH.
Qed.

Lemma extract_signature (file : bytes) (r : result (option (string * bytes))) :
  extract_loop zlib (S (length (png_signature ++ file))) file = Some r ->
  extract_icc_profile zlib (png_signature ++ file) = r.
Proof.
  intros H. unfold extract_icc_profile, extract_icc_profile_fuel.
  rewrite read_app by reflexivity.
  change (bytes_eqb png_signature png_signature) with true. cbv iota.
  now rewrite H.
Qed.

Lemma index_nul_name (name rest : bytes) :
  ~ In x00 name -> index_nul (name ++ x00 :: rest) = Ok (length name).
Proof.
  induction name as [|b name IH]; intros Hn.
  - reflexivity.
  - cbn [app index_nul length].
    destruct (Byte.eqb b x00) eqn:E.
    + apply Byte.byte_dec_bl in E. subst b. exfalso. apply Hn. now left.
    + rewrite IH; [reflexivity|]. intros Hin. apply Hn. now right.
Qed.

(** C8.  Best-effort profile extraction.  On every file the scan ends
    within its budget.  A file that does not begin with the PNG signature
    gives the result None, without an error; so does a stream of
    well-formed records that reaches the end marker IEND with no iCCP
    record before it.  When the first record that is an iCCP or an IEND
    is an iCCP whose payload is a name without NUL, a NUL, a
    compression-method byte and a stream that zlib inflates, the result
    is the name and the inflated profile bytes. *)
Theorem extract_icc_profile_best_effort (file : bytes) :
  (exists r, extract_icc_profile_fuel zlib (S (length file)) file = Some r) /\
  (firstn 8 file <> png_signature -> extract_icc_profile zlib file = Ok None) /\
  (forall cs iend rest,
      file = png_signature ++ chunk_stream cs ++ chunk_bytes iend ++ rest ->
      Forall valid_chunk cs -> Forall not_iccp cs -> Forall not_iend cs ->
      valid_chunk iend -> c_type iend = "IEND"%string ->
      extract_icc_profile zlib file = Ok None) /\
  (forall cs iccp rest name method compressed profile,
      file = png_signature ++ chunk_stream cs ++ chunk_bytes iccp ++ rest ->
      Forall valid_chunk cs -> Forall not_iccp cs -> Forall not_iend cs ->
      valid_chunk iccp -> c_type iccp = "iCCP"%string ->
      c_data iccp = name ++ [x00] ++ [method] ++ compressed ->
      ~ In x00 name ->
      Zlib.decompress zlib compressed = Ok profile ->
      extract_icc_profile zlib file = Ok (Some (decode_latin1 name, profile))).
Proof.
  split; [|split; [|split]].
  - unfold extract_icc_profile_fuel, read.
    destruct (bytes_eqb _ _); [|eauto].
    apply extract_loop_total. rewrite length_skipn. lia.
  - intros Hsig. unfold extract_icc_profile, extract_icc_profile_fuel, read.
    unfold bytes_eqb. destruct (list_eq_dec _ _ _); [contradiction|reflexivity].
  - intros cs iend rest -> Hv Hp Hn Hi Ht. apply extract_signature.
    apply extract_loop_mono with (fuel := (length cs + 1)%nat).
    + apply extract_loop_stream; try assumption.
      rewrite extract_loop_chunk by assumption. now rewrite Ht.
    + pose proof (ReaderFacts.length_chunk_stream cs).
      rewrite !length_app. cbn. lia.
  - intros cs iccp rest name method compressed profile
           -> Hv Hp Hn Hi Ht Hd Hname Hz.
    apply extract_signature.
    apply extract_loop_mono with (fuel := (length cs + 1)%nat).
    + apply extract_loop_stream; try assumption.
      rewrite extract_loop_chunk by assumption. rewrite Ht.
      change (String.eqb "iCCP" "iCCP") with true. cbv iota.
      rewrite Hd. cbn [app]. rewrite index_nul_name by assumption.
      cbn [bind].
      replace (name ++ x00 :: method :: compressed)
        with ((name ++ [x00; method]) ++ compressed)
        by (now rewrite <- app_assoc).
      rewrite skipn_exact by (rewrite length_app; reflexivity).
      rewrite Hz. cbn [bind]. rewrite <- app_assoc.
      now rewrite firstn_exact.
    + pose proof (ReaderFacts.length_chunk_stream cs).
      rewrite !length_app. cbn. lia.
Qed.

End WithZlib.

Lemma extract_icc_profile_best_effort_witness :
  extract_icc_profile Zlib.stored Examples.not_png = Ok None /\
  extract_icc_profile Zlib.stored Examples.plain_stream = Ok None /\
  extract_icc_profile Zlib.stored Examples.profile_stream
  = Ok (Some ("sRGB"%string, Examples.profile_2)).
Proof.
  split; [|split].
  - apply (extract_icc_profile_best_effort Zlib.stored Examples.not_png).
    vm_compute. discriminate.
  - apply (proj1 (proj2 (proj2
             (extract_icc_profile_best_effort Zlib.stored Examples.plain_stream)))
             [Examples.ihdr_4x4] Examples.iend []).
    + reflexivity.
    + constructor; [|constructor].
      repeat split; vm_compute; solve [reflexivity | discriminate].
    + repeat constructor. unfold not_iccp. vm_compute. discriminate.
    + repeat constructor. unfold not_iend. vm_compute. discriminate.
    + repeat split; vm_compute; solve [reflexivity | discriminate].
    + reflexivity.
  - apply (proj2 (proj2 (proj2
             (extract_icc_profile_best_effort Zlib.stored Examples.profile_stream)))
             [Examples.ihdr_4x4] Examples.iccp_srgb
             (chunk_bytes Examples.iend)
             [x73; x52; x47; x42] x00
             (Zlib.compress Zlib.stored Examples.profile_2 9)
             Examples.profile_2).
    + reflexivity.
    + constructor; [|constructor].
      repeat split; vm_compute; solve [reflexivity | discriminate].
    + repeat constructor. unfold not_iccp. vm_compute. discriminate.
    + repeat constructor. unfold not_iend. vm_compute. discriminate.
    + repeat split; vm_compute; solve [reflexivity | discriminate].
    + reflexivity.
    + reflexivity.
    + vm_compute. intuition discriminate.
    + reflexivity.
Defined.

End ExtractFacts.

(** ** The analyzer's summary *)

Module AnalyzerFacts.

Import png_hdr_analyzer hdr_convert Container BytesFacts.

Section WithZlib.

Variable zlib : Zlib.codec.

Lemma bind_ok {A B : Type} (r : result A) (k : A -> result B) (b : B) :
  bind r k = Ok b -> exists a, r = Ok a /\ k a = Ok b.
Proof. destruct r as [a|e]; [eauto|discriminate]. Qed.

Lemma analyze_loop_app (pre post : list chunk) :
  forall info final,
    analyze_loop zlib info (pre ++ post) = Ok final ->
    exists mid, analyze_loop zlib info pre = Ok mid /\
                analyze_loop zlib mid post = Ok final.
Proof.
  induction pre as [|c pre IH]; intros info final H.
  - exists info. split; [reflexivity|exact H].
  - cbn [app analyze_loop] in *. apply bind_ok in H.
    destruct H as (info' & Hc & H). rewrite Hc. cbn [bind]. now apply IH.
Qed.

(** Taking apart one step of the scan. *)
Ltac step H :=
  unfold analyze_chunk in H;
  repeat match type of H with
         | context [String.eqb ?a ?b] => destruct (String.eqb a b) eqn:?
         | bind ?r _ = Ok _ =>
             let v := fresh "v" in
             let Hv := fresh "Hv" in
             apply bind_ok in H; destruct H as (v & Hv & H)
         end;
  injection H as H; subst.

Ltac tag :=
  repeat match goal with
         | E : String.eqb _ _ = true |- _ => apply String.eqb_eq in E
         | E : String.eqb _ _ = false |- _ => apply String.eqb_neq in E
         end.

Lemma analyze_chunk_keeps_hdr (info info' : hdr_info) (c : chunk) :
  analyze_chunk zlib info c = Ok info' ->
  has_hdr info = true -> has_hdr info' = true.
Proof.
  intros H Hh. step H; try assumption; try reflexivity.
  - destruct (bit_depth v =? 16); [reflexivity|assumption].
  - destruct (transfer_characteristics v =? 16); [reflexivity|].
    destruct (transfer_characteristics v =? 18); reflexivity.
Qed.

Lemma analyze_loop_keeps_hdr (chunks : list chunk) :
  forall info final,
    analyze_loop zlib info chunks = Ok final ->
    has_hdr info = true -> has_hdr final = true.
Proof.
  induction chunks as [|c chunks IH]; intros info final H Hh.
  - injection H as <-. assumption.
  - cbn [analyze_loop] in H. apply bind_ok in H. destruct H as (info' & Hc & H).
    apply (IH _ _ H). now apply (analyze_chunk_keeps_hdr _ _ _ Hc).
Qed.

Lemma analyze_chunk_depth_16 (info info' : hdr_info) (c : chunk) :
  analyze_chunk zlib info c = Ok info' -> ihdr_of_depth 16 c ->
  has_hdr info' = true.
Proof.
  intros H (Ht & h & Hp & Hd). unfold analyze_chunk in H.
  rewrite Ht in H. change (String.eqb "IHDR" "IHDR") with true in H.
  cbv iota in H. rewrite Hp in H. cbn [bind] in H. rewrite Hd in H.
  injection H as <-. reflexivity.
Qed.

Lemma analyze_chunk_sdr (info info' : hdr_info) (c : chunk) :
  analyze_chunk zlib info c = Ok info' ->
  ~ hdr_chunk c -> ~ ihdr_of_depth 16 c ->
  has_hdr info' = has_hdr info.
Proof.
  intros H Hn Hi. unfold hdr_chunk in Hn. step H; tag; try reflexivity;
    try (exfalso; apply Hn; auto; fail).
  destruct (bit_depth v =? 16) eqn:E; [|reflexivity].
  exfalso. apply Hi. split; [assumption|]. exists v.
  split; [assumption|]. now apply Z.eqb_eq.
Qed.

Lemma analyze_loop_sdr (chunks : list chunk) :
  forall info final,
    analyze_loop zlib info chunks = Ok final ->
    Forall (fun c => ~ hdr_chunk c) chunks ->
    Forall (fun c => ~ ihdr_of_depth 16 c) chunks ->
    has_hdr final = has_hdr info.
Proof.
  induction chunks as [|c chunks IH]; intros info final H Hn Hi.
  - now injection H as <-.
  - cbn [analyze_loop] in H. apply bind_ok in H. destruct H as (info' & Hc & H).
    inversion Hn; subst. inversion Hi; subst.
    rewrite (IH _ _ H) by assumption. now apply (analyze_chunk_sdr _ _ _ Hc).
Qed.

(** A chunk that is no cICP chunk leaves the classification and the
    recorded code points alone. *)
Lemma analyze_chunk_not_cicp (info info' : hdr_info) (c : chunk) :
  analyze_chunk zlib info c = Ok info' -> not_cicp c ->
  hdr_type info' = hdr_type info /\ cicp info' = cicp info.
Proof.
  intros H Hn. unfold not_cicp in Hn. step H; tag;
    try (split; reflexivity); try contradiction.
  destruct (bit_depth v =? 16); split; reflexivity.
Qed.

Lemma analyze_loop_not_cicp (chunks : list chunk) :
  forall info final,
    analyze_loop zlib info chunks = Ok final -> Forall not_cicp chunks ->
    hdr_type final = hdr_type info /\ cicp final = cicp info.
Proof.
  induction chunks as [|c chunks IH]; intros info final H Hn.
  - injection H as <-. split; reflexivity.
  - cbn [analyze_loop] in H. apply bind_ok in H. destruct H as (info' & Hc & H).
    inversion Hn; subst.
    destruct (IH _ _ H) as [E1 E2]; [assumption|].
    destruct (analyze_chunk_not_cicp _ _ _ Hc) as [E3 E4]; [assumption|].
    split; congruence.
Qed.

Lemma parse_cicp_fields (cp tc mc fr : byte) (rest : bytes) :
  exists r, parse_cicp (cp :: tc :: mc :: fr :: rest) = Ok r /\
            color_primaries r = byte_to_Z cp /\
            transfer_characteristics r = byte_to_Z tc /\
            matrix_coefficients r = byte_to_Z mc /\
            video_full_range r = byte_to_Z fr.
Proof. eexists. split; [reflexivity|]. repeat split. Qed.

Lemma analyze_chunk_cicp (info : hdr_info) (c : chunk) (r : cicp_info) :
  c_type c = "cICP"%string -> parse_cicp (c_data c) = Ok r ->
  exists info',
    analyze_chunk zlib info c = Ok info' /\
    has_hdr info' = true /\ cicp info' = Some r /\
    hdr_type info' =
      match hdr_type_of (transfer_characteristics r) with
      | Some t => Some t
      | None => hdr_type info
      end.
Proof.
  intros Ht Hp. unfold analyze_chunk. rewrite Ht.
  change (String.eqb "cICP" "IHDR") with false.
  change (String.eqb "cICP" "gAMA") with false.
  change (String.eqb "cICP" "cHRM") with false.
  change (String.eqb "cICP" "sRGB") with false.
  change (String.eqb "cICP" "cICP") with true. cbv iota.
  rewrite Hp. cbn [bind]. unfold hdr_type_of.
  destruct (transfer_characteristics r =? 16);
    [|destruct (transfer_characteristics r =? 18)];
    eexists; repeat split.
Qed.

(** C9, as the code has it.  A cICP chunk with at least four payload
    bytes decodes to its four raw fields; the scan step records them, sets
    has_hdr, and sets hdr_type to HDR10 (PQ) for transfer characteristics
    16, to HLG for 18, and for every other value does not assign hdr_type,
    which keeps the value it had.  For a chunk list whose only cICP chunk
    this is, the summary of a completed analysis has the raw fields and
    the hdr_type HDR10 (PQ), HLG, or none; when it is the last of several
    cICP chunks and its value is neither 16 nor 18, the summary has its
    raw fields and the hdr_type of the chunks before it. *)
Theorem cicp_classification (c : chunk) (cp tc mc fr : byte) (rest : bytes) :
  c_type c = "cICP"%string ->
  c_data c = cp :: tc :: mc :: fr :: rest ->
  exists r,
    parse_cicp (c_data c) = Ok r /\
    color_primaries r = byte_to_Z cp /\
    transfer_characteristics r = byte_to_Z tc /\
    matrix_coefficients r = byte_to_Z mc /\
    video_full_range r = byte_to_Z fr /\
    (forall info, exists info',
        analyze_chunk zlib info c = Ok info' /\
        has_hdr info' = true /\ cicp info' = Some r /\
        (byte_to_Z tc = 16 -> hdr_type info' = Some "HDR10 (PQ)"%string) /\
        (byte_to_Z tc = 18 -> hdr_type info' = Some "HLG"%string) /\
        (byte_to_Z tc <> 16 -> byte_to_Z tc <> 18 ->
         hdr_type info' = hdr_type info)) /\
    (forall pre post final,
        Forall not_cicp pre -> Forall not_cicp post ->
        analyze_chunks zlib (pre ++ c :: post) = Ok final ->
        has_hdr final = true /\ cicp final = Some r /\
        hdr_type final = hdr_type_of (byte_to_Z tc)) /\
    (forall pre post mid final,
        Forall not_cicp post ->
        analyze_loop zlib hdr_info_init pre = Ok mid ->
        analyze_chunks zlib (pre ++ c :: post) = Ok final ->
        has_hdr final = true /\ cicp final = Some r /\
        hdr_type final =
          match hdr_type_of (byte_to_Z tc) with
          | Some t => Some t
          | None => hdr_type mid
          end).
Proof.
  intros Ht Hd.
  destruct (parse_cicp_fields cp tc mc fr rest) as (r & Hp & H1 & H2 & H3 & H4).
  rewrite <- Hd in Hp. exists r. repeat (split; [assumption|]).
  split; [|split].
  - intros info.
    destruct (analyze_chunk_cicp info c r Ht Hp) as (info' & Ha & Hh & Hc & Hty).
    exists info'. repeat (split; [assumption|]).
    rewrite H2 in Hty. unfold hdr_type_of in Hty. repeat split.
    + intros E. now rewrite E in Hty.
    + intros E. now rewrite E in Hty.
    + intros E16 E18. apply Z.eqb_neq in E16, E18. now rewrite E16, E18 in Hty.
  - intros pre post final Hpre Hpost H. unfold analyze_chunks in H.
    apply bind_ok in H. destruct H as (_ & _ & H).
    apply analyze_loop_app in H. destruct H as (mid & Hmid & H).
    cbn [analyze_loop] in H. apply bind_ok in H. destruct H as (info' & Hc & H).
    destruct (analyze_chunk_cicp mid c r Ht Hp) as (info'' & Ha & Hh & Hci & Hty).
    rewrite Ha in Hc. injection Hc as ->.
    destruct (analyze_loop_not_cicp _ _ _ Hmid Hpre) as [Hm1 _].
    destruct (analyze_loop_not_cicp _ _ _ H Hpost) as [Hf1 Hf2].
    split; [now apply (analyze_loop_keeps_hdr _ _ _ H)|].
    split; [congruence|].
    rewrite Hf1, Hty, Hm1, H2. cbn [hdr_type hdr_info_init].
    now destruct (hdr_type_of (byte_to_Z tc)).
  - intros pre post mid final Hpost Hpre H. unfold analyze_chunks in H.
    apply bind_ok in H. destruct H as (_ & _ & H).
    apply analyze_loop_app in H. destruct H as (mid' & Hmid & H).
    rewrite Hpre in Hmid. injection Hmid as <-.
    cbn [analyze_loop] in H. apply bind_ok in H. destruct H as (info' & Hc & H).
    destruct (analyze_chunk_cicp mid c r Ht Hp) as (info'' & Ha & Hh & Hci & Hty).
    rewrite Ha in Hc. injection Hc as ->.
    destruct (analyze_loop_not_cicp _ _ _ H Hpost) as [Hf1 Hf2].
    split; [now apply (analyze_loop_keeps_hdr _ _ _ H)|].
    split; [congruence|]. now rewrite Hf1, Hty, H2.
Qed.

(** C10.  High bit depth marks HDR.  For the summary of a completed
    analysis of a file: if some IHDR chunk of the stream decodes to bit
    depth 16, has_hdr is true, whether or not the stream has a cICP, mDCv
    or cLLi chunk; if the stream has none of these chunks and no IHDR
    chunk of bit depth 16, has_hdr is false. *)
Theorem high_bit_depth_marks_hdr (file : bytes) (chunks : list chunk)
    (final : hdr_info) :
  read_png_chunks file = Ok chunks ->
  analyze_png_hdr zlib file = Ok final ->
  (Exists (ihdr_of_depth 16) chunks -> has_hdr final = true) /\
  (Forall (fun c => ~ hdr_chunk c) chunks ->
   Forall (fun c => ~ ihdr_of_depth 16 c) chunks ->
   has_hdr final = false).
Proof.
  intros Hread H. unfold analyze_png_hdr, analyze_chunks in H.
  rewrite Hread in H. cbn [bind] in H.
  apply bind_ok in H. destruct H as (_ & _ & H). split.
  - intros Hex. apply Exists_exists in Hex. destruct Hex as (c & Hin & Hc).
    apply in_split in Hin. destruct Hin as (pre & post & ->).
    apply analyze_loop_app in H. destruct H as (mid & _ & H).
    cbn [analyze_loop] in H. apply bind_ok in H. destruct H as (info' & Hs & H).
    apply (analyze_loop_keeps_hdr _ _ _ H).
    now apply (analyze_chunk_depth_16 _ _ _ Hs).
  - intros Hn Hi. now rewrite (analyze_loop_sdr _ _ _ H Hn Hi).
Qed.

End WithZlib.

Lemma cicp_classification_witness :
  exists r,
    parse_cicp (c_data Examples.cicp_pq) = Ok r /\
    color_primaries r = 9 /\
    transfer_characteristics r = 16 /\
    forall info, exists info',
      analyze_chunk Zlib.stored info Examples.cicp_pq = Ok info' /\
      cicp info' = Some r /\
      hdr_type info' = Some "HDR10 (PQ)"%string.
Proof.
  destruct (cicp_classification Zlib.stored Examples.cicp_pq
              x09 x10 x00 x01 [] eq_refl eq_refl)
    as (r & Hp & Hcp & Htc & _ & _ & Hstep & _).
  exists r. repeat (split; [assumption|]).
  intros info. destruct (Hstep info) as (info' & Ha & _ & Hc & H16 & _).
  exists info'. repeat (split; [assumption|]). apply H16. reflexivity.
Defined.

(** C9, as stated, fails for a second cICP chunk: after a cICP chunk with
    transfer characteristics 18, one with 13 leaves the classification
    HLG in place while its own raw fields are the ones reported. *)
Lemma later_cicp_keeps_hdr_type :
  exists final r,
    analyze_png_hdr Zlib.stored Examples.two_cicp_stream = Ok final /\
    cicp final = Some r /\
    transfer_characteristics r = 13 /\
    hdr_type final = Some "HLG"%string.
Proof.
  destruct (analyze_png_hdr Zlib.stored Examples.two_cicp_stream)
    as [final|e] eqn:H; [|vm_compute in H; discriminate H].
  vm_compute in H. injection H as <-.
  eexists. eexists. split; [reflexivity|]. cbn [cicp hdr_type].
  split; [reflexivity|]. split; reflexivity.
Qed.

Lemma high_bit_depth_marks_hdr_witness :
  (exists final, analyze_png_hdr Zlib.stored Examples.deep_stream = Ok final /\
                 has_hdr final = true) /\
  (exists final, analyze_png_hdr Zlib.stored Examples.plain_stream = Ok final /\
                 has_hdr final = false).
Proof.
  split.
  - destruct (analyze_png_hdr Zlib.stored Examples.deep_stream)
      as [final|e] eqn:H; [|vm_compute in H; discriminate H].
    exists final. split; [reflexivity|].
    apply (high_bit_depth_marks_hdr Zlib.stored Examples.deep_stream
             [Examples.ihdr_deep; Examples.iend] final);
      [vm_compute; reflexivity|exact H|].
    constructor. split; [reflexivity|].
    eexists. split; [vm_compute; reflexivity|reflexivity].
  - destruct (analyze_png_hdr Zlib.stored Examples.plain_stream)
      as [final|e] eqn:H; [|vm_compute in H; discriminate H].
    exists final. split; [reflexivity|].
    apply (high_bit_depth_marks_hdr Zlib.stored Examples.plain_stream
             [Examples.ihdr_4x4; Examples.iend] final);
      [vm_compute; reflexivity|exact H| |].
    + repeat constructor; unfold hdr_chunk; cbn [c_type Examples.ihdr_4x4
        Examples.iend record]; intuition discriminate.
    + repeat constructor.
      * intros (_ & h & Hp & Hd). vm_compute in Hp. injection Hp as <-.
        discriminate Hd.
      * intros (Ht & _). discriminate Ht.
Defined.

End AnalyzerFacts.

(** ** The cast to float32 *)

Module Float32Facts.

Local Open Scope R_scope.

(** *** Powers of two *)

Lemma pow2_pos (e : Z) : 0 < powerRZ 2 e.
Proof. apply powerRZ_lt. lra. Qed.

Lemma pow2_add (a b : Z) : powerRZ 2 (a + b) = powerRZ 2 a * powerRZ 2 b.
Proof. apply powerRZ_add. lra. Qed.

Lemma pow2_lt (a b : Z) : (a < b)%Z -> powerRZ 2 a < powerRZ 2 b.
Proof.
  intros H. rewrite !powerRZ_Rpower by lra.
  apply Rpower_lt; [lra|now apply IZR_lt].
Qed.

Lemma pow2_le (a b : Z) : (a <= b)%Z -> powerRZ 2 a <= powerRZ 2 b.
Proof.
  intros H. destruct (Z.eq_dec a b) as [->|Hn]; [lra|].
  left. apply pow2_lt. lia.
Qed.

Lemma pow2_lt_inv (a b : Z) : powerRZ 2 a < powerRZ 2 b -> (a < b)%Z.
Proof.
  intros H. destruct (Z_lt_le_dec a b) as [Hl|Hl]; [exact Hl|].
  apply pow2_le in Hl. lra.
Qed.

Lemma pow2_IZR (e : Z) : (0 <= e)%Z -> powerRZ 2 e = IZR (2 ^ e).
Proof.
  intros H. rewrite <- (Z2Nat.id e H) at 1 2.
  rewrite <- pow_powerRZ. now rewrite pow_IZR.
Qed.

Lemma pow2_cancel (e : Z) : powerRZ 2 (- e) * powerRZ 2 e = 1.
Proof. rewrite <- pow2_add. now replace (- e + e)%Z with 0%Z by lia. Qed.

(** *** The binade *)

Lemma ln_2_pos : 0 < ln 2.
Proof. pose proof ln_lt_2. lra. Qed.

Lemma ln_pow2 (e : Z) : ln (powerRZ 2 e) = IZR e * ln 2.
Proof. rewrite powerRZ_Rpower by lra. apply ln_Rpower. Qed.

Lemma ln_le (x y : R) : 0 < x -> x <= y -> ln x <= ln y.
Proof.
  intros Hx [H| ->]; [left; now apply ln_increasing|lra].
Qed.

Lemma mag_unique (a : R) (e : Z) :
  powerRZ 2 (e - 1) <= a < powerRZ 2 e -> mag a = e.
Proof.
  intros [Hl Hu]. pose proof (pow2_pos (e - 1)) as Hp. pose proof ln_2_pos as H2.
  unfold mag. rewrite (Zfloor_eq (e - 1)); [lia|].
  pose proof (ln_le _ _ Hp Hl) as H1. rewrite ln_pow2 in H1.
  pose proof (ln_increasing a (powerRZ 2 e) ltac:(lra) Hu) as H3.
  rewrite ln_pow2 in H3. rewrite minus_IZR in *.
  split.
  - apply Rmult_le_reg_r with (ln 2); [exact H2|].
    unfold Rdiv. rewrite Rmult_assoc, Rinv_l by lra. lra.
  - apply Rmult_lt_reg_r with (ln 2); [exact H2|].
    unfold Rdiv. rewrite Rmult_assoc, Rinv_l by lra. lra.
Qed.

Lemma mag_spec (a : R) :
  0 < a -> powerRZ 2 (mag a - 1) <= a < powerRZ 2 (mag a).
Proof.
  intros Ha. unfold mag. pose proof ln_2_pos as H2.
  set (k := Zfloor (ln a / ln 2)).
  pose proof (Zfloor_bound (ln a / ln 2)) as [Hl Hu]. fold k in Hl, Hu.
  replace (k + 1 - 1)%Z with k by lia.
  assert (Hl' : IZR k * ln 2 <= ln a).
  { apply Rmult_le_compat_r with (r := ln 2) in Hl; [|lra].
    unfold Rdiv in Hl. rewrite Rmult_assoc, Rinv_l in Hl by lra. lra. }
  assert (Hu' : ln a < IZR (k + 1) * ln 2).
  { apply Rmult_lt_compat_r with (r := ln 2) in Hu; [|lra].
    unfold Rdiv in Hu. rewrite Rmult_assoc, Rinv_l in Hu by lra.
    rewrite plus_IZR. lra. }
  rewrite <- !ln_pow2 in *.
  split.
  - destruct Hl' as [Hl'|Hl'].
    + left. apply ln_lt_inv; [apply pow2_pos|exact Ha|exact Hl'].
    + right. apply ln_inv; [apply pow2_pos|exact Ha|exact Hl'].
  - apply ln_lt_inv; [exact Ha|apply pow2_pos|exact Hu'].
Qed.

Lemma mag_le (a b : R) : 0 < a -> a <= b -> (mag a <= mag b)%Z.
Proof.
  intros Ha Hab.
  pose proof (mag_spec a Ha) as [Hl _].
  pose proof (mag_spec b ltac:(lra)) as [_ Hu].
  assert (H : powerRZ 2 (mag a - 1) < powerRZ 2 (mag b)) by lra.
  apply pow2_lt_inv in H. lia.
Qed.

Lemma mag_lt_bound (a : R) (k : Z) :
  0 < a -> a < powerRZ 2 k -> (mag a <= k)%Z.
Proof.
  intros Ha Hk. pose proof (mag_spec a Ha) as [Hl _].
  assert (H : powerRZ 2 (mag a - 1) < powerRZ 2 k) by lra.
  apply pow2_lt_inv in H. lia.
Qed.

(** *** Rounding to the nearest integer *)

Lemma nearest_even_IZR (n : Z) : nearest_even (IZR n) = n.
Proof.
  unfold nearest_even. rewrite ZfloorZ.
  replace (IZR n - IZR n) with 0 by ring.
  destruct (Rlt_dec 0 (/ 2)); [reflexivity|lra].
Qed.

Lemma nearest_even_cases (r : R) :
  nearest_even r = Zfloor r /\ r - IZR (Zfloor r) <= / 2 \/
  nearest_even r = (Zfloor r + 1)%Z /\ / 2 <= r - IZR (Zfloor r).
Proof.
  unfold nearest_even.
  destruct (Rlt_dec (r - IZR (Zfloor r)) (/ 2)) as [H|H].
  - left. split; [reflexivity|lra].
  - destruct (Rlt_dec (/ 2) (r - IZR (Zfloor r))) as [H'|H'].
    + right. split; [reflexivity|lra].
    + destruct (Z.even (Zfloor r)); [left|right]; split; try reflexivity; lra.
Qed.

Lemma nearest_even_le (r1 r2 : R) :
  r1 <= r2 -> (nearest_even r1 <= nearest_even r2)%Z.
Proof.
  intros H. pose proof (Zfloor_le _ _ H) as Hf.
  pose proof (Zfloor_bound r1) as B1. pose proof (Zfloor_bound r2) as B2.
  destruct (Z.eq_dec (Zfloor r1) (Zfloor r2)) as [E|E].
  - unfold nearest_even. rewrite <- E.
    destruct (Rlt_dec (r1 - IZR (Zfloor r1)) (/ 2)) as [H1|H1];
      destruct (Rlt_dec (r2 - IZR (Zfloor r1)) (/ 2)) as [H2|H2];
      try lra; try lia;
      destruct (Rlt_dec (/ 2) (r1 - IZR (Zfloor r1))) as [H3|H3];
      destruct (Rlt_dec (/ 2) (r2 - IZR (Zfloor r1))) as [H4|H4];
      try lra; try lia; destruct (Z.even (Zfloor r1)); lia.
  - destruct (nearest_even_cases r1) as [[-> _]|[-> _]];
      destruct (nearest_even_cases r2) as [[-> _]|[-> _]]; lia.
Qed.

Lemma nearest_even_eq (r : R) (n : Z) :
  IZR n - / 2 < r < IZR n + / 2 -> nearest_even r = n.
Proof.
  intros [Hl Hu]. unfold nearest_even.
  destruct (Rle_dec (IZR n) r) as [Hn|Hn].
  - rewrite (Zfloor_eq n) by lra.
    destruct (Rlt_dec (r - IZR n) (/ 2)); [reflexivity|lra].
  - rewrite (Zfloor_eq (n - 1)) by (rewrite minus_IZR; lra).
    rewrite minus_IZR.
    destruct (Rlt_dec (r - (IZR n - 1)) (/ 2)); [lra|].
    destruct (Rlt_dec (/ 2) (r - (IZR n - 1))); [lia|lra].
Qed.

Lemma nearest_even_nonneg (r : R) : 0 <= r -> (0 <= nearest_even r)%Z.
Proof.
  intros H. rewrite <- (nearest_even_IZR 0). now apply nearest_even_le.
Qed.

(** *** Rounding a magnitude *)

Lemma round32_0 : round32 0 = 0.
Proof.
  unfold round32. rewrite Rmult_0_l.
  change 0 with (IZR 0) at 1. rewrite nearest_even_IZR. ring.
Qed.

Lemma round32_nonneg (a : R) : 0 <= a -> 0 <= round32 a.
Proof.
  intros Ha. unfold round32.
  pose proof (pow2_pos (cexp a)). pose proof (pow2_pos (- cexp a)).
  apply Rmult_le_pos; [|lra]. apply IZR_le, nearest_even_nonneg.
  apply Rmult_le_pos; lra.
Qed.

(** A value on the grid of [a] bounds the rounded value on its side. *)
Lemma scaled_int (n e c : Z) :
  (c <= e)%Z -> IZR n * powerRZ 2 e * powerRZ 2 (- c) = IZR (n * 2 ^ (e - c)).
Proof.
  intros H. rewrite Rmult_assoc, <- pow2_add.
  replace (e + - c)%Z with (e - c)%Z by lia.
  rewrite pow2_IZR by lia. now rewrite mult_IZR.
Qed.

Lemma round32_le_upper (a : R) (n e : Z) :
  a <= IZR n * powerRZ 2 e -> (cexp a <= e)%Z -> round32 a <= IZR n * powerRZ 2 e.
Proof.
  intros Ha Hc. unfold round32.
  pose proof (pow2_pos (cexp a)) as Hp. pose proof (pow2_pos (- cexp a)) as Hq.
  assert (Hs : a * powerRZ 2 (- cexp a) <= IZR (n * 2 ^ (e - cexp a))).
  { rewrite <- scaled_int by assumption.
    apply Rmult_le_compat_r; lra. }
  apply nearest_even_le in Hs. rewrite nearest_even_IZR in Hs.
  apply IZR_le in Hs.
  apply Rmult_le_compat_r with (r := powerRZ 2 (cexp a)) in Hs; [|lra].
  rewrite <- scaled_int in Hs by assumption.
  rewrite Rmult_assoc, pow2_cancel in Hs. lra.
Qed.

Lemma round32_ge_lower (a : R) (n e : Z) :
  IZR n * powerRZ 2 e <= a -> (cexp a <= e)%Z -> IZR n * powerRZ 2 e <= round32 a.
Proof.
  intros Ha Hc. unfold round32.
  pose proof (pow2_pos (cexp a)) as Hp. pose proof (pow2_pos (- cexp a)) as Hq.
  assert (Hs : IZR (n * 2 ^ (e - cexp a)) <= a * powerRZ 2 (- cexp a)).
  { rewrite <- scaled_int by assumption.
    apply Rmult_le_compat_r; lra. }
  apply nearest_even_le in Hs. rewrite nearest_even_IZR in Hs.
  apply IZR_le in Hs.
  apply Rmult_le_compat_r with (r := powerRZ 2 (cexp a)) in Hs; [|lra].
  rewrite <- scaled_int in Hs by assumption.
  rewrite Rmult_assoc, pow2_cancel in Hs. lra.
Qed.

Lemma round32_le (a b : R) : 0 <= a -> a <= b -> round32 a <= round32 b.
Proof.
  intros Ha Hab.
  destruct (Req_dec a 0) as [->|Hz].
  { rewrite round32_0. apply round32_nonneg. lra. }
  assert (Ha' : 0 < a) by lra.
  pose proof (mag_le a b Ha' Hab) as Hm.
  destruct (Z.eq_dec (cexp a) (cexp b)) as [E|E].
  - unfold round32. rewrite E.
    pose proof (pow2_pos (cexp b)). pose proof (pow2_pos (- cexp b)).
    apply Rmult_le_compat_r; [lra|]. apply IZR_le, nearest_even_le.
    apply Rmult_le_compat_r; lra.
  - assert (Hc : (cexp a < cexp b)%Z) by (unfold cexp in *; lia).
    assert (Hb : cexp b = (mag b - 24)%Z) by (unfold cexp in *; lia).
    pose proof (mag_spec a Ha') as [_ Hua].
    pose proof (mag_spec b ltac:(lra)) as [Hlb _].
    assert (Hma : (mag a <= mag b - 1)%Z) by (unfold cexp in *; lia).
    pose proof (pow2_le _ _ Hma) as Hp.
    apply Rle_trans with (IZR 1 * powerRZ 2 (mag b - 1)).
    + apply round32_le_upper; [lra|lia].
    + apply round32_ge_lower; [lra|lia].
Qed.

Lemma round32_exact (n e : Z) :
  (0 <= n < 2 ^ 24)%Z -> (-149 <= e)%Z ->
  round32 (IZR n * powerRZ 2 e) = IZR n * powerRZ 2 e.
Proof.
  intros Hn He. destruct (Z.eq_dec n 0) as [->|Hz].
  { rewrite Rmult_0_l. apply round32_0. }
  set (a := IZR n * powerRZ 2 e).
  pose proof (pow2_pos e) as Hp.
  assert (Ha : 0 < a).
  { unfold a. apply Rmult_lt_0_compat; [apply IZR_lt; lia|exact Hp]. }
  assert (Hlt : a < powerRZ 2 (24 + e)).
  { unfold a. rewrite pow2_add, (pow2_IZR 24) by lia.
    apply Rmult_lt_compat_r; [exact Hp|]. apply IZR_lt. lia. }
  pose proof (mag_lt_bound a (24 + e) Ha Hlt) as Hm.
  assert (Hc : (cexp a <= e)%Z) by (unfold cexp; lia).
  apply Rle_antisym.
  - apply round32_le_upper; [unfold a; lra|exact Hc].
  - apply round32_ge_lower; [unfold a; lra|exact Hc].
Qed.

Lemma round32_grid (a : R) :
  0 <= a ->
  exists n e, round32 a = IZR n * powerRZ 2 e /\ (0 <= n < 2 ^ 24)%Z /\ (-149 <= e)%Z.
Proof.
  intros Ha. destruct (Req_dec a 0) as [->|Hz].
  { exists 0%Z, 0%Z. rewrite round32_0. split; [simpl; ring|lia]. }
  assert (Ha' : 0 < a) by lra.
  pose proof (mag_spec a Ha') as [_ Hu].
  pose proof (pow2_pos (- cexp a)) as Hq.
  set (N := nearest_even (a * powerRZ 2 (- cexp a))).
  assert (H0 : (0 <= N)%Z).
  { apply nearest_even_nonneg. apply Rmult_le_pos; lra. }
  assert (H1 : (N <= 2 ^ 24)%Z).
  { rewrite <- (nearest_even_IZR (2 ^ 24)). apply nearest_even_le.
    rewrite <- pow2_IZR by lia.
    apply Rle_trans with (powerRZ 2 (mag a) * powerRZ 2 (- cexp a)).
    - apply Rmult_le_compat_r; lra.
    - rewrite <- pow2_add. apply pow2_le. unfold cexp. lia. }
  destruct (Z.eq_dec N (2 ^ 24)) as [E|E].
  - exists (2 ^ 23)%Z, (cexp a + 1)%Z. split; [|split; [lia|unfold cexp; lia]].
    unfold round32. fold N. rewrite E, pow2_add.
    replace (powerRZ 2 1) with 2 by (simpl; ring).
    change (2 ^ 24)%Z with (2 * 2 ^ 23)%Z. rewrite mult_IZR. ring.
  - exists N, (cexp a). split; [reflexivity|]. split; [lia|unfold cexp; lia].
Qed.

(** *** The cast *)

Lemma float32_0 : float32 0 = 0.
Proof. unfold float32. destruct (Rle_dec 0 0); [apply round32_0|lra]. Qed.

Lemma float32_opp (x : R) : float32 (- x) = - float32 x.
Proof.
  unfold float32.
  destruct (Rle_dec 0 x) as [H|H]; destruct (Rle_dec 0 (- x)) as [H'|H'];
    try lra.
  - assert (E : x = 0) by lra. subst x. rewrite Ropp_0, round32_0. ring.
  - now rewrite Ropp_involutive.
Qed.

Lemma float32_nonneg (x : R) : 0 <= x -> 0 <= float32 x.
Proof.
  intros H. unfold float32. destruct (Rle_dec 0 x); [|lra].
  now apply round32_nonneg.
Qed.

Lemma float32_nonpos (x : R) : x <= 0 -> float32 x <= 0.
Proof.
  intros H. rewrite <- (Ropp_involutive x), float32_opp.
  pose proof (float32_nonneg (- x) ltac:(lra)). lra.
Qed.

Lemma float32_le (x y : R) : x <= y -> float32 x <= float32 y.
Proof.
  intros H. destruct (Rle_dec 0 x) as [Hx|Hx].
  - unfold float32. destruct (Rle_dec 0 x); [|lra].
    destruct (Rle_dec 0 y); [|lra]. now apply round32_le.
  - destruct (Rle_dec 0 y) as [Hy|Hy].
    + pose proof (float32_nonpos x ltac:(lra)).
      pose proof (float32_nonneg y Hy). lra.
    + unfold float32. destruct (Rle_dec 0 x); [lra|].
      destruct (Rle_dec 0 y); [lra|].
      apply Ropp_le_contravar. apply round32_le; lra.
Qed.

Lemma float32_exact (x : R) : is_float32 x -> float32 x = x.
Proof.
  intros (n & e & -> & Hn & He).
  destruct (Z_le_gt_dec 0 n) as [H0|H0].
  - unfold float32.
    pose proof (pow2_pos e).
    destruct (Rle_dec 0 (IZR n * powerRZ 2 e)) as [_|Hneg].
    + apply round32_exact; lia.
    + exfalso. apply Hneg. apply Rmult_le_pos; [apply IZR_le; lia|lra].
  - replace (IZR n * powerRZ 2 e) with (- (IZR (- n) * powerRZ 2 e))
      by (rewrite opp_IZR; ring).
    rewrite float32_opp. f_equal.
    unfold float32. pose proof (pow2_pos e).
    destruct (Rle_dec 0 (IZR (- n) * powerRZ 2 e)) as [_|Hneg].
    + apply round32_exact; lia.
    + exfalso. apply Hneg. apply Rmult_le_pos; [apply IZR_le; lia|lra].
Qed.

Lemma is_float32_opp (x : R) : is_float32 x -> is_float32 (- x).
Proof.
  intros (n & e & -> & Hn & He). exists (- n)%Z, e.
  split; [rewrite opp_IZR; ring|]. split; [lia|exact He].
Qed.

Lemma float32_is_float32 (x : R) : is_float32 (float32 x).
Proof.
  unfold float32. destruct (Rle_dec 0 x) as [H|H].
  - destruct (round32_grid x H) as (n & e & -> & Hn & He).
    exists n, e. split; [reflexivity|]. split; [lia|exact He].
  - apply is_float32_opp.
    destruct (round32_grid (- x) ltac:(lra)) as (n & e & -> & Hn & He).
    exists n, e. split; [reflexivity|]. split; [lia|exact He].
Qed.

Lemma float32_idempotent (x : R) : float32 (float32 x) = float32 x.
Proof. apply float32_exact, float32_is_float32. Qed.

Lemma is_float32_Z (n : Z) : (Z.abs n < 2 ^ 24)%Z -> is_float32 (IZR n).
Proof.
  intros H. exists n, 0%Z. split; [simpl; ring|]. split; [exact H|lia].
Qed.

Lemma float32_1 : float32 1 = 1.
Proof. apply float32_exact, (is_float32_Z 1). reflexivity. Qed.

Lemma float32_unit (x : R) : 0 <= x <= 1 -> 0 <= float32 x <= 1.
Proof.
  intros [H0 H1]. split; [now apply float32_nonneg|].
  rewrite <- float32_1. now apply float32_le.
Qed.

(** The value of the cast at a normal number, from the binade and the
    nearest integer of the scaled number. *)
Lemma float32_value (x : R) (e n : Z) :
  powerRZ 2 (e - 1) <= x < powerRZ 2 e -> (-125 <= e)%Z ->
  IZR n - / 2 < x * powerRZ 2 (24 - e) < IZR n + / 2 ->
  float32 x = IZR n * powerRZ 2 (e - 24).
Proof.
  intros Hb He Hn. pose proof (pow2_pos (e - 1)).
  unfold float32. destruct (Rle_dec 0 x); [|lra].
  unfold round32, cexp. rewrite (mag_unique x e Hb).
  rewrite Z.max_l by lia.
  replace (- (e - 24))%Z with (24 - e)%Z by lia.
  now rewrite (nearest_even_eq _ n Hn).
Qed.

End Float32Facts.

(** ** The photometric chain *)

Module PhotometricFacts.

Import hdr_convert Container Float32Facts.

Local Open Scope R_scope.

(** *** Clipping and powers *)

Lemma clip_range (x : R) : 0 <= clip x 0 1 <= 1.
Proof.
  unfold clip, Rmin, Rmax.
  destruct (Rle_dec x 0); destruct (Rle_dec _ 1); lra.
Qed.

Lemma clip_id (x : R) : 0 <= x <= 1 -> clip x 0 1 = x.
Proof.
  intros H. unfold clip, Rmin, Rmax.
  destruct (Rle_dec x 0); destruct (Rle_dec _ 1); lra.
Qed.

Lemma clip_low (x : R) : x <= 0 -> clip x 0 1 = 0.
Proof.
  intros H. unfold clip, Rmin, Rmax.
  destruct (Rle_dec x 0); destruct (Rle_dec _ 1); lra.
Qed.

Lemma clip_high (x : R) : 1 <= x -> clip x 0 1 = 1.
Proof.
  intros H. unfold clip, Rmin, Rmax.
  destruct (Rle_dec x 0); destruct (Rle_dec _ 1); lra.
Qed.

Lemma power_zero (y : R) : power 0 y = 0.
Proof. unfold power. destruct (Rlt_dec 0 0); [lra|reflexivity]. Qed.

Lemma power_positive (x y : R) : 0 < x -> power x y = Rpower x y.
Proof. intros H. unfold power. destruct (Rlt_dec 0 x); [reflexivity|lra]. Qed.

Lemma power_one (y : R) : power 1 y = 1.
Proof.
  rewrite power_positive by lra. unfold Rpower.
  rewrite ln_1, Rmult_0_r. apply exp_0.
Qed.

Lemma power_pos (x y : R) : 0 < x -> 0 < power x y.
Proof. intros H. rewrite power_positive by assumption. apply exp_pos. Qed.

Lemma power_nonneg (x y : R) : 0 <= power x y.
Proof.
  unfold power. destruct (Rlt_dec 0 x); [|lra].
  left. apply exp_pos.
Qed.

Lemma power_le (x1 x2 y : R) :
  0 <= y -> 0 <= x1 <= x2 -> power x1 y <= power x2 y.
Proof.
  intros Hy [H1 H2]. unfold power at 1.
  destruct (Rlt_dec 0 x1) as [Hp|Hz].
  - rewrite power_positive by lra. apply Rle_Rpower_l; lra.
  - apply power_nonneg.
Qed.

Lemma power_le_one (x y : R) : 0 <= y -> 0 <= x <= 1 -> power x y <= 1.
Proof. intros Hy Hx. rewrite <- (power_one y). now apply power_le. Qed.

(** *** The ST 2084 formula *)

Lemma pq_formula_ratio (x : R) : pq_formula x = power (ratio (power x m1)) m2.
Proof. reflexivity. Qed.

Lemma ratio_range (t : R) : 0 <= t <= 1 -> 0 < ratio t <= 1.
Proof.
  intros Ht. unfold ratio, c1, c2, c3.
  assert (Hd : 0 < 1 + 2392 / 4096 * 32 * t) by lra.
  split.
  - apply Rdiv_lt_0_compat; lra.
  - apply Rmult_le_reg_r with (1 + 2392 / 4096 * 32 * t); [assumption|].
    unfold Rdiv at 1. rewrite Rmult_assoc, Rinv_l by lra. lra.
Qed.

Lemma ratio_le (t1 t2 : R) : 0 <= t1 <= t2 -> ratio t1 <= ratio t2.
Proof.
  intros Ht. unfold ratio, c1, c2, c3.
  set (d1 := 1 + 2392 / 4096 * 32 * t1).
  set (d2 := 1 + 2392 / 4096 * 32 * t2).
  assert (Hd1 : 0 < d1) by (unfold d1; lra).
  assert (Hd2 : 0 < d2) by (unfold d2; lra).
  apply Rmult_le_reg_r with (d1 * d2); [now apply Rmult_lt_0_compat|].
  replace ((3424 / 4096 + 2413 / 4096 * 32 * t1) / d1 * (d1 * d2))
    with ((3424 / 4096 + 2413 / 4096 * 32 * t1) * d2) by (field; lra).
  replace ((3424 / 4096 + 2413 / 4096 * 32 * t2) / d2 * (d1 * d2))
    with ((3424 / 4096 + 2413 / 4096 * 32 * t2) * d1) by (field; lra).
  unfold d1, d2. nra.
Qed.

Lemma m1_pos : 0 <= m1.
Proof. unfold m1. lra. Qed.

Lemma m2_pos : 0 <= m2.
Proof. unfold m2. lra. Qed.

Lemma power_m1_range (x : R) : 0 <= x <= 1 -> 0 <= power x m1 <= 1.
Proof.
  intros Hx. split; [apply power_nonneg|].
  apply power_le_one; [apply m1_pos|assumption].
Qed.

Lemma pq_formula_range (x : R) : 0 <= x <= 1 -> 0 < pq_formula x <= 1.
Proof.
  intros Hx. rewrite pq_formula_ratio.
  pose proof (ratio_range _ (power_m1_range x Hx)) as Hr.
  split; [apply power_pos; lra|].
  apply power_le_one; [apply m2_pos|lra].
Qed.

Lemma pq_formula_le (x1 x2 : R) :
  0 <= x1 -> x1 <= x2 -> x2 <= 1 -> pq_formula x1 <= pq_formula x2.
Proof.
  intros H0 H12 H1. rewrite !pq_formula_ratio.
  assert (Ht : power x1 m1 <= power x2 m1)
    by (apply power_le; [apply m1_pos|lra]).
  pose proof (power_m1_range x1 ltac:(lra)) as Ht1.
  pose proof (ratio_range _ Ht1) as Hr1.
  apply power_le; [apply m2_pos|].
  split; [lra|]. apply ratio_le. lra.
Qed.

Lemma pq_formula_one : pq_formula 1 = 1.
Proof.
  rewrite pq_formula_ratio, power_one.
  replace (ratio 1) with 1 by (unfold ratio, c1, c2, c3; field).
  apply power_one.
Qed.

Lemma pq_formula_zero : pq_formula 0 = Rpower c1 m2.
Proof.
  rewrite pq_formula_ratio, power_zero.
  replace (ratio 0) with c1 by (unfold ratio; field).
  apply power_positive. unfold c1. lra.
Qed.

Lemma ln_c1_neg : ln c1 < 0.
Proof.
  rewrite <- ln_1. apply ln_increasing; unfold c1; lra.
Qed.

(** The PQ code of black is [c1 ^ m2], about 7.3e-7, between the integer
    powers [c1 ^ 79] and [c1 ^ 78]. *)
Lemma pq_formula_zero_bounds : 7 / 10 ^ 7 < pq_formula 0 < 9 / 10 ^ 7.
Proof.
  rewrite pq_formula_zero. pose proof ln_c1_neg as Hln.
  assert (Hlow : Rpower c1 79 < Rpower c1 m2).
  { unfold Rpower. apply exp_increasing. unfold m2. nra. }
  assert (Hhigh : Rpower c1 m2 < Rpower c1 78).
  { unfold Rpower. apply exp_increasing. unfold m2. nra. }
  assert (H79 : 7 / 10 ^ 7 < Rpower c1 79).
  { unfold c1. rewrite <- (powerRZ_Rpower _ 79) by lra.
    change (powerRZ (3424 / 4096) 79) with ((3424 / 4096) ^ Pos.to_nat 79).
    replace (Pos.to_nat 79) with 79%nat by reflexivity. lra. }
  assert (H78 : Rpower c1 78 < 9 / 10 ^ 7).
  { unfold c1. rewrite <- (powerRZ_Rpower _ 78) by lra.
    change (powerRZ (3424 / 4096) 78) with ((3424 / 4096) ^ Pos.to_nat 78).
    replace (Pos.to_nat 78) with 78%nat by reflexivity. lra. }
  lra.
Qed.

Lemma linear_to_pq_range (x : R) : 0 < linear_to_pq x <= 1.
Proof. unfold linear_to_pq. apply pq_formula_range, clip_range. Qed.

Lemma linear_to_pq_formula (x : R) :
  0 <= x <= 1 -> linear_to_pq x = pq_formula x.
Proof. intros H. unfold linear_to_pq. now rewrite clip_id. Qed.

(** *** The inverse sRGB EOTF *)

Lemma srgb_to_linear_range (x : R) : 0 <= x <= 1 -> 0 <= srgb_to_linear x <= 1.
Proof.
  intros Hx. unfold srgb_to_linear.
  destruct (Rle_dec x 0.04045).
  - lra.
  - split; [apply power_nonneg|].
    apply power_le_one; [lra|].
    split.
    + apply Rmult_le_reg_r with 1.055; [lra|].
      unfold Rdiv. rewrite Rmult_assoc, Rinv_l by lra. lra.
    + apply Rmult_le_reg_r with 1.055; [lra|].
      unfold Rdiv. rewrite Rmult_assoc, Rinv_l by lra. lra.
Qed.

(** *** Quantization *)

Lemma trunc_nonneg (r : R) : 0 <= r -> trunc r = Zfloor r.
Proof. intros H. unfold trunc. destruct (Rle_dec 0 r); [reflexivity|lra]. Qed.

Lemma quantize_floor (pq : R) :
  0 <= pq <= 1 ->
  quantize pq = Zfloor (pq * 65535) /\ (0 <= quantize pq <= 65535)%Z.
Proof.
  intros H. unfold quantize, astype_uint16.
  rewrite trunc_nonneg by nra.
  assert (H0 : (0 <= Zfloor (pq * 65535))%Z) by (apply Zfloor_lub; simpl; nra).
  assert (H1 : (Zfloor (pq * 65535) <= 65535)%Z).
  { apply le_IZR. pose proof (Zfloor_bound (pq * 65535)). lra. }
  rewrite Z.mod_small by lia. split; [reflexivity|lia].
Qed.

Lemma quantize_value (pq : R) (q : Z) :
  0 <= pq <= 1 -> IZR q <= pq * 65535 < IZR q + 1 -> quantize pq = q.
Proof.
  intros H Hq. destruct (quantize_floor pq H) as [-> _]. now apply Zfloor_eq.
Qed.

(** C3, as the code has it.  For a PQ value in [0,1] the quantization
    step gives the integer part of [pq * 65535] (the fraction is dropped,
    there is no rounding to the nearest integer), a value between 0 and
    65535, so the reduction to 16 bits changes nothing. *)
Theorem quantization_drops_fraction (pq : R) :
  0 <= pq <= 1 ->
  quantize pq = Zfloor (pq * 65535) /\
  (0 <= quantize pq <= 65535)%Z /\
  IZR (quantize pq) <= pq * 65535 < IZR (quantize pq) + 1.
Proof.
  intros H. destruct (quantize_floor pq H) as [Hq Hr].
  split; [assumption|]. split; [assumption|].
  rewrite Hq. apply Zfloor_bound.
Qed.

Lemma quantization_drops_fraction_witness :
  quantize (1 / 4) = Zfloor (1 / 4 * 65535) /\
  (0 <= quantize (1 / 4) <= 65535)%Z /\
  IZR (quantize (1 / 4)) <= 1 / 4 * 65535 < IZR (quantize (1 / 4)) + 1.
Proof. apply (quantization_drops_fraction (1 / 4)). lra. Defined.

(** C3, as stated, fails at pq = 1/4: [pq * 65535] is 16383.75, the code
    gives 16383, and 16384 is nearer. *)
Lemma quantization_not_nearest :
  0 <= 1 / 4 <= 1 /\
  quantize (1 / 4) = 16383%Z /\
  ~ nearest_integer (1 / 4 * 65535) (quantize (1 / 4)).
Proof.
  assert (Hq : quantize (1 / 4) = 16383%Z)
    by (apply quantize_value; simpl; lra).
  split; [lra|]. split; [assumption|].
  rewrite Hq. intros Hn. specialize (Hn 16384%Z).
  rewrite Rabs_left in Hn by lra. rewrite Rabs_right in Hn by lra. lra.
Qed.




(** *** The code against the formulas of the specification *)

Lemma power_real_power (x y : R) : 0 <= x -> power x y = real_power x y.
Proof.
  intros H. unfold power, real_power.
  destruct (Rlt_dec 0 x); destruct (Req_dec_T x 0); try reflexivity; lra.
Qed.

Lemma srgb_to_linear_spec (s : R) : 0 <= s -> srgb_to_linear s = srgbToLinear s.
Proof.
  intros H. unfold srgb_to_linear, srgbToLinear.
  destruct (Rle_dec s 0.04045); [reflexivity|].
  apply power_real_power.
  apply Rmult_le_pos; [lra|]. left. apply Rinv_0_lt_compat. lra.
Qed.

Lemma pq_formula_spec (x : R) : 0 <= x <= 1 -> pq_formula x = pq x.
Proof.
  intros H. rewrite pq_formula_ratio.
  pose proof (ratio_range _ (power_m1_range x H)) as Hr.
  rewrite power_real_power by lra.
  rewrite (power_real_power x) by lra.
  reflexivity.
Qed.

(** C5.  Gain-neutral composition.  With gain 1, no radial boost, no mask
    and 10000 nits, the value of a sample [s] of [0,1] before quantization
    is [pq (srgbToLinear s)] for the two formulas as the specification
    writes them: the ST 2084 formula of [s / 12.92] up to 0.04045 and of
    [((s + 0.055) / 1.055) ^ 2.4] above; it is also what the functions of
    the code give for it. *)
Theorem gain_neutral_composition (cfg : config) (width height y x : nat) (s : R) :
  gain cfg = 1 -> radial_boost cfg = None -> mask_path cfg = None ->
  nits cfg = 10000 -> 0 <= s <= 1 ->
  pq_sample cfg width height y x s = pq (srgbToLinear s) /\
  (s <= 0.04045 -> pq_sample cfg width height y x s = pq (s / 12.92)) /\
  (0.04045 < s ->
   pq_sample cfg width height y x s
   = pq (Rpower ((s + 0.055) / 1.055) 2.4)) /\
  pq_sample cfg width height y x s = linear_to_pq (srgb_to_linear s) /\
  pq_sample cfg width height y x s = pq_formula (srgb_to_linear s).
Proof.
  intros Hg Hr Hm Hn Hs.
  assert (E : pq_sample cfg width height y x s
              = linear_to_pq (srgb_to_linear s)).
  { unfold pq_sample. rewrite Hg, Hr, Hm, Hn.
    pose proof (srgb_to_linear_range s Hs) as Hl.
    replace (srgb_to_linear s * 1 * (10000 / 10000)) with (srgb_to_linear s)
      by field.
    now rewrite clip_id by assumption. }
  pose proof (srgb_to_linear_range s Hs) as Hl.
  assert (F : pq_sample cfg width height y x s = pq (srgbToLinear s)).
  { rewrite E, linear_to_pq_formula, pq_formula_spec by assumption.
    now rewrite srgb_to_linear_spec by lra. }
  split; [exact F|]. split; [|split; [|split]].
  - intros Hlow. rewrite F. unfold srgbToLinear.
    destruct (Rle_dec s 0.04045); [reflexivity|contradiction].
  - intros Hhigh. rewrite F. unfold srgbToLinear.
    destruct (Rle_dec s 0.04045); [lra|].
    f_equal. unfold real_power.
    destruct (Req_dec_T _ 0) as [Hz|_]; [|reflexivity].
    exfalso. lra.
  - exact E.
  - rewrite E. now apply linear_to_pq_formula.
Qed.

Lemma gain_neutral_composition_witness :
  pq_sample Examples.neutral_config 2 1 0 1 (1 / 2)
  = pq (Rpower ((1 / 2 + 0.055) / 1.055) 2.4) /\
  pq_sample Examples.neutral_config 2 1 0 1 (1 / 100) = pq (1 / 100 / 12.92).
Proof.
  split.
  - apply (gain_neutral_composition Examples.neutral_config 2 1 0 1 (1 / 2));
      try reflexivity; lra.
  - apply (gain_neutral_composition Examples.neutral_config 2 1 0 1 (1 / 100));
      try reflexivity; lra.
Defined.

(** *** The radial boost *)

Lemma float32_m1 : float32 (-1) = -1.
Proof. apply float32_exact, (is_float32_Z (-1)). reflexivity. Qed.

Lemma boost_zero (g : R) : boost 0 g = 1.
Proof.
  unfold boost. rewrite Rmult_0_l, float32_0, Rplus_0_r. apply float32_1.
Qed.

Lemma boost_one (g : R) : boost 1 g = float32 (1 + float32 (g - 1)).
Proof. unfold boost. now rewrite Rmult_1_l, float32_idempotent. Qed.

(** The float32 operations of the boost are exact when the gain and the
    gain less 1 are binary32 numbers. *)
Lemma boost_one_exact (g : R) :
  is_float32 g -> is_float32 (g - 1) -> boost 1 g = g.
Proof.
  intros Hg Hg1. rewrite boost_one, (float32_exact (g - 1)) by assumption.
  replace (1 + (g - 1)) with g by ring. now apply float32_exact.
Qed.

Lemma boost_le (m1 m2 g : R) :
  1 <= g -> m1 <= m2 -> boost m1 g <= boost m2 g.
Proof.
  intros Hg Hm. unfold boost.
  pose proof (float32_nonneg (g - 1) ltac:(lra)) as Ht.
  apply float32_le. apply Rplus_le_compat_l. apply float32_le.
  now apply Rmult_le_compat_r.
Qed.

Lemma boost_ge (m1 m2 g : R) :
  g <= 1 -> m1 <= m2 -> boost m2 g <= boost m1 g.
Proof.
  intros Hg Hm. unfold boost.
  pose proof (float32_nonpos (g - 1) ltac:(lra)) as Ht.
  apply float32_le. apply Rplus_le_compat_l. apply float32_le. nra.
Qed.

(** The multiplier of a mask value of [0,1] lies between 1, its value for
    the mask value 0, and its value for the mask value 1. *)
Lemma boost_between (m g : R) :
  0 <= m <= 1 -> Rmin 1 (boost 1 g) <= boost m g <= Rmax 1 (boost 1 g).
Proof.
  intros [H0 H1]. unfold Rmin, Rmax.
  destruct (Rle_dec 1 g) as [Hg|Hg].
  - pose proof (boost_le 0 m g Hg H0) as Ha.
    pose proof (boost_le m 1 g Hg H1) as Hb.
    rewrite boost_zero in Ha. destruct (Rle_dec 1 (boost 1 g)); lra.
  - pose proof (boost_ge 0 m g ltac:(lra) H0) as Ha.
    pose proof (boost_ge m 1 g ltac:(lra) H1) as Hb.
    rewrite boost_zero in Ha. destruct (Rle_dec 1 (boost 1 g)); lra.
Qed.

Lemma boost_nonneg (m g : R) : 0 <= m <= 1 -> 0 <= g -> 0 <= boost m g.
Proof.
  intros Hm Hg. unfold boost.
  assert (Ht : -1 <= float32 (g - 1)).
  { rewrite <- float32_m1. apply float32_le. lra. }
  assert (Hp : -1 <= float32 (m * float32 (g - 1))).
  { rewrite <- float32_m1. apply float32_le. nra. }
  apply float32_nonneg. lra.
Qed.

Lemma radial_mask_range (width height : Z) (radius : R) (center : option (Z * Z))
    (falloff : R) (y x : Z) :
  0 <= create_radial_mask width height radius center falloff y x <= 1.
Proof.
  unfold create_radial_mask. apply float32_unit.
  destruct (Rlt_dec 0 falloff); [apply clip_range|].
  apply float32_unit. destruct (Rlt_dec radius _); lra.
Qed.

Lemma radial_mask_inside (width height : Z) (radius falloff : R) (y x : Z) :
  dist width height None y x <= radius ->
  create_radial_mask width height radius None falloff y x = 0.
Proof.
  intros Hd. unfold create_radial_mask.
  destruct (Rlt_dec 0 falloff) as [Hf|Hf].
  - rewrite clip_low; [apply float32_0|].
    apply Rmult_le_reg_r with falloff; [assumption|].
    unfold Rdiv. rewrite Rmult_assoc, Rinv_l by lra. lra.
  - destruct (Rlt_dec radius _); [lra|]. now rewrite !float32_0.
Qed.

Lemma radial_mask_outside (width height : Z) (radius falloff : R) (y x : Z) :
  0 < falloff -> radius + falloff <= dist width height None y x ->
  create_radial_mask width height radius None falloff y x = 1.
Proof.
  intros Hf Hd. unfold create_radial_mask.
  destruct (Rlt_dec 0 falloff); [|lra].
  rewrite clip_high; [apply float32_1|].
  apply Rmult_le_reg_r with falloff; [assumption|].
  unfold Rdiv. rewrite Rmult_assoc, Rinv_l by lra. lra.
Qed.

Lemma radial_mask_step (width height : Z) (radius falloff : R) (y x : Z) :
  falloff <= 0 -> radius < dist width height None y x ->
  create_radial_mask width height radius None falloff y x = 1.
Proof.
  intros Hf Hd. unfold create_radial_mask.
  destruct (Rlt_dec 0 falloff); [lra|].
  destruct (Rlt_dec radius _); [|lra]. now rewrite !float32_1.
Qed.

(** C6, as the code has it.  With a radial boost of radius at least 0: a
    pixel at distance 0 from the centre has multiplier exactly 1.  A pixel
    at distance at least radius + falloff with a positive falloff, or
    further than the radius with falloff 0 (or less), has the multiplier
    of the mask value 1, which the float32 mask makes
    [float32 (1 + float32 (radial_gain - 1))]: it is [radial_gain] when
    [radial_gain] and [radial_gain - 1] are binary32 numbers.  With
    falloff 0 (or less) the mask is the hard step, and a pixel at distance
    at most the radius, equality included, has multiplier 1. *)
Theorem radial_multiplier_bounds (cfg : config) (width height y x : Z)
    (radius : R) :
  radial_boost cfg = Some radius -> 0 <= radius ->
  (dist width height None y x = 0 ->
   radial_multiplier cfg width height y x = 1) /\
  (0 < falloff cfg -> radius + falloff cfg <= dist width height None y x ->
   radial_multiplier cfg width height y x
   = float32 (1 + float32 (radial_gain cfg - 1))) /\
  (falloff cfg <= 0 -> radius < dist width height None y x ->
   radial_multiplier cfg width height y x
   = float32 (1 + float32 (radial_gain cfg - 1))) /\
  (falloff cfg <= 0 -> dist width height None y x <= radius ->
   radial_multiplier cfg width height y x = 1) /\
  (is_float32 (radial_gain cfg) -> is_float32 (radial_gain cfg - 1) ->
   float32 (1 + float32 (radial_gain cfg - 1)) = radial_gain cfg).
Proof.
  intros Hr H0. unfold radial_multiplier. rewrite Hr.
  split; [|split; [|split; [|split]]].
  - intros Hd. rewrite radial_mask_inside by lra. apply boost_zero.
  - intros Hf Hd. rewrite radial_mask_outside by assumption. apply boost_one.
  - intros Hf Hd. rewrite radial_mask_step by assumption. apply boost_one.
  - intros Hf Hd. rewrite radial_mask_inside by assumption. apply boost_zero.
  - intros Hg Hg1. rewrite <- boost_one. now apply boost_one_exact.
Qed.

Lemma dist_400_right : dist 400 400 None 200 300 = 100.
Proof.
  unfold dist, center_of. cbn [fst snd].
  replace (IZR ((300 - 400 / 2) ^ 2 + (200 - 400 / 2) ^ 2)) with (100 * 100)
    by (vm_compute; lra).
  apply sqrt_square. lra.
Qed.

Lemma dist_400_far : dist 400 400 None 200 350 = 150.
Proof.
  unfold dist, center_of. cbn [fst snd].
  replace (IZR ((350 - 400 / 2) ^ 2 + (200 - 400 / 2) ^ 2)) with (150 * 150)
    by (vm_compute; lra).
  apply sqrt_square. lra.
Qed.

Lemma radial_multiplier_bounds_witness :
  radial_multiplier Examples.hard_edge_config 400 400 200 300 = 1 /\
  radial_multiplier Examples.soft_edge_config 400 400 200 350 = 2.
Proof.
  split.
  - apply (radial_multiplier_bounds Examples.hard_edge_config
             400 400 200 300 100 eq_refl); [lra|cbn; lra|].
    rewrite dist_400_right. lra.
  - destruct (radial_multiplier_bounds Examples.soft_edge_config
                400 400 200 350 100 eq_refl ltac:(lra))
      as (_ & Hout & _ & _ & Hexact).
    rewrite Hout; [|cbn; lra|rewrite dist_400_far; cbn; lra].
    apply Hexact.
    + apply (is_float32_Z 2). reflexivity.
    + exists 1%Z, 0%Z. split; [cbn; lra|]. split; [reflexivity|lia].
Defined.

(** C6, as stated, fails for a hard edge: with radius 100, falloff 0 and
    outer gain 2, the pixel 100 to the right of the centre is at distance
    radius + falloff, and its multiplier is 1, not the outer gain. *)
Lemma hard_edge_boundary_not_outer_gain :
  radial_boost Examples.hard_edge_config = Some 100 /\
  100 + falloff Examples.hard_edge_config <= dist 400 400 None 200 300 /\
  radial_multiplier Examples.hard_edge_config 400 400 200 300
  <> radial_gain Examples.hard_edge_config.
Proof.
  split; [reflexivity|]. rewrite dist_400_right.
  split; [cbn; lra|].
  unfold radial_multiplier. cbn [radial_boost Examples.hard_edge_config falloff
                                   radial_gain].
  rewrite radial_mask_inside by (rewrite dist_400_right; lra).
  rewrite boost_zero. lra.
Qed.

(** The float32 operations at the outer gain 1.1: [1.1 - 1] becomes
    13421773 / 2 ^ 27 and the sum with 1 becomes 9227469 / 2 ^ 23. *)
Lemma float32_tenth : float32 (1.1 - 1) = 13421773 / 134217728.
Proof.
  rewrite (float32_value _ (-3) 13421773); [simpl; lra|simpl; lra|lia|].
  simpl. lra.
Qed.

Lemma float32_outer_tenth :
  float32 (1 + float32 (1.1 - 1)) = 9227469 / 8388608.
Proof.
  rewrite float32_tenth.
  rewrite (float32_value _ 1 9227469); [simpl; lra|simpl; lra|lia|].
  simpl. lra.
Qed.

(** C6, as stated, also fails for an outer gain that is no binary32
    number: with radius 100, falloff 50 and outer gain 1.1, the pixel at
    distance 150 has the multiplier 1.10000002384185791015625. *)
Lemma fractional_gain_not_outer_gain :
  radial_boost Examples.fractional_gain_config = Some 100 /\
  100 + falloff Examples.fractional_gain_config <= dist 400 400 None 200 350 /\
  radial_multiplier Examples.fractional_gain_config 400 400 200 350
  = 9227469 / 8388608 /\
  radial_multiplier Examples.fractional_gain_config 400 400 200 350
  <> radial_gain Examples.fractional_gain_config.
Proof.
  split; [reflexivity|]. rewrite dist_400_far.
  split; [cbn; lra|].
  assert (E : radial_multiplier Examples.fractional_gain_config 400 400 200 350
              = 9227469 / 8388608).
  { unfold radial_multiplier.
    cbn [radial_boost Examples.fractional_gain_config falloff radial_gain].
    rewrite radial_mask_outside by (rewrite ?dist_400_far; lra).
    rewrite boost_one. apply float32_outer_tenth. }
  split; [exact E|]. rewrite E. cbn. lra.
Qed.

End PhotometricFacts.

(** ** The conversion as a whole *)

Module ConversionFacts.

Import png_hdr_analyzer hdr_convert Container BytesFacts WriterFacts
       PhotometricFacts.

Lemma pq_sample_range (cfg : config) (width height y x : nat) (s : R) :
  (0 < pq_sample cfg width height y x s <= 1)%R.
Proof. unfold pq_sample. apply linear_to_pq_range. Qed.

Lemma convert_pixel_in_range (cfg : config) (width height y x : nat) (p : pixel) :
  in_range (2 ^ 16) (convert_pixel cfg width height y x p).
Proof.
  destruct p as [[r g] b]. unfold convert_pixel, in_range.
  pose proof (fun v => proj2 (quantize_floor
                (pq_sample cfg width height y x (normalize v))
                ltac:(pose proof (pq_sample_range cfg width height y x
                                    (normalize v)); lra))) as H.
  pose proof (H r). pose proof (H g). pose proof (H b). lia.
Qed.

(** Whatever the configuration, the converted array is an array of 16-bit
    samples of the shape of the input. *)
Lemma convert_pixels_well_formed (cfg : config) (img : ndarray) :
  well_formed 16 (convert_pixels cfg img).
Proof.
  unfold well_formed, convert_pixels; cbn [nd_rows nd_height nd_width].
  split; [now rewrite length_map, length_seq|]. split.
  - apply Forall_forall. intros row Hrow. apply in_map_iff in Hrow.
    destruct Hrow as (y & <- & _). now rewrite length_map, length_seq.
  - apply Forall_forall. intros row Hrow. apply in_map_iff in Hrow.
    destruct Hrow as (y & <- & _).
    apply Forall_forall. intros p Hp. apply in_map_iff in Hp.
    destruct Hp as (x & <- & _). apply convert_pixel_in_range.
Qed.

Lemma convert_to_hdr_written (zlib : Zlib.codec) (img : ndarray) (cfg : config) :
  reference_hdr cfg = None ->
  Z.of_nat (nd_width img) < 2 ^ 32 -> Z.of_nat (nd_height img) < 2 ^ 32 ->
  exists file, convert_to_hdr zlib img cfg = Ok file.
Proof.
  intros Href Hw Hh. unfold convert_to_hdr. rewrite Href. cbn [bind].
  destruct (save_written zlib (convert_pixels cfg img) None
              (convert_pixels_well_formed cfg img))
    as (iccp & _ & _ & _ & _ & Hsave); try assumption.
  - intros p Hp. discriminate Hp.
  - eexists. exact Hsave.
Qed.

Lemma srgb_to_linear_nonneg (s : R) : (0 <= s -> 0 <= srgb_to_linear s)%R.
Proof.
  intros Hs. unfold srgb_to_linear.
  destruct (Rle_dec s 0.04045); [lra|apply power_nonneg].
Qed.

(** Without boosts, a gain of 0 or less sends every sample to the PQ code
    of black, which quantizes to 0. *)
Lemma pq_sample_nonpositive_gain (cfg : config) (width height y x : nat) (s : R) :
  radial_boost cfg = None -> mask_path cfg = None ->
  (gain cfg <= 0 -> 0 <= nits cfg -> 0 <= s ->
   pq_sample cfg width height y x s = pq_formula 0)%R.
Proof.
  intros Hr Hm Hg Hn Hs. unfold pq_sample. rewrite Hr, Hm.
  pose proof (srgb_to_linear_nonneg s Hs) as Hl.
  assert (Hp : (srgb_to_linear s * gain cfg <= 0)%R) by nra.
  assert (Hq : (0 <= nits cfg / 10000)%R) by lra.
  rewrite clip_low by nra.
  unfold linear_to_pq. now rewrite clip_low by lra.
Qed.

(** White and black samples under the default configuration: 65535 and 0. *)
Lemma quantize_white : quantize (linear_to_pq (srgb_to_linear 1)) = 65535.
Proof.
  assert (H1 : srgb_to_linear 1 = 1%R).
  { unfold srgb_to_linear. destruct (Rle_dec 1 0.04045); [lra|].
    replace ((1 + 0.055) / 1.055)%R with 1%R by lra. apply power_one. }
  rewrite H1, linear_to_pq_formula, pq_formula_one by lra.
  apply quantize_value; simpl; lra.
Qed.

Lemma quantize_black : quantize (pq_formula 0) = 0.
Proof.
  pose proof pq_formula_zero_bounds as H.
  apply quantize_value; simpl; lra.
Qed.

(** A mask of another size than the image is loaded as its resized
    image. *)
Lemma load_mask_image_resized (mask_img : gray_image) (width height y x : nat) :
  (im_width mask_img, im_height mask_img) <> (width, height) ->
  load_mask_image mask_img width height y x
  = float32 (IZR (byte_to_Z (im_resize mask_img width height y x)) / 255).
Proof.
  intros Hsize. unfold load_mask_image.
  destruct (Nat.eqb_spec (im_width mask_img) width) as [Ew|Ew];
    [|reflexivity].
  destruct (Nat.eqb_spec (im_height mask_img) height) as [Eh|Eh];
    [|reflexivity].
  exfalso. apply Hsize. now rewrite Ew, Eh.
Qed.

(** C2, as the code has it.  [convert_to_hdr] checks none of its
    parameters: for every gain, nits, radius, falloff and mask the pixel
    transform is total and gives 16-bit samples, and with no reference
    file the output is written whenever the dimensions fit their 32-bit
    fields.  The clip to [0,1] absorbs the out-of-domain values: without
    boosts, a gain of 0 or less gives the PQ code of black, quantized to
    0, for every sample.  A mask whose size differs from the size of the
    image is not refused either: [load_mask_image] takes the values of
    the image resized to the size of the input. *)
Theorem conversion_without_validation (zlib : Zlib.codec) (img : ndarray)
    (cfg : config) :
  reference_hdr cfg = None ->
  Z.of_nat (nd_width img) < 2 ^ 32 -> Z.of_nat (nd_height img) < 2 ^ 32 ->
  well_formed 16 (convert_pixels cfg img) /\
  (exists file, convert_to_hdr zlib img cfg = Ok file) /\
  (radial_boost cfg = None -> mask_path cfg = None ->
   (gain cfg <= 0)%R -> (0 <= nits cfg)%R ->
   forall y x s, (0 <= s)%R ->
     quantize (pq_sample cfg (nd_width img) (nd_height img) y x s) = 0) /\
  (forall mask_img, mask_path cfg = Some mask_img ->
   (im_width mask_img, im_height mask_img) <> (nd_width img, nd_height img) ->
   forall y x,
     mask_multiplier cfg (nd_width img) (nd_height img) y x
     = boost (float32 (IZR (byte_to_Z
                              (im_resize mask_img (nd_width img)
                                 (nd_height img) y x)) / 255))
             (mask_gain cfg)).
Proof.
  intros Href Hw Hh.
  split; [apply convert_pixels_well_formed|].
  split; [now apply convert_to_hdr_written|]. split.
  - intros Hr Hm Hg Hn y x s Hs.
    rewrite pq_sample_nonpositive_gain by assumption. apply quantize_black.
  - intros mask_img Hm Hsize y x. unfold mask_multiplier. rewrite Hm.
    now rewrite load_mask_image_resized.
Qed.

Lemma conversion_without_validation_witness :
  well_formed 16 (convert_pixels Examples.out_of_domain_config Examples.white_1x1) /\
  (exists file, convert_to_hdr Zlib.stored Examples.white_1x1
                  Examples.out_of_domain_config = Ok file) /\
  quantize (pq_sample Examples.out_of_domain_config 1 1 0 0 1) = 0 /\
  (exists file, convert_to_hdr Zlib.stored Examples.white_1x1
                  Examples.mismatched_mask_config = Ok file) /\
  mask_multiplier Examples.mismatched_mask_config 1 1 0 0
  = boost (float32 (IZR (byte_to_Z x80) / 255)) 100.
Proof.
  destruct (conversion_without_validation Zlib.stored Examples.white_1x1
              Examples.out_of_domain_config eq_refl)
    as (Hwf & Hfile & Hblack & _); [cbn; lia|cbn; lia|].
  destruct (conversion_without_validation Zlib.stored Examples.white_1x1
              Examples.mismatched_mask_config eq_refl)
    as (_ & Hfile' & _ & Hmask); [cbn; lia|cbn; lia|].
  split; [exact Hwf|]. split; [exact Hfile|]. split; [|split].
  - apply (Hblack eq_refl eq_refl); cbn; lra.
  - exact Hfile'.
  - apply (Hmask Examples.left_half_mask eq_refl). cbn. discriminate.
Defined.

(** C2, as stated, fails: with gain 0 and 20000 nits, both outside the
    documented domain, the conversion of a white pixel raises nothing; it
    writes a file whose pixel is black. *)
Lemma out_of_domain_conversion_succeeds :
  (gain Examples.out_of_domain_config <= 0)%R /\
  (nits Examples.out_of_domain_config > 10000)%R /\
  nd_rows (convert_pixels Examples.out_of_domain_config Examples.white_1x1)
  = [[(0, 0, 0)]] /\
  exists file, convert_to_hdr Zlib.stored Examples.white_1x1
                 Examples.out_of_domain_config = Ok file.
Proof.
  split; [cbn; lra|]. split; [cbn; lra|]. split.
  - unfold convert_pixels. cbn [nd_rows nd_width nd_height Examples.white_1x1
                                  seq map at_ nth convert_pixel].
    rewrite pq_sample_nonpositive_gain; try reflexivity; try (cbn; lra).
    + now rewrite quantize_black.
    + unfold normalize. lra.
  - apply convert_to_hdr_written; [reflexivity|cbn; lia|cbn; lia].
Qed.

End ConversionFacts.

(** ** The chunk decoders *)

Module DecoderFacts.

Import png_hdr_analyzer Container BytesFacts.

Lemma unpack_exact (sizes : list nat) (b : bytes) :
  length b = list_sum sizes -> unpack sizes b = Ok (split_fields sizes b).
Proof. intros H. unfold unpack. now rewrite H, Nat.eqb_refl. Qed.

Lemma unpack_other (sizes : list nat) (b : bytes) :
  length b <> list_sum sizes -> unpack sizes b = Raise StructError.
Proof.
  intros H. unfold unpack. apply Nat.eqb_neq in H. now rewrite H.
Qed.

Lemma be_value_bound (k : nat) (l : bytes) :
  (length l <= k)%nat -> 0 <= be_value l < 2 ^ (8 * Z.of_nat k).
Proof.
  intros H. pose proof (be_value_range l) as Hr.
  assert (2 ^ (8 * Z.of_nat (length l)) <= 2 ^ (8 * Z.of_nat k))
    by (apply Z.pow_le_mono_r; lia).
  lia.
Qed.

Lemma index_ok (data : bytes) (i : nat) :
  (i < length data)%nat -> exists v, index data i = Ok v /\ 0 <= v < 256.
Proof.
  intros H. unfold index. destruct (nth_error data i) as [b|] eqn:E.
  - exists (byte_to_Z b). split; [reflexivity|apply byte_to_Z_range].
  - apply nth_error_None in E. lia.
Qed.

Lemma index_out (data : bytes) (i : nat) :
  (length data <= i)%nat -> index data i = Raise IndexError.
Proof.
  intros H. unfold index. apply nth_error_None in H. now rewrite H.
Qed.

(** X1.  [parse_ihdr] by the size of the payload: under 8 bytes the
    dimensions cannot be unpacked (struct.error); from 8 to 12 bytes one of
    the five single-byte fields is missing (IndexError); from 13 bytes on
    the header is decoded from the first 13 bytes, with dimensions below
    2^32 and byte-sized fields, and what follows is ignored. *)
Theorem parse_ihdr_by_size (data : bytes) :
  ((length data < 8)%nat -> parse_ihdr data = Raise StructError) /\
  ((8 <= length data < 13)%nat -> parse_ihdr data = Raise IndexError) /\
  ((13 <= length data)%nat ->
   exists h, parse_ihdr data = Ok h /\
             parse_ihdr (firstn 13 data) = Ok h /\
             width h = be_value (firstn 4 data) /\
             height h = be_value (firstn 4 (skipn 4 data)) /\
             0 <= width h < 2 ^ 32 /\ 0 <= height h < 2 ^ 32 /\
             0 <= bit_depth h < 256 /\ 0 <= color_type h < 256).
Proof.
  split; [|split].
  - intros H. unfold parse_ihdr. rewrite unpack_other; [reflexivity|].
    rewrite length_firstn. change (list_sum [4; 4]%nat) with 8%nat. lia.
  - intros H. unfold parse_ihdr. rewrite unpack_exact
      by (rewrite length_firstn; change (list_sum [4; 4]%nat) with 8%nat; lia).
    cbn [bind].
    destruct (Nat.le_gt_cases (length data) 8) as [H8|H8];
      [now rewrite (index_out data 8)|].
    destruct (index_ok data 8 H8) as (v8 & -> & _). cbn [bind].
    destruct (Nat.le_gt_cases (length data) 9) as [H9|H9];
      [now rewrite (index_out data 9)|].
    destruct (index_ok data 9 H9) as (v9 & -> & _). cbn [bind].
    destruct (Nat.le_gt_cases (length data) 10) as [H10|H10];
      [now rewrite (index_out data 10)|].
    destruct (index_ok data 10 H10) as (v10 & -> & _). cbn [bind].
    destruct (Nat.le_gt_cases (length data) 11) as [H11|H11];
      [now rewrite (index_out data 11)|].
    destruct (index_ok data 11 H11) as (v11 & -> & _). cbn [bind].
    now rewrite (index_out data 12) by lia.
  - intros H.
    do 13 (destruct data as [|? data]; [simpl in H; lia|]).
    eexists. split; [reflexivity|]. split; [reflexivity|].
    cbn [width height bit_depth color_type]. unfold field, index.
    cbn [firstn skipn split_fields nth nth_error].
    repeat split; try reflexivity;
      try apply byte_to_Z_range;
      try (apply (be_value_bound 4); cbn; lia).
Qed.

Lemma parse_ihdr_by_size_witness :
  parse_ihdr [x00; x00; x00] = Raise StructError /\
  parse_ihdr (firstn 10 (c_data Examples.ihdr_4x4)) = Raise IndexError /\
  exists h, parse_ihdr (c_data Examples.ihdr_4x4 ++ [xff]) = Ok h /\
            parse_ihdr (firstn 13 (c_data Examples.ihdr_4x4 ++ [xff])) = Ok h.
Proof.
  split; [|split].
  - apply (parse_ihdr_by_size [x00; x00; x00]). cbn. lia.
  - apply (parse_ihdr_by_size (firstn 10 (c_data Examples.ihdr_4x4))). cbn. lia.
  - destruct (proj2 (proj2 (parse_ihdr_by_size (c_data Examples.ihdr_4x4 ++ [xff]))))
      as (h & H1 & H2 & _); [cbn; lia|].
    exists h. split; assumption.
Defined.

(** X2.  The decoders of a fixed format take a payload of exactly the size
    of the format: 4 bytes for gAMA, 32 for cHRM, 24 for mDCv, 8 for cLLi.
    Any other size, shorter or longer, raises struct.error. *)
Theorem fixed_size_decoders (data : bytes) :
  (length data = 4%nat -> is_ok (parse_gama data) = true) /\
  (length data <> 4%nat -> parse_gama data = Raise StructError) /\
  (length data = 32%nat -> is_ok (parse_chrm data) = true) /\
  (length data <> 32%nat -> parse_chrm data = Raise StructError) /\
  (length data = 24%nat -> is_ok (parse_mdcv data) = true) /\
  (length data <> 24%nat -> parse_mdcv data = Raise StructError) /\
  (length data = 8%nat -> is_ok (parse_clli data) = true) /\
  (length data <> 8%nat -> parse_clli data = Raise StructError).
Proof.
  unfold parse_gama, parse_chrm, parse_mdcv, parse_clli, unpack_I.
  repeat split; intros H;
    solve [ rewrite unpack_uint_length by assumption; reflexivity
          | rewrite unpack_exact by assumption; reflexivity
          | rewrite unpack_other by assumption; reflexivity
          | unfold unpack_uint; apply Nat.eqb_neq in H; now rewrite H ].
Qed.

Lemma fixed_size_decoders_witness :
  is_ok (parse_mdcv Examples.mdcv_payload) = true /\
  parse_mdcv Examples.mdcv_short = Raise StructError /\
  is_ok (parse_gama Examples.gama_payload) = true /\
  parse_gama Examples.clli_payload = Raise StructError /\
  is_ok (parse_clli Examples.clli_payload) = true /\
  is_ok (parse_chrm Examples.chrm_payload) = true.
Proof.
  split; [apply (fixed_size_decoders Examples.mdcv_payload); reflexivity|].
  split; [apply (fixed_size_decoders Examples.mdcv_short); cbn; lia|].
  split; [apply (fixed_size_decoders Examples.gama_payload); reflexivity|].
  split; [apply (fixed_size_decoders Examples.clli_payload); cbn; lia|].
  split; [apply (fixed_size_decoders Examples.clli_payload); reflexivity|].
  apply (fixed_size_decoders Examples.chrm_payload); reflexivity.
Defined.

Lemma IZR_bound (v hi : Z) : 0 <= v < hi -> (0 <= IZR v < IZR hi)%R.
Proof. intros [H0 H1]. split; [now apply IZR_le|now apply IZR_lt]. Qed.

(** X3.  The layout and the units of [parse_mdcv]: of a 24-byte payload
    the eight 2-byte fields at offsets 0 to 14 are the chromaticities red
    x, red y, green x, green y, blue x, blue y, white point x and white
    point y in units of 1/50000, and the two 4-byte fields at offsets 16
    and 20 are the maximum and minimum luminance in units of 1/10000 nit,
    so every chromaticity is below 1.31072 and every luminance below
    429496.7296. *)
Theorem parse_mdcv_layout (data : bytes) :
  length data = 24%nat ->
  exists m,
    parse_mdcv data = Ok m /\
    display_primaries_red_x m = (IZR (be_value (firstn 2 data)) / 50000)%R /\
    display_primaries_red_y m
    = (IZR (be_value (firstn 2 (skipn 2 data))) / 50000)%R /\
    display_primaries_green_x m
    = (IZR (be_value (firstn 2 (skipn 4 data))) / 50000)%R /\
    display_primaries_green_y m
    = (IZR (be_value (firstn 2 (skipn 6 data))) / 50000)%R /\
    display_primaries_blue_x m
    = (IZR (be_value (firstn 2 (skipn 8 data))) / 50000)%R /\
    display_primaries_blue_y m
    = (IZR (be_value (firstn 2 (skipn 10 data))) / 50000)%R /\
    mdcv_white_point_x m = (IZR (be_value (firstn 2 (skipn 12 data))) / 50000)%R /\
    mdcv_white_point_y m = (IZR (be_value (firstn 2 (skipn 14 data))) / 50000)%R /\
    max_luminance m = (IZR (be_value (firstn 4 (skipn 16 data))) / 10000)%R /\
    min_luminance m = (IZR (be_value (firstn 4 (skipn 20 data))) / 10000)%R /\
    (0 <= display_primaries_red_x m < 1.31072)%R /\
    (0 <= display_primaries_red_y m < 1.31072)%R /\
    (0 <= display_primaries_green_x m < 1.31072)%R /\
    (0 <= display_primaries_green_y m < 1.31072)%R /\
    (0 <= display_primaries_blue_x m < 1.31072)%R /\
    (0 <= display_primaries_blue_y m < 1.31072)%R /\
    (0 <= mdcv_white_point_x m < 1.31072)%R /\
    (0 <= mdcv_white_point_y m < 1.31072)%R /\
    (0 <= max_luminance m < 429496.7296)%R /\
    (0 <= min_luminance m < 429496.7296)%R.
Proof.
  intros H.
  do 24 (destruct data as [|? data]; [discriminate H|]).
  destruct data; [|discriminate H].
  eexists. split; [reflexivity|].
  cbn [display_primaries_red_x display_primaries_red_y
         display_primaries_green_x display_primaries_green_y
         display_primaries_blue_x display_primaries_blue_y
         mdcv_white_point_x mdcv_white_point_y max_luminance min_luminance].
  unfold field. cbn [split_fields firstn skipn nth].
  do 10 (split; [reflexivity|]).
  assert (H2 : forall p q : byte,
             (0 <= IZR (be_value [p; q]) / 50000 < 1.31072)%R).
  { intros p q.
    pose proof (IZR_bound _ _ (be_value_bound 2 [p; q] ltac:(cbn; lia))) as Hb.
    change (IZR (2 ^ (8 * Z.of_nat 2))) with 65536%R in Hb. lra. }
  assert (H4 : forall p q r t : byte,
             (0 <= IZR (be_value [p; q; r; t]) / 10000 < 429496.7296)%R).
  { intros p q r t.
    pose proof (IZR_bound _ _ (be_value_bound 4 [p; q; r; t]
                                 ltac:(cbn; lia))) as Hb.
    change (IZR (2 ^ (8 * Z.of_nat 4))) with 4294967296%R in Hb. lra. }
  repeat (split; [apply H2|]). split; apply H4.
Qed.

Lemma parse_mdcv_layout_witness :
  exists m, parse_mdcv Examples.mdcv_payload = Ok m /\
            max_luminance m = 1000%R /\ min_luminance m = (5 / 1000)%R /\
            mdcv_white_point_x m = (3127 / 10000)%R.
Proof.
  destruct (parse_mdcv_layout Examples.mdcv_payload eq_refl)
    as (m & Hm & _ & _ & _ & _ & _ & _ & Hwx & _ & Hmax & Hmin & _).
  exists m. split; [exact Hm|].
  rewrite Hmax, Hmin, Hwx.
  change (be_value (firstn 4 (skipn 16 Examples.mdcv_payload))) with 10000000.
  change (be_value (firstn 4 (skipn 20 Examples.mdcv_payload))) with 50.
  change (be_value (firstn 2 (skipn 12 Examples.mdcv_payload))) with 15635.
  repeat split; lra.
Defined.

(** X4.  The decoders that index single bytes.  [parse_cicp] needs four
    bytes and [parse_srgb] one (IndexError on less); more bytes are ignored,
    and no value of a field is an error: a code outside the tables gets a
    name of the form Unknown, and the range flag is limited for 0 and full
    for every other value. *)
Theorem byte_field_decoders (data : bytes) :
  ((length data < 4)%nat -> parse_cicp data = Raise IndexError) /\
  ((4 <= length data)%nat ->
   exists r, parse_cicp data = Ok r /\ parse_cicp (firstn 4 data) = Ok r /\
             (transfer_names (transfer_characteristics r) = None ->
              transfer_name r = unknown (transfer_characteristics r)) /\
             (video_full_range r = 0 ->
              full_range_name r = "Limited range (16-235)"%string) /\
             (video_full_range r <> 0 ->
              full_range_name r = "Full range (0-255)"%string)) /\
  (data = [] -> parse_srgb data = Raise IndexError) /\
  (data <> [] ->
   exists r, parse_srgb data = Ok r /\ parse_srgb (firstn 1 data) = Ok r /\
             (3 < rendering_intent r -> intent_name r = "Unknown"%string)).
Proof.
  split; [|split; [|split]].
  - intros H. unfold parse_cicp.
    destruct data as [|b0 [|b1 [|b2 [|b3 data]]]]; try reflexivity.
    simpl in H. lia.
  - intros H. do 4 (destruct data as [|? data]; [simpl in H; lia|]).
    eexists. split; [reflexivity|]. split; [reflexivity|].
    cbn [transfer_characteristics transfer_name video_full_range full_range_name].
    split; [|split].
    + unfold get. now intros ->.
    + intros ->. reflexivity.
    + intros Hne. apply Z.eqb_neq in Hne. now rewrite Hne.
  - intros ->. reflexivity.
  - intros Hne. destruct data as [|b data]; [contradiction|].
    eexists. split; [reflexivity|]. split; [reflexivity|].
    cbn [rendering_intent intent_name]. unfold get, index. cbn [nth_error].
    intros H3. pose proof (byte_to_Z_range b).
    destruct (byte_to_Z b) as [|[ | | ]|]; try reflexivity; try lia;
      destruct p; try reflexivity; lia.
Qed.

Lemma byte_field_decoders_witness :
  parse_cicp [x09; x10; x00] = Raise IndexError /\
  (exists r, parse_cicp [x09; xc8; x00; x02; xff] = Ok r /\
             transfer_name r = "Unknown (200)"%string /\
             full_range_name r = "Full range (0-255)"%string) /\
  exists r, parse_srgb [x07] = Ok r /\ intent_name r = "Unknown"%string.
Proof.
  split; [|split].
  - apply (byte_field_decoders [x09; x10; x00]). cbn. lia.
  - destruct (proj1 (proj2 (byte_field_decoders [x09; xc8; x00; x02; xff])))
      as (r & Hr & _ & Hname & _ & Hfull); [cbn; lia|].
    exists r. split; [exact Hr|].
    injection Hr as <-. split; [reflexivity|]. apply Hfull. discriminate.
  - destruct (proj2 (proj2 (proj2 (byte_field_decoders [x07]))))
      as (r & Hr & _ & Hname); [discriminate|].
    exists r. split; [exact Hr|]. apply Hname.
    injection Hr as <-. reflexivity.
Defined.

End DecoderFacts.

(** ** The embedded profile, decoded and written *)

Module ProfileFacts.

Import png_hdr_analyzer hdr_convert Container BytesFacts ReaderFacts
       WriterFacts ExtractFacts DecoderFacts.

Section WithZlib.

Variable zlib : Zlib.codec.

Lemma index_nul_none (name : bytes) :
  ~ In x00 name -> index_nul name = Raise ValueError.
Proof.
  induction name as [|b name IH]; intros Hn; [reflexivity|].
  cbn [index_nul]. destruct (Byte.eqb b x00) eqn:E.
  - apply Byte.byte_dec_bl in E. subst b. exfalso. apply Hn. now left.
  - rewrite IH; [reflexivity|]. intros Hin. apply Hn. now right.
Qed.

Lemma index_after_name (name rest : bytes) (method : byte) :
  index (name ++ x00 :: method :: rest) (length name + 1) = Ok (byte_to_Z method).
Proof.
  unfold index. rewrite nth_error_app2 by lia.
  replace (length name + 1 - length name)%nat with 1%nat by lia. reflexivity.
Qed.

Lemma parse_iccp_named (name compressed : bytes) (method : byte) :
  ~ In x00 name ->
  parse_iccp zlib (name ++ x00 :: method :: compressed) =
  Ok (match Zlib.decompress zlib compressed with
      | Ok profile =>
          IccpDecoded (decode_latin1 name) (byte_to_Z method)
            (Z.of_nat (length compressed)) (Z.of_nat (length profile))
            (if (128 <=? length profile)%nat
             then Some (parse_icc_header profile) else None)
      | Raise e => IccpFailed (decode_latin1 name) (byte_to_Z method) e
      end).
Proof.
  intros Hn. unfold parse_iccp.
  rewrite index_nul_name by assumption. cbn [bind].
  rewrite index_after_name. cbn [bind].
  replace (name ++ x00 :: method :: compressed)
    with ((name ++ [x00; method]) ++ compressed) by (now rewrite <- app_assoc).
  rewrite skipn_exact by (rewrite length_app; reflexivity).
  rewrite <- app_assoc. rewrite firstn_exact by reflexivity.
  now destruct (Zlib.decompress zlib compressed).
Qed.

(** X5.  The outcomes of [parse_iccp] for a payload whose name has no NUL:
    without the terminating NUL the search raises ValueError; with nothing
    behind the NUL the compression-method byte is missing (IndexError);
    otherwise the decoder returns a record whatever the method byte is:
    when the rest does not inflate, the record carries the error instead
    of raising, and when it does, the sizes, with the header fields only
    for a profile of at least 128 bytes. *)
Theorem parse_iccp_outcomes (name compressed : bytes) (method : byte) :
  ~ In x00 name ->
  parse_iccp zlib name = Raise ValueError /\
  parse_iccp zlib (name ++ [x00]) = Raise IndexError /\
  (forall e, Zlib.decompress zlib compressed = Raise e ->
     parse_iccp zlib (name ++ x00 :: method :: compressed)
     = Ok (IccpFailed (decode_latin1 name) (byte_to_Z method) e)) /\
  (forall profile, Zlib.decompress zlib compressed = Ok profile ->
     exists info,
       parse_iccp zlib (name ++ x00 :: method :: compressed)
       = Ok (IccpDecoded (decode_latin1 name) (byte_to_Z method)
               (Z.of_nat (length compressed)) (Z.of_nat (length profile)) info) /\
       ((length profile < 128)%nat -> info = None) /\
       ((128 <= length profile)%nat -> info = Some (parse_icc_header profile))).
Proof.
  intros Hn. split; [|split; [|split]].
  - unfold parse_iccp. now rewrite index_nul_none.
  - unfold parse_iccp. rewrite index_nul_name by assumption. cbn [bind].
    rewrite index_out; [reflexivity|]. rewrite length_app. cbn. lia.
  - intros e He. rewrite parse_iccp_named by assumption. now rewrite He.
  - intros profile Hp. eexists. rewrite parse_iccp_named by assumption.
    rewrite Hp. split; [reflexivity|]. split; intros H.
    + apply Nat.leb_gt in H. now rewrite H.
    + apply Nat.leb_le in H. now rewrite H.
Qed.

End WithZlib.

Lemma parse_iccp_outcomes_witness :
  parse_iccp Zlib.stored [x73; x52; x47; x42] = Raise ValueError /\
  parse_iccp Zlib.stored [x73; x52; x47; x42; x00] = Raise IndexError /\
  parse_iccp Zlib.stored [x73; x52; x47; x42; x00; x07; xff]
  = Ok (IccpFailed "sRGB" 7 ZlibError) /\
  parse_iccp Zlib.stored (c_data Examples.iccp_srgb)
  = Ok (IccpDecoded "sRGB" 0 4 2 None).
Proof.
  assert (Hn : ~ In x00 [x73; x52; x47; x42])
    by (cbn; intuition discriminate).
  split; [apply (parse_iccp_outcomes Zlib.stored _ [] x00 Hn)|].
  split; [apply (parse_iccp_outcomes Zlib.stored _ [] x00 Hn)|].
  split.
  - apply (proj1 (proj2 (proj2
             (parse_iccp_outcomes Zlib.stored _ [xff] x07 Hn)))).
    reflexivity.
  - destruct (proj2 (proj2 (proj2
               (parse_iccp_outcomes Zlib.stored _
                  (Zlib.compress Zlib.stored Examples.profile_2 9) x00 Hn)))
               Examples.profile_2 eq_refl) as (info & Hp & Hshort & _).
    rewrite (Hshort ltac:(cbn; lia)) in Hp. exact Hp.
Defined.

End ProfileFacts.

(** ** The files the converter writes *)

Module WrittenFacts.

Import png_hdr_analyzer hdr_convert Container BytesFacts ReaderFacts
       WriterFacts ExtractFacts ProfileFacts.

Lemma chunk_stream_app (a b : list chunk) :
  chunk_stream (a ++ b) = chunk_stream a ++ chunk_stream b.
Proof. unfold chunk_stream. now rewrite map_app, concat_app. Qed.

Lemma iccp_records_valid (zlib : Zlib.codec) (icc_profile : option bytes) :
  (forall p, icc_profile = Some p ->
             8 + Z.of_nat (length (Zlib.compress zlib p 9)) < 2 ^ 32) ->
  Forall valid_chunk (iccp_records zlib icc_profile) /\
  Forall not_iend (iccp_records zlib icc_profile).
Proof.
  intros Hfit. split.
  - destruct icc_profile as [[|b p]|]; try constructor; [|constructor].
    specialize (Hfit (b :: p) eq_refl).
    apply valid_record; try reflexivity.
    rewrite !length_app.
    change (length (encode_ascii "PQ HDR")) with 6%nat. cbn [length]. lia.
  - destruct icc_profile as [[|b p]|]; try constructor; [|constructor].
    unfold not_iend. cbn. discriminate.
Qed.

Lemma chunk_stream_cons (c : chunk) (cs : list chunk) :
  chunk_stream (c :: cs) = chunk_bytes c ++ chunk_stream cs.
Proof. reflexivity. Qed.

Lemma chunk_stream_written (zlib : Zlib.codec) (a : ndarray)
    (icc_profile : option bytes) :
  chunk_stream (written_chunks zlib a icc_profile) =
  chunk_bytes (record "IHDR" (be_bytes 4 (Z.of_nat (nd_width a))
                                ++ be_bytes 4 (Z.of_nat (nd_height a))
                                ++ [x10; x02; x00; x00; x00]))
    ++ chunk_stream (iccp_records zlib icc_profile)
    ++ chunk_stream (idat_records zlib a)
    ++ chunk_bytes (record "IEND" []).
Proof.
  unfold written_chunks.
  rewrite chunk_stream_app, chunk_stream_cons, chunk_stream_app, chunk_stream_cons.
  change (chunk_stream []) with (@nil byte).
  now rewrite app_nil_r, <- !app_assoc.
Qed.

(** The bytes [save_16bit_png_with_icc] writes are the signature and the
    records of [written_chunks], one after the other. *)
Lemma save_layout (zlib : Zlib.codec) (buffer : ndarray)
    (icc_profile : option bytes) :
  well_formed 16 buffer ->
  Z.of_nat (nd_width buffer) < 2 ^ 32 ->
  Z.of_nat (nd_height buffer) < 2 ^ 32 ->
  (forall p, icc_profile = Some p ->
             8 + Z.of_nat (length (Zlib.compress zlib p 9)) < 2 ^ 32) ->
  save_16bit_png_with_icc zlib buffer icc_profile =
  Ok (png_signature ++ chunk_stream (written_chunks zlib buffer icc_profile)).
Proof.
  intros Hwf Hw Hh Hfit.
  assert (Hiccp :
    match icc_profile with
    | Some (b :: p) =>
        make_chunk (encode_ascii "iCCP")
          ((encode_ascii "PQ HDR" ++ [x00]) ++ [x00]
             ++ Zlib.compress zlib (b :: p) 9)
    | _ => Ok []
    end = Ok (chunk_stream (iccp_records zlib icc_profile))).
  { destruct icc_profile as [[|b p]|]; try reflexivity.
    specialize (Hfit (b :: p) eq_refl).
    rewrite make_chunk_record.
    - unfold chunk_stream. cbn [iccp_records map concat]. now rewrite app_nil_r.
    - rewrite !length_app.
      change (length (encode_ascii "PQ HDR")) with 6%nat. cbn [length]. lia. }
  unfold save_16bit_png_with_icc, pack_I.
  rewrite !pack_uint_ok by (change (2 ^ (8 * Z.of_nat 4)) with (2 ^ 32); lia).
  cbn [bind]. rewrite Hiccp. cbn [bind].
  rewrite scanlines_ok by assumption. cbn [bind].
  rewrite idat_chunks_ok. cbn [bind].
  rewrite !make_chunk_record by (cbn; lia). cbn [bind].
  rewrite chunk_stream_written. unfold idat_records. reflexivity.
Qed.

Lemma written_chunks_valid (zlib : Zlib.codec) (buffer : ndarray)
    (icc_profile : option bytes) :
  Z.of_nat (nd_width buffer) < 2 ^ 32 ->
  Z.of_nat (nd_height buffer) < 2 ^ 32 ->
  (forall p, icc_profile = Some p ->
             8 + Z.of_nat (length (Zlib.compress zlib p 9)) < 2 ^ 32) ->
  Forall valid_chunk
    (record "IHDR" (be_bytes 4 (Z.of_nat (nd_width buffer))
                      ++ be_bytes 4 (Z.of_nat (nd_height buffer))
                      ++ [x10; x02; x00; x00; x00])
       :: iccp_records zlib icc_profile ++ idat_records zlib buffer) /\
  Forall not_iend
    (record "IHDR" (be_bytes 4 (Z.of_nat (nd_width buffer))
                      ++ be_bytes 4 (Z.of_nat (nd_height buffer))
                      ++ [x10; x02; x00; x00; x00])
       :: iccp_records zlib icc_profile ++ idat_records zlib buffer).
Proof.
  intros Hw Hh Hfit.
  destruct (iccp_records_valid zlib icc_profile Hfit) as [Hiv Hin].
  destruct (idat_records_valid
              (Zlib.compress zlib (concat (map scanline_bytes (nd_rows buffer))) 9))
    as [Hdv Hdn].
  split.
  - constructor; [apply valid_record; try reflexivity; cbn; lia|].
    apply Forall_app. split; assumption.
  - constructor; [unfold not_iend; cbn; discriminate|].
    apply Forall_app. split; assumption.
Qed.

Lemma read_written (zlib : Zlib.codec) (buffer : ndarray)
    (icc_profile : option bytes) :
  Z.of_nat (nd_width buffer) < 2 ^ 32 ->
  Z.of_nat (nd_height buffer) < 2 ^ 32 ->
  (forall p, icc_profile = Some p ->
             8 + Z.of_nat (length (Zlib.compress zlib p 9)) < 2 ^ 32) ->
  read_png_chunks
    (png_signature ++ chunk_stream (written_chunks zlib buffer icc_profile))
  = Ok (written_chunks zlib buffer icc_profile).
Proof.
  intros Hw Hh Hfit.
  destruct (written_chunks_valid zlib buffer icc_profile Hw Hh Hfit) as [Hv Hn].
  unfold written_chunks. rewrite chunk_stream_app.
  change (chunk_stream [record "IEND" []])
    with (chunk_bytes (record "IEND" []) ++ []).
  apply read_png_chunks_to_iend; try assumption.
  - apply valid_record; reflexivity.
  - reflexivity.
Qed.

Lemma written_chunks_checksummed (zlib : Zlib.codec) (buffer : ndarray)
    (icc_profile : option bytes) :
  Forall checksummed (written_chunks zlib buffer icc_profile).
Proof.
  unfold written_chunks. apply Forall_app. split; [|repeat constructor].
  constructor; [split; reflexivity|]. apply Forall_app. split.
  - destruct icc_profile as [[|b p]|]; repeat constructor.
  - unfold idat_records. apply Forall_forall. intros c Hc.
    apply in_map_iff in Hc. destruct Hc as (d & <- & _). split; reflexivity.
Qed.

(** X6.  The layout of a written file.  For a 16-bit array whose dimensions
    fit 32 bits (and a profile that fits its chunk), the writer succeeds and
    the reader reads the file back as exactly these records, in this order:
    the IHDR record, one iCCP record named PQ HDR if a non-empty profile was
    given and none otherwise, the IDAT records, the IEND record with an
    empty payload.  Every record has the CRC-32 of its tag and payload as
    checksum and the payload size as length. *)
Theorem written_file_layout (zlib : Zlib.codec) (buffer : ndarray)
    (icc_profile : option bytes) :
  well_formed 16 buffer ->
  Z.of_nat (nd_width buffer) < 2 ^ 32 ->
  Z.of_nat (nd_height buffer) < 2 ^ 32 ->
  (forall p, icc_profile = Some p ->
             8 + Z.of_nat (length (Zlib.compress zlib p 9)) < 2 ^ 32) ->
  exists file,
    save_16bit_png_with_icc zlib buffer icc_profile = Ok file /\
    read_png_chunks file = Ok (written_chunks zlib buffer icc_profile) /\
    Forall checksummed (written_chunks zlib buffer icc_profile) /\
    map c_type (written_chunks zlib buffer icc_profile) =
    ("IHDR" :: map (fun _ => "iCCP") (iccp_records zlib icc_profile)
       ++ map (fun _ => "IDAT") (idat_records zlib buffer) ++ ["IEND"])%string /\
    (length (iccp_records zlib icc_profile) =
     match icc_profile with Some (_ :: _) => 1 | _ => 0 end)%nat.
Proof.
  intros Hwf Hw Hh Hfit. eexists.
  split; [now apply save_layout|].
  split; [now apply read_written|].
  split; [apply written_chunks_checksummed|]. split.
  - unfold written_chunks. rewrite map_app. cbn [map]. rewrite map_app.
    cbn [app]. rewrite <- app_assoc. cbn [c_type record].
    f_equal. f_equal; [|f_equal].
    + destruct icc_profile as [[|b p]|]; reflexivity.
    + unfold idat_records. rewrite !map_map. reflexivity.
  - destruct icc_profile as [[|b p]|]; reflexivity.
Qed.

Lemma written_file_layout_witness :
  exists file,
    save_16bit_png_with_icc Zlib.stored Examples.image_2x1
      (Some Examples.profile_2) = Ok file /\
    read_png_chunks file
    = Ok (written_chunks Zlib.stored Examples.image_2x1 (Some Examples.profile_2)) /\
    map c_type (written_chunks Zlib.stored Examples.image_2x1
                  (Some Examples.profile_2))
    = ["IHDR"; "iCCP"; "IDAT"; "IEND"]%string.
Proof.
  destruct (written_file_layout Zlib.stored Examples.image_2x1
              (Some Examples.profile_2))
    as (file & Hsave & Hread & _ & Htypes & _).
  - unfold well_formed. cbn. repeat constructor; lia.
  - cbn. lia.
  - cbn. lia.
  - intros p Hp. injection Hp as <-. cbn. lia.
  - exists file. split; [exact Hsave|]. split; [exact Hread|].
    rewrite Htypes. vm_compute. reflexivity.
Defined.

(** *** The IDAT payloads *)

Lemma div_up_bounds (n s : nat) :
  (0 < s)%nat ->
  (n <= (n + s - 1) / s * s /\ ((n + s - 1) / s * s < n + s))%nat.
Proof.
  intros Hs.
  pose proof (Nat.div_mod_eq (n + s - 1) s) as Hd.
  pose proof (Nat.mod_upper_bound (n + s - 1) s ltac:(lia)) as Hm.
  nia.
Qed.

Lemma pieces_nth (data : bytes) (i : nat) :
  (i < length (pieces data))%nat ->
  nth i (pieces data) [] = firstn chunk_size (skipn (i * chunk_size) data).
Proof.
  unfold pieces, range_step. rewrite !length_map, length_seq. intros Hi.
  rewrite map_map.
  rewrite (nth_indep _ [] (firstn chunk_size (skipn (0 * chunk_size) data)))
    by now rewrite length_map, length_seq.
  rewrite (map_nth (fun k => firstn chunk_size (skipn (k * chunk_size) data))).
  now rewrite seq_nth.
Qed.

Lemma length_pieces (data : bytes) :
  length (pieces data) = ((length data + chunk_size - 1) / chunk_size)%nat.
Proof. unfold pieces, range_step. now rewrite !length_map, length_seq. Qed.

(** X7.  The split into IDAT chunks never fails and cuts the compressed data
    into consecutive payloads of [chunk_size] = 8192 bytes, the last one
    shorter when the size is no multiple: the payloads concatenate to the
    data, there are ceil(size / 8192) of them (none for empty data), none is
    empty or longer than 8192 bytes, and all but the last have exactly 8192
    bytes. *)
Theorem idat_split (data : bytes) :
  idat_chunks data = Ok (chunk_stream (map (record "IDAT") (pieces data))) /\
  concat (pieces data) = data /\
  Z.of_nat (length (pieces data)) = (Z.of_nat (length data) + 8191) / 8192 /\
  Forall (fun d => 0 < Z.of_nat (length d) <= 8192) (pieces data) /\
  (forall i, (S i < length (pieces data))%nat ->
             Z.of_nat (length (nth i (pieces data) [])) = 8192).
Proof.
  pose proof chunk_size_pos as Hs.
  assert (Hc : Z.of_nat chunk_size = 8192) by (unfold chunk_size; lia).
  pose proof (div_up_bounds (length data) chunk_size Hs) as [Hlo Hhi].
  pose proof (length_pieces data) as Hlen.
  split; [apply idat_chunks_ok|]. split; [apply concat_pieces|].
  unfold bytes in *.
  split; [|split].
  - rewrite Hlen. rewrite Nat2Z.inj_div, Nat2Z.inj_sub, Nat2Z.inj_add by lia.
    rewrite Hc. f_equal. lia.
  - apply Forall_forall. intros d Hd.
    apply (In_nth _ _ []) in Hd. destruct Hd as (i & Hi & <-).
    rewrite pieces_nth by assumption.
    rewrite length_firstn, length_skipn. rewrite Hlen in Hi.
    set (q := ((length data + chunk_size - 1) / chunk_size)%nat) in *.
    clearbody q.
    assert (Ha : Z.of_nat (i * chunk_size) = Z.of_nat i * 8192)
      by (rewrite Nat2Z.inj_mul, Hc; ring).
    assert (Hb : Z.of_nat (q * chunk_size) = Z.of_nat q * 8192)
      by (rewrite Nat2Z.inj_mul, Hc; ring).
    generalize dependent (i * chunk_size)%nat.
    generalize dependent (q * chunk_size)%nat.
    generalize dependent chunk_size. intros. lia.
  - intros i Hi. rewrite pieces_nth by (unfold bytes; lia).
    rewrite length_firstn, length_skipn. rewrite Hlen in Hi.
    set (q := ((length data + chunk_size - 1) / chunk_size)%nat) in *.
    clearbody q.
    assert (Ha : Z.of_nat (i * chunk_size) = Z.of_nat i * 8192)
      by (rewrite Nat2Z.inj_mul, Hc; ring).
    assert (Hb : Z.of_nat (q * chunk_size) = Z.of_nat q * 8192)
      by (rewrite Nat2Z.inj_mul, Hc; ring).
    generalize dependent (i * chunk_size)%nat.
    generalize dependent (q * chunk_size)%nat.
    generalize dependent chunk_size. intros. lia.
Qed.

Lemma idat_split_witness :
  length (pieces (repeat x00 (Z.to_nat 8193))) = 2%nat /\
  Z.of_nat (length (nth 0 (pieces (repeat x00 (Z.to_nat 8193))) [])) = 8192.
Proof.
  split; [vm_compute; reflexivity|].
  apply (proj2 (proj2 (proj2 (proj2
           (idat_split (repeat x00 (Z.to_nat 8193))))))).
  vm_compute. apply le_n.
Defined.

(** *** From the writer to the extractor and to the analyzer *)

Lemma idat_records_not_iccp (zlib : Zlib.codec) (a : ndarray) :
  Forall not_iccp (idat_records zlib a).
Proof.
  unfold idat_records. apply Forall_forall. intros c Hc.
  apply in_map_iff in Hc. destruct Hc as (d & <- & _).
  unfold not_iccp. cbn. discriminate.
Qed.

Lemma pq_hdr_name : ~ In x00 (encode_ascii "PQ HDR").
Proof. cbn. intuition discriminate. Qed.

(** What [extract_icc_profile] finds in the bytes of [written_chunks]. *)
Lemma extract_written (zlib : Zlib.codec) (buffer : ndarray)
    (icc_profile : option bytes) :
  Zlib.lossless zlib ->
  Z.of_nat (nd_width buffer) < 2 ^ 32 ->
  Z.of_nat (nd_height buffer) < 2 ^ 32 ->
  (forall p, icc_profile = Some p ->
             8 + Z.of_nat (length (Zlib.compress zlib p 9)) < 2 ^ 32) ->
  extract_icc_profile zlib
    (png_signature ++ chunk_stream (written_chunks zlib buffer icc_profile)) =
  Ok (match icc_profile with
      | Some (b :: p) => Some ("PQ HDR"%string, b :: p)
      | _ => None
      end).
Proof.
  intros Hz Hw Hh Hfit.
  destruct (written_chunks_valid zlib buffer icc_profile Hw Hh Hfit) as [Hv Hn].
  rewrite chunk_stream_written.
  set (ihdr := record "IHDR" _) in *.
  inversion Hv as [|? ? Hvi Hv']; subst. inversion Hn as [|? ? Hni Hn']; subst.
  apply Forall_app in Hv'. destruct Hv' as [Hvp Hvd].
  apply Forall_app in Hn'. destruct Hn' as [Hnp Hnd].
  apply extract_signature.
  assert (Hend : forall fuel,
             extract_loop zlib (S fuel) (chunk_bytes (record "IEND" []) ++ [])
             = Some (Ok None)).
  { intros fuel. rewrite extract_loop_chunk by (apply valid_record; reflexivity).
    reflexivity. }
  destruct icc_profile as [[|b p]|].
  - (* an empty profile *)
    cbn [iccp_records]. change (chunk_stream []) with (@nil byte). cbn [app].
    apply extract_loop_mono
      with (fuel := (length (ihdr :: idat_records zlib buffer) + 1)%nat).
    + rewrite <- (app_nil_r (chunk_bytes (record "IEND" []))).
      rewrite app_assoc, <- chunk_stream_cons.
      apply extract_loop_stream;
        [ constructor; assumption
        | constructor;
          [unfold not_iccp; cbn; discriminate|apply idat_records_not_iccp]
        | constructor; assumption
        | apply Hend ].
    + pose proof (length_chunk_stream (ihdr :: idat_records zlib buffer)) as Hl.
      rewrite chunk_stream_cons in Hl. unfold bytes in *.
      rewrite !length_app in *. cbn [length] in *. lia.
  - (* a profile *)
    apply extract_loop_mono with (fuel := 2%nat).
    + rewrite extract_loop_chunk by assumption.
      change (String.eqb (c_type ihdr) "iCCP") with false.
      change (String.eqb (c_type ihdr) "IEND") with false. cbv iota.
      cbn [iccp_records]. rewrite chunk_stream_cons, <- app_assoc.
      inversion Hvp; subst.
      rewrite extract_loop_chunk by assumption.
      cbn [c_type record]. change (String.eqb "iCCP" "iCCP") with true. cbv iota.
      cbn [c_data record]. rewrite <- !app_assoc. cbn [app].
      rewrite index_nul_name by apply pq_hdr_name. cbn [bind].
      change (encode_ascii "PQ HDR" ++ x00 :: x00 :: ?l)
        with ((encode_ascii "PQ HDR" ++ [x00; x00]) ++ l).
      rewrite skipn_exact by reflexivity.
      rewrite Hz. cbn [bind]. rewrite <- app_assoc.
      rewrite firstn_exact by reflexivity. reflexivity.
    + rewrite length_app. change (length png_signature) with 8%nat. lia.
  - (* no profile *)
    cbn [iccp_records]. change (chunk_stream []) with (@nil byte). cbn [app].
    apply extract_loop_mono
      with (fuel := (length (ihdr :: idat_records zlib buffer) + 1)%nat).
    + rewrite <- (app_nil_r (chunk_bytes (record "IEND" []))).
      rewrite app_assoc, <- chunk_stream_cons.
      apply extract_loop_stream;
        [ constructor; assumption
        | constructor;
          [unfold not_iccp; cbn; discriminate|apply idat_records_not_iccp]
        | constructor; assumption
        | apply Hend ].
    + pose proof (length_chunk_stream (ihdr :: idat_records zlib buffer)) as Hl.
      rewrite chunk_stream_cons in Hl. unfold bytes in *.
      rewrite !length_app in *. cbn [length] in *. lia.
Qed.

(** X8.  From the writer to the extractor.  When the writer is given a
    non-empty profile, [extract_icc_profile] on the written file returns
    the name PQ HDR and, for a lossless codec, the very bytes of the
    profile; when it is given no profile or an empty one, the extractor
    finds none. *)
Theorem profile_round_trip (zlib : Zlib.codec) (buffer : ndarray)
    (icc_profile : option bytes) :
  Zlib.lossless zlib ->
  well_formed 16 buffer ->
  Z.of_nat (nd_width buffer) < 2 ^ 32 ->
  Z.of_nat (nd_height buffer) < 2 ^ 32 ->
  (forall p, icc_profile = Some p ->
             8 + Z.of_nat (length (Zlib.compress zlib p 9)) < 2 ^ 32) ->
  exists file,
    save_16bit_png_with_icc zlib buffer icc_profile = Ok file /\
    extract_icc_profile zlib file =
    Ok (match icc_profile with
        | Some (b :: p) => Some ("PQ HDR"%string, b :: p)
        | _ => None
        end).
Proof.
  intros Hz Hwf Hw Hh Hfit. eexists.
  split; [now apply save_layout|now apply extract_written].
Qed.

Lemma profile_round_trip_witness :
  exists file,
    save_16bit_png_with_icc Zlib.stored Examples.image_2x1
      (Some Examples.profile_2) = Ok file /\
    extract_icc_profile Zlib.stored file
    = Ok (Some ("PQ HDR"%string, Examples.profile_2)).
Proof.
  apply (profile_round_trip Zlib.stored Examples.image_2x1
           (Some Examples.profile_2)).
  - intros data level. reflexivity.
  - unfold well_formed. cbn. repeat constructor; lia.
  - cbn. lia.
  - cbn. lia.
  - intros p Hp. injection Hp as <-. cbn. lia.
Defined.

End WrittenFacts.

(** ** The analyzer on whole streams *)

Module StreamFacts.

Import png_hdr_analyzer hdr_convert Container BytesFacts ReaderFacts
       WriterFacts ExtractFacts ProfileFacts WrittenFacts AnalyzerFacts.

Section WithZlib.

Variable zlib : Zlib.codec.

Lemma analyze_loop_app_eq (pre post : list chunk) :
  forall info,
    analyze_loop zlib info (pre ++ post) =
    (mid <- analyze_loop zlib info pre ;; analyze_loop zlib mid post).
Proof.
  induction pre as [|c pre IH]; intros info; [reflexivity|].
  cbn [app analyze_loop].
  destruct (analyze_chunk zlib info c) as [info'|e]; [apply IH|reflexivity].
Qed.

Lemma mapM_exists {A B : Type} (f : A -> result B) (l : list A) :
  (forall a, In a l -> exists b, f a = Ok b) -> exists bs, mapM f l = Ok bs.
Proof.
  induction l as [|a l IH]; intros H; [now exists []|].
  destruct (H a (or_introl eq_refl)) as [b Hb].
  destruct IH as [bs Hbs]; [intros; apply H; now right|].
  exists (b :: bs). cbn [mapM]. now rewrite Hb, Hbs.
Qed.

Lemma analyze_idat_records (a : ndarray) (info : hdr_info) :
  analyze_loop zlib info (idat_records zlib a) = Ok info.
Proof.
  unfold idat_records. induction (pieces _) as [|d l IH]; [reflexivity|].
  cbn [map analyze_loop]. exact IH.
Qed.

Lemma analyze_iccp_records (icc_profile : option bytes) (info : hdr_info) :
  analyze_loop zlib info (iccp_records zlib icc_profile) = Ok info.
Proof.
  destruct icc_profile as [[|b p]|]; try reflexivity.
  cbn [iccp_records analyze_loop]. unfold analyze_chunk.
  cbn [c_type c_data record].
  change (String.eqb "iCCP" "IHDR") with false.
  change (String.eqb "iCCP" "gAMA") with false.
  change (String.eqb "iCCP" "cHRM") with false.
  change (String.eqb "iCCP" "sRGB") with false.
  change (String.eqb "iCCP" "cICP") with false.
  change (String.eqb "iCCP" "iCCP") with true. cbv iota.
  rewrite <- !app_assoc. cbn [app].
  rewrite parse_iccp_named by apply pq_hdr_name. reflexivity.
Qed.

Lemma list_written_chunks (a : ndarray) (icc_profile : option bytes) :
  exists bs, mapM list_chunk (written_chunks zlib a icc_profile) = Ok bs.
Proof.
  apply mapM_exists. intros c Hc. unfold written_chunks in Hc.
  apply in_app_or in Hc. destruct Hc as [[<-|Hc]|[<-|[]]];
    try (eexists; reflexivity).
  apply in_app_or in Hc. destruct Hc as [Hc|Hc].
  - destruct icc_profile as [[|b p]|]; try contradiction.
    destruct Hc as [<-|[]]. eexists; reflexivity.
  - unfold idat_records in Hc. apply in_map_iff in Hc.
    destruct Hc as (d & <- & _). eexists; reflexivity.
Qed.

(** X9.  From the writer to the analyzer.  Every file the writer produces
    is analysed without error, with or without an embedded profile and
    whatever the codec does to the profile, and its summary is always the
    same: HDR content by the 16-bit depth alone, no HDR type, no cICP, mDCv
    or cLLi record, because the writer emits none of these chunks. *)
Theorem written_file_summary (buffer : ndarray) (icc_profile : option bytes) :
  well_formed 16 buffer ->
  Z.of_nat (nd_width buffer) < 2 ^ 32 ->
  Z.of_nat (nd_height buffer) < 2 ^ 32 ->
  (forall p, icc_profile = Some p ->
             8 + Z.of_nat (length (Zlib.compress zlib p 9)) < 2 ^ 32) ->
  exists file,
    save_16bit_png_with_icc zlib buffer icc_profile = Ok file /\
    analyze_png_hdr zlib file =
    Ok {| has_hdr := true; hdr_type := None; high_bit_depth := true;
          cicp := None; mdcv := None; clli := None |}.
Proof.
  intros Hwf Hw Hh Hfit. eexists.
  split; [now apply save_layout|].
  unfold analyze_png_hdr. rewrite read_written by assumption. cbn [bind].
  unfold analyze_chunks.
  destruct (list_written_chunks buffer icc_profile) as [bs ->]. cbn [bind].
  unfold written_chunks. rewrite analyze_loop_app_eq.
  cbn [analyze_loop]. unfold analyze_chunk at 1. cbn [c_type c_data record].
  change (String.eqb "IHDR" "IHDR") with true. cbv iota.
  rewrite parse_ihdr_written by lia. cbn [bind bit_depth].
  change (16 =? 16) with true. cbv iota.
  rewrite analyze_loop_app_eq, analyze_iccp_records. cbn [bind].
  rewrite analyze_idat_records. cbn [bind]. reflexivity.
Qed.

End WithZlib.

Lemma written_file_summary_witness :
  exists file,
    save_16bit_png_with_icc Zlib.stored Examples.image_2x1
      (Some Examples.profile_2) = Ok file /\
    analyze_png_hdr Zlib.stored file =
    Ok {| has_hdr := true; hdr_type := None; high_bit_depth := true;
          cicp := None; mdcv := None; clli := None |}.
Proof.
  apply (written_file_summary Zlib.stored Examples.image_2x1
           (Some Examples.profile_2)).
  - unfold well_formed. cbn. repeat constructor; lia.
  - cbn. lia.
  - cbn. lia.
  - intros p Hp. injection Hp as <-. cbn. lia.
Defined.

End StreamFacts.

(** ** Files that are no PNG files or break off *)

Module TruncationFacts.

Import png_hdr_analyzer hdr_convert Container BytesFacts ReaderFacts
       ExtractFacts.

Lemma bytes_eqb_false (a b : bytes) : a <> b -> bytes_eqb a b = false.
Proof.
  intros H. unfold bytes_eqb. destruct (list_eq_dec _ a b); [contradiction|reflexivity].
Qed.

(** X10.  A file that does not begin with the eight signature bytes, a
    shorter or an empty file included, makes [read_png_chunks] raise
    ValueError, and [analyze_png_hdr] with it; no chunk is looked at. *)
Theorem not_png_rejected (zlib : Zlib.codec) (file : bytes) :
  firstn 8 file <> png_signature ->
  read_png_chunks file = Raise ValueError /\
  analyze_png_hdr zlib file = Raise ValueError.
Proof.
  intros H.
  assert (Hr : read_png_chunks file = Raise ValueError).
  { unfold read_png_chunks, read_png_chunks_fuel, read.
    now rewrite bytes_eqb_false. }
  split; [exact Hr|]. unfold analyze_png_hdr. now rewrite Hr.
Qed.

Lemma not_png_rejected_witness :
  read_png_chunks Examples.not_png = Raise ValueError /\
  analyze_png_hdr Zlib.stored Examples.not_png = Raise ValueError /\
  read_png_chunks [] = Raise ValueError.
Proof.
  destruct (not_png_rejected Zlib.stored Examples.not_png) as [H1 H2];
    [vm_compute; discriminate|].
  split; [exact H1|]. split; [exact H2|].
  apply (not_png_rejected Zlib.stored []). vm_compute. discriminate.
Defined.

(** *** A stream cut inside a chunk *)

Lemma read_loop_stream_raise (cs : list chunk) :
  forall fuel rest e,
    Forall valid_chunk cs -> Forall not_iend cs ->
    read_loop fuel rest = Some (Raise e) ->
    read_loop (length cs + fuel) (chunk_stream cs ++ rest) = Some (Raise e).
Proof.
  induction cs as [|c cs IH]; intros fuel rest e Hv Hn Hr.
  - exact Hr.
  - inversion Hv; subst. inversion Hn; subst.
    unfold chunk_stream. cbn [map concat length Nat.add].
    rewrite <- app_assoc, read_loop_chunk by assumption.
    destruct (String.eqb (c_type c) "IEND") eqn:E.
    { apply String.eqb_eq in E. contradiction. }
    fold (chunk_stream cs). rewrite (IH fuel rest e) by assumption.
    reflexivity.
Qed.

Lemma forallb_firstn {A : Type} (p : A -> bool) (n : nat) (l : list A) :
  forallb p l = true -> forallb p (firstn n l) = true.
Proof.
  revert n. induction l as [|a l IH]; intros n H; destruct n; try reflexivity.
  cbn [firstn forallb] in *. apply andb_true_iff in H. destruct H as [Ha Hl].
  now rewrite Ha, IH.
Qed.

(** The first eight bytes of a cut chunk: the length field and what is left
    of the tag. *)
Lemma cut_chunk_head (c : chunk) (k : nat) :
  valid_chunk c -> (4 <= k)%nat ->
  firstn 4 (firstn k (chunk_bytes c)) = be_bytes 4 (c_length c) /\
  firstn 4 (skipn 4 (firstn k (chunk_bytes c)))
  = firstn (Nat.min 4 (k - 4)) (encode_ascii (c_type c)) /\
  length (skipn 4 (skipn 4 (firstn k (chunk_bytes c)))) = (Nat.min k (12 + length (c_data c)) - 8)%nat.
Proof.
  intros (Hty & Hascii & Hlen & Hlt & Hcrc) Hk. split; [|split].
  - rewrite firstn_firstn. replace (Nat.min 4 k) with 4%nat by lia.
    unfold chunk_bytes. now rewrite firstn_exact by apply length_be_bytes.
  - rewrite skipn_firstn_comm. unfold chunk_bytes.
    rewrite skipn_exact by apply length_be_bytes.
    rewrite firstn_firstn, firstn_app, Hty.
    replace (Nat.min 4 (k - 4) - 4)%nat with 0%nat by lia.
    cbn [firstn]. now rewrite app_nil_r.
  - rewrite !length_skipn, length_firstn. unfold chunk_bytes.
    rewrite !length_app, !length_be_bytes, Hty. lia.
Qed.

Lemma read_loop_cut (fuel : nat) (c : chunk) (k : nat) :
  valid_chunk c -> (4 <= k < length (chunk_bytes c))%nat ->
  read_loop (S fuel) (firstn k (chunk_bytes c)) = Some (Raise StructError).
Proof.
  intros Hv Hk.
  destruct (cut_chunk_head c k Hv ltac:(lia)) as (H1 & H2 & H3).
  pose proof Hv as (Hty & Hascii & Hlen & Hlt & Hcrc).
  assert (Hsize : length (chunk_bytes c) = (12 + length (c_data c))%nat).
  { unfold chunk_bytes. rewrite !length_app, !length_be_bytes, Hty. lia. }
  rewrite read_loop_unfold, H1, H2.
  rewrite length_be_bytes. change (4 <? 4)%nat with false. cbv iota.
  unfold unpack_I. rewrite unpack_be_bytes by (cbn; lia).
  unfold decode_ascii. rewrite forallb_firstn by exact Hascii. cbv zeta.
  set (after := skipn (Z.to_nat (c_length c)) _).
  assert (Hafter : (length (firstn 4 after) < 4)%nat).
  { unfold after. rewrite length_firstn, length_skipn.
    unfold bytes in *. rewrite H3. lia. }
  unfold unpack_uint.
  destruct (Nat.eqb (length (firstn 4 after)) 4) eqn:E; [|reflexivity].
  apply Nat.eqb_eq in E. lia.
Qed.

(** X11.  The tolerance of the reader ends at the length field.  When a
    stream of well-formed records is followed by a well-formed record that
    is cut anywhere after its four length bytes (in the tag, the payload or
    the checksum), [read_png_chunks] raises struct.error and returns none
    of the records read before. *)
Theorem cut_chunk_raises (cs : list chunk) (c : chunk) (k : nat) :
  Forall valid_chunk cs -> Forall not_iend cs -> valid_chunk c ->
  (4 <= k < length (chunk_bytes c))%nat ->
  read_png_chunks (png_signature ++ chunk_stream cs ++ firstn k (chunk_bytes c))
  = Raise StructError.
Proof.
  intros Hv Hn Hc Hk. apply read_png_chunks_signature.
  apply read_loop_mono with (fuel := (length cs + 1)%nat).
  - apply read_loop_stream_raise; try assumption.
    now apply read_loop_cut.
  - pose proof (length_chunk_stream cs). rewrite !length_app. cbn. lia.
Qed.

Lemma cut_chunk_raises_witness :
  read_png_chunks Examples.cut_stream = Raise StructError.
Proof.
  apply (cut_chunk_raises [Examples.ihdr_4x4] Examples.idat_3 9).
  - constructor; [|constructor].
    repeat split; vm_compute; solve [reflexivity | discriminate].
  - repeat constructor. unfold not_iend. vm_compute. discriminate.
  - repeat split; vm_compute; solve [reflexivity | discriminate].
  - vm_compute. lia.
Defined.

Section WithZlib.

Variable zlib : Zlib.codec.

Lemma extract_loop_cut (fuel : nat) (c : chunk) (k : nat) :
  valid_chunk c -> not_iccp c -> (8 <= k < length (chunk_bytes c))%nat ->
  extract_loop zlib (S (S fuel)) (firstn k (chunk_bytes c)) = Some (Ok None).
Proof.
  intros Hv Hp Hk.
  destruct (cut_chunk_head c k Hv ltac:(lia)) as (H1 & H2 & H3).
  pose proof Hv as (Hty & Hascii & Hlen & Hlt & Hcrc).
  rewrite extract_loop_unfold, H1, H2.
  rewrite length_be_bytes. change (4 <? 4)%nat with false. cbv iota.
  unfold unpack_I. rewrite unpack_be_bytes by (cbn; lia).
  replace (Nat.min 4 (k - 4)) with 4%nat by lia.
  rewrite firstn_all2 by lia.
  rewrite decode_encode_ascii by assumption. cbv zeta.
  destruct (String.eqb (c_type c) "iCCP") eqn:E1.
  { apply String.eqb_eq in E1. contradiction. }
  destruct (String.eqb (c_type c) "IEND"); [reflexivity|].
  rewrite extract_loop_unfold.
  set (rest := skipn 4 _).
  assert (Hrest : (length (firstn 4 rest) < 4)%nat).
  { unfold rest. rewrite length_firstn, !length_skipn.
    unfold bytes in *. rewrite !length_skipn in H3.
    assert (length (chunk_bytes c) = (12 + length (c_data c))%nat).
    { unfold chunk_bytes. rewrite !length_app, !length_be_bytes, Hty. lia. }
    lia. }
  apply Nat.ltb_lt in Hrest. now rewrite Hrest.
Qed.

(** X12.  The extractor is more tolerant than the reader: it never unpacks
    a checksum, so on a stream without profile that is cut inside a record
    (after the tag), where [read_png_chunks] raises, [extract_icc_profile]
    returns None without an error. *)
Theorem cut_chunk_tolerated (cs : list chunk) (c : chunk) (k : nat) :
  Forall valid_chunk cs -> Forall not_iccp cs -> Forall not_iend cs ->
  valid_chunk c -> not_iccp c ->
  (8 <= k < length (chunk_bytes c))%nat ->
  extract_icc_profile zlib
    (png_signature ++ chunk_stream cs ++ firstn k (chunk_bytes c)) = Ok None.
Proof.
  intros Hv Hp Hn Hc Hcp Hk. apply extract_signature.
  apply extract_loop_mono with (fuel := (length cs + 2)%nat).
  - apply extract_loop_stream; try assumption.
    now apply extract_loop_cut.
  - pose proof (length_chunk_stream cs). rewrite !length_app, length_firstn.
    cbn [length png_signature]. lia.
Qed.

End WithZlib.

Lemma cut_chunk_tolerated_witness :
  extract_icc_profile Zlib.stored Examples.cut_stream = Ok None.
Proof.
  apply (cut_chunk_tolerated Zlib.stored [Examples.ihdr_4x4] Examples.idat_3 9).
  - constructor; [|constructor].
    repeat split; vm_compute; solve [reflexivity | discriminate].
  - repeat constructor. unfold not_iccp. vm_compute. discriminate.
  - repeat constructor. unfold not_iend. vm_compute. discriminate.
  - repeat split; vm_compute; solve [reflexivity | discriminate].
  - unfold not_iccp. vm_compute. discriminate.
  - vm_compute. lia.
Defined.

End TruncationFacts.

(** ** What the reader returns, serialised again *)

Module ReadBackFacts.

Import png_hdr_analyzer hdr_convert Container BytesFacts ReaderFacts
       AnalyzerFacts.

Lemma byte_of_Z_add (a y : Z) : byte_of_Z (a + y * 256) = byte_of_Z a.
Proof. unfold byte_of_Z. now rewrite Z.mod_add by lia. Qed.

(** The low [k] digits do not see a multiple of [2 ^ (8 * m)], [k <= m]. *)
Lemma be_bytes_low (k : nat) :
  forall (m : nat) (x y : Z), (k <= m)%nat ->
    be_bytes k (x + y * 2 ^ (8 * Z.of_nat m)) = be_bytes k x.
Proof.
  induction k as [|k IH]; intros m x y Hk; [reflexivity|].
  cbn [be_bytes]. rewrite IH by lia. f_equal.
  rewrite !Z.shiftr_div_pow2 by lia.
  replace (8 * Z.of_nat m) with (8 * Z.of_nat k + 8 * (Z.of_nat m - Z.of_nat k)) by lia.
  rewrite Z.pow_add_r by lia.
  replace (x + y * (2 ^ (8 * Z.of_nat k) * 2 ^ (8 * (Z.of_nat m - Z.of_nat k))))
    with (x + y * 2 ^ (8 * (Z.of_nat m - Z.of_nat k)) * 2 ^ (8 * Z.of_nat k)) by ring.
  rewrite Z.div_add by (apply Z.pow_nonzero; lia).
  replace (8 * (Z.of_nat m - Z.of_nat k)) with (8 * (Z.of_nat m - Z.of_nat k - 1) + 8) by lia.
  rewrite Z.pow_add_r by lia. change (2 ^ 8) with 256.
  rewrite Z.mul_assoc. apply byte_of_Z_add.
Qed.

Lemma be_bytes_be_value (l : bytes) : be_bytes (length l) (be_value l) = l.
Proof.
  induction l as [|b t IH]; [reflexivity|].
  cbn [length be_value be_bytes].
  pose proof (be_value_range t) as Ht. pose proof (byte_to_Z_range b) as Hb.
  f_equal.
  - rewrite Z.shiftr_div_pow2 by lia.
    rewrite Z.add_comm, Z.div_add by (apply Z.pow_nonzero; lia).
    rewrite Z.div_small by lia. apply byte_of_to_Z.
  - rewrite Z.add_comm, be_bytes_low by lia. exact IH.
Qed.

Lemma ok_inj {A : Type} (a b : A) : Ok a = Ok b -> a = b.
Proof. intros H. now injection H. Qed.

Lemma string_bytes_ascii (t : bytes) :
  forallb (fun c => byte_to_Z c <? 128) t = true ->
  is_ascii (string_of_list_byte t) = true /\
  encode_ascii (string_of_list_byte t) = t.
Proof.
  intros H. unfold is_ascii, encode_ascii.
  now rewrite list_byte_of_string_of_list_byte.
Qed.

(** The loop returns records that are well formed and that, serialised one
    after the other, are the bytes it has read. *)
Lemma read_loop_faithful (fuel : nat) :
  forall f chunks, read_loop fuel f = Some (Ok chunks) ->
    Forall valid_chunk chunks /\ exists rest, f = chunk_stream chunks ++ rest.
Proof.
  induction fuel as [|fuel IH]; intros f chunks H; [discriminate|].
  rewrite read_loop_unfold in H.
  destruct (length (firstn 4 f) <? 4)%nat.
  { injection H as <-. split; [constructor|now exists f]. }
  destruct (unpack_I (firstn 4 f)) as [len|e] eqn:Elen; [|discriminate].
  destruct (decode_ascii _) as [ty|e] eqn:Ety; [|discriminate].
  cbv zeta in H.
  set (body := skipn 4 (skipn 4 f)) in *.
  destruct (unpack_I (firstn 4 (skipn (Z.to_nat len) body))) as [crc|e] eqn:Ecrc;
    [|discriminate].
  set (c := {| c_type := ty; c_length := len;
               c_data := firstn (Z.to_nat len) body; c_crc := crc |}) in *.
  (* the four parts of the record, as they lie in [f] *)
  unfold unpack_I, unpack_uint in Elen, Ecrc.
  destruct (Nat.eqb (length (firstn 4 f)) 4) eqn:E1; [|discriminate].
  destruct (Nat.eqb (length (firstn 4 (skipn (Z.to_nat len) body))) 4) eqn:E4;
    [|discriminate].
  apply Nat.eqb_eq in E1, E4. apply ok_inj in Elen, Ecrc.
  unfold decode_ascii in Ety.
  destruct (forallb _ (firstn 4 (skipn 4 f))) eqn:Eascii; [|discriminate].
  apply ok_inj in Ety.
  destruct (string_bytes_ascii _ Eascii) as [Hascii Henc]. rewrite Ety in Hascii, Henc.
  pose proof (be_value_range (firstn 4 f)) as Hlr. rewrite E1, Elen in Hlr.
  pose proof (be_value_range (firstn 4 (skipn (Z.to_nat len) body))) as Hcr.
  rewrite E4, Ecrc in Hcr.
  assert (HL : be_bytes 4 len = firstn 4 f).
  { rewrite <- Elen. rewrite <- E1 at 1. apply be_bytes_be_value. }
  assert (HC : be_bytes 4 crc = firstn 4 (skipn (Z.to_nat len) body)).
  { rewrite <- Ecrc. rewrite <- E4 at 1. apply be_bytes_be_value. }
  assert (Hdata : length (firstn (Z.to_nat len) body) = Z.to_nat len).
  { rewrite length_firstn, length_skipn in E4. rewrite length_firstn. lia. }
  assert (Htag : length (firstn 4 (skipn 4 f)) = 4%nat).
  { rewrite length_firstn, length_skipn in E4. unfold body in E4.
    rewrite !length_skipn in E4. rewrite length_firstn, length_skipn. lia. }
  assert (Hv : valid_chunk c).
  { unfold valid_chunk, c; cbn [c_type c_length c_data c_crc].
    rewrite Henc. repeat split; try assumption; lia. }
  assert (Hf : f = chunk_bytes c ++ skipn 4 (skipn (Z.to_nat len) body)).
  { unfold chunk_bytes, c; cbn [c_type c_length c_data c_crc].
    rewrite Henc, HL, HC, <- !app_assoc.
    rewrite (firstn_skipn 4 (skipn (Z.to_nat len) body)).
    rewrite (firstn_skipn (Z.to_nat len) body). unfold body.
    now rewrite !firstn_skipn. }
  destruct (String.eqb ty "IEND").
  { injection H as <-.
    split; [constructor; [exact Hv|constructor]|].
    exists (skipn 4 (skipn (Z.to_nat len) body)).
    unfold chunk_stream. cbn [map concat]. now rewrite app_nil_r. }
  destruct (read_loop fuel _) as [[cs|e]|] eqn:E; try discriminate.
  injection H as <-. destruct (IH _ _ E) as (Hvs & rest & Hrest).
  split; [constructor; assumption|].
  exists rest. unfold chunk_stream in *. cbn [map concat].
  rewrite <- app_assoc, <- Hrest. exact Hf.
Qed.

Lemma read_png_chunks_faithful_lemma (file : bytes) (chunks : list chunk) :
  read_png_chunks file = Ok chunks -> Forall valid_chunk chunks.
Proof.
  unfold read_png_chunks, read_png_chunks_fuel, read. intros H.
  destruct (bytes_eqb (firstn 8 file) png_signature); [|discriminate].
  destruct (read_loop (S (length file)) (skipn 8 file)) as [r|] eqn:E.
  - subst r. now destruct (read_loop_faithful _ _ _ E).
  - injection H as <-. constructor.
Qed.

(** X13.  Reading loses nothing of what it returns.  When
    [read_png_chunks] returns a list of records, the file begins with the
    signature, every record is well formed (a four-character ASCII tag, a
    payload of the declared length below 2^32, a 32-bit checksum), and the
    records serialised one after the other, length, tag, payload and
    checksum as read, are exactly the bytes of the file after the
    signature, up to an unread rest. *)
Theorem read_png_chunks_faithful (file : bytes) (chunks : list chunk) :
  read_png_chunks file = Ok chunks ->
  firstn 8 file = png_signature /\
  Forall valid_chunk chunks /\
  exists rest, file = png_signature ++ chunk_stream chunks ++ rest.
Proof.
  unfold read_png_chunks, read_png_chunks_fuel, read. intros H.
  unfold bytes_eqb in H.
  destruct (list_eq_dec Byte.byte_eq_dec (firstn 8 file) png_signature)
    as [Hsig|Hsig]; [|discriminate].
  split; [exact Hsig|].
  destruct (read_loop (S (length file)) (skipn 8 file)) as [r|] eqn:E.
  - subst r. destruct (read_loop_faithful _ _ _ E) as (Hv & rest & Hrest).
    split; [exact Hv|]. exists rest.
    rewrite <- Hrest, <- Hsig. symmetry. apply firstn_skipn.
  - injection H as <-. split; [constructor|].
    exists (skipn 8 file). rewrite <- Hsig. symmetry. apply firstn_skipn.
Qed.

Lemma read_png_chunks_faithful_witness :
  Forall valid_chunk [Examples.ihdr_4x4; Examples.iend] /\
  exists rest,
    Examples.plain_stream
    = png_signature ++ chunk_stream [Examples.ihdr_4x4; Examples.iend] ++ rest.
Proof.
  apply (read_png_chunks_faithful Examples.plain_stream
           [Examples.ihdr_4x4; Examples.iend]).
  vm_compute. reflexivity.
Defined.

Section WithZlib.

Variable zlib : Zlib.codec.

Lemma analyze_chunks_loop (chunks : list chunk) :
  Forall valid_chunk chunks ->
  analyze_chunks zlib chunks = analyze_loop zlib hdr_info_init chunks.
Proof.
  intros Hv. unfold analyze_chunks.
  assert (H : exists bs, mapM list_chunk chunks = Ok bs).
  { induction Hv as [|c cs Hc Hcs IH]; [now exists []|].
    destruct IH as [bs Hbs]. destruct Hc as (Hty & _).
    cbn [mapM]. rewrite Hbs. unfold list_chunk.
    destruct (c_type c) as [|ch t]; [discriminate Hty|].
    cbn [bind]. eexists. reflexivity. }
  destruct H as [bs ->]. reflexivity.
Qed.

(** X14.  Only a cICP chunk classifies.  In the summary of a completed
    analysis of a file without cICP chunk, the HDR type is none and no code
    points are recorded, whatever the bit depth and the other chunks say
    (has_hdr may well be true). *)
Theorem hdr_type_needs_cicp (file : bytes) (chunks : list chunk)
    (final : hdr_info) :
  read_png_chunks file = Ok chunks ->
  analyze_png_hdr zlib file = Ok final ->
  Forall not_cicp chunks ->
  hdr_type final = None /\ cicp final = None.
Proof.
  intros Hread H Hn. unfold analyze_png_hdr in H. rewrite Hread in H.
  cbn [bind] in H. unfold analyze_chunks in H.
  apply bind_ok in H. destruct H as (_ & _ & H).
  exact (analyze_loop_not_cicp zlib _ _ _ H Hn).
Qed.

(** X15.  The scan has no recovery for a single chunk.  When the chunks
    before a chunk are analysed without error and the decoder of that chunk
    raises, [analyze_png_hdr] raises the same error and returns no summary,
    whatever follows; a gAMA chunk whose payload is not four bytes long
    does this with struct.error. *)
Theorem malformed_chunk_aborts (file : bytes) (pre post : list chunk)
    (c : chunk) (mid : hdr_info) (e : exn) :
  read_png_chunks file = Ok (pre ++ c :: post) ->
  analyze_loop zlib hdr_info_init pre = Ok mid ->
  analyze_chunk zlib mid c = Raise e ->
  analyze_png_hdr zlib file = Raise e /\
  (c_type c = "gAMA"%string -> length (c_data c) <> 4%nat -> e = StructError).
Proof.
  intros Hread Hpre Hc. split.
  - pose proof (read_png_chunks_faithful_lemma file _ Hread) as Hv.
    unfold analyze_png_hdr. rewrite Hread. cbn [bind].
    rewrite analyze_chunks_loop by exact Hv.
    rewrite StreamFacts.analyze_loop_app_eq, Hpre. cbn [bind analyze_loop].
    now rewrite Hc.
  - intros Ht Hlen. unfold analyze_chunk in Hc. rewrite Ht in Hc.
    change (String.eqb "gAMA" "IHDR") with false in Hc.
    change (String.eqb "gAMA" "gAMA") with true in Hc. cbv iota in Hc.
    unfold parse_gama, unpack_I, unpack_uint in Hc.
    apply Nat.eqb_neq in Hlen. rewrite Hlen in Hc. cbn [bind] in Hc.
    now injection Hc.
Qed.

End WithZlib.

Lemma hdr_type_needs_cicp_witness :
  exists final,
    analyze_png_hdr Zlib.stored Examples.deep_stream = Ok final /\
    has_hdr final = true /\ hdr_type final = None /\ cicp final = None.
Proof.
  destruct (analyze_png_hdr Zlib.stored Examples.deep_stream)
    as [final|e] eqn:H; [|vm_compute in H; discriminate H].
  exists final. split; [reflexivity|].
  split; [vm_compute in H; injection H as <-; reflexivity|].
  apply (hdr_type_needs_cicp Zlib.stored Examples.deep_stream
           [Examples.ihdr_deep; Examples.iend] final);
    [vm_compute; reflexivity|exact H|].
  repeat constructor; unfold not_cicp; vm_compute; discriminate.
Defined.

Lemma malformed_chunk_aborts_witness :
  analyze_png_hdr Zlib.stored Examples.bad_gama_stream = Raise StructError.
Proof.
  apply (malformed_chunk_aborts Zlib.stored Examples.bad_gama_stream
           [Examples.ihdr_4x4] [Examples.iend] Examples.gama_5
           hdr_info_init StructError).
  - vm_compute. reflexivity.
  - vm_compute. reflexivity.
  - vm_compute. reflexivity.
Defined.

End ReadBackFacts.

(** ** More on the photometric chain *)

Module PipelineFacts.

Import hdr_convert Container Float32Facts PhotometricFacts ConversionFacts.

Local Open Scope R_scope.

Lemma clip_le (x y : R) : x <= y -> clip x 0 1 <= clip y 0 1.
Proof.
  intros H. unfold clip. now apply Rle_min_compat_r, Rle_max_compat_r.
Qed.

Lemma linear_to_pq_le (x y : R) : x <= y -> linear_to_pq x <= linear_to_pq y.
Proof.
  intros H. unfold linear_to_pq.
  pose proof (clip_range x). pose proof (clip_range y).
  apply pq_formula_le; try lra. now apply clip_le.
Qed.

Lemma quantize_le (p q : R) :
  0 <= p -> p <= q -> q <= 1 -> (quantize p <= quantize q)%Z.
Proof.
  intros H0 Hpq H1.
  destruct (quantize_floor p ltac:(lra)) as [-> _].
  destruct (quantize_floor q ltac:(lra)) as [-> _].
  apply Zfloor_le. nra.
Qed.




(** *** The boosts *)

Lemma dist_centre (width height : Z) :
  dist width height None (height / 2) (width / 2) = 0.
Proof.
  unfold dist, center_of. cbn [fst snd].
  rewrite !Z.sub_diag. cbn. apply sqrt_0.
Qed.

Lemma load_mask_image_range (mask_img : gray_image) (width height y x : nat) :
  0 <= load_mask_image mask_img width height y x <= 1.
Proof.
  unfold load_mask_image. apply float32_unit.
  match goal with |- context [byte_to_Z ?b] =>
    pose proof (BytesFacts.byte_to_Z_range b) as [H0 H1];
    assert (H2 : (byte_to_Z b <= 255)%Z) by lia end.
  apply IZR_le in H0, H2. lra.
Qed.

Lemma load_mask_image_same_size (mask_img : gray_image) (y x : nat) :
  load_mask_image mask_img (im_width mask_img) (im_height mask_img) y x
  = float32 (IZR (byte_to_Z (im_pixel mask_img y x)) / 255).
Proof. unfold load_mask_image. now rewrite !Nat.eqb_refl. Qed.

(** X17.  Both boosts interpolate between 1 and the multiplier of the mask
    value 1.  The radial mask and the loaded mask are binary32 numbers
    within [0,1], so each multiplier lies between 1 and [boost 1 gain], the
    float32 value [float32 (1 + float32 (gain - 1))], which is the gain
    itself when the gain and the gain less 1 are binary32 numbers.  The
    radial multiplier is 1 at the centre pixel (width // 2, height // 2)
    when the radius is not negative; for a mask of the size of the image
    the mask multiplier is 1 on a black pixel and [boost 1 mask_gain] on a
    white one. *)
Theorem boosts_between_one_and_gain (cfg : config) (width height : nat)
    (y x : nat) (radius : R) (mask_img : gray_image) :
  radial_boost cfg = Some radius ->
  mask_path cfg = Some mask_img ->
  (is_float32 (create_radial_mask (Z.of_nat width) (Z.of_nat height) radius
                 None (falloff cfg) (Z.of_nat y) (Z.of_nat x)) /\
   0 <= create_radial_mask (Z.of_nat width) (Z.of_nat height) radius
          None (falloff cfg) (Z.of_nat y) (Z.of_nat x) <= 1) /\
  (is_float32 (load_mask_image mask_img width height y x) /\
   0 <= load_mask_image mask_img width height y x <= 1) /\
  Rmin 1 (boost 1 (radial_gain cfg))
    <= radial_multiplier cfg (Z.of_nat width) (Z.of_nat height)
         (Z.of_nat y) (Z.of_nat x)
    <= Rmax 1 (boost 1 (radial_gain cfg)) /\
  (0 <= radius ->
   radial_multiplier cfg (Z.of_nat width) (Z.of_nat height)
     (Z.of_nat height / 2) (Z.of_nat width / 2) = 1) /\
  Rmin 1 (boost 1 (mask_gain cfg))
    <= mask_multiplier cfg width height y x
    <= Rmax 1 (boost 1 (mask_gain cfg)) /\
  (im_width mask_img = width -> im_height mask_img = height ->
   im_pixel mask_img y x = x00 -> mask_multiplier cfg width height y x = 1) /\
  (im_width mask_img = width -> im_height mask_img = height ->
   im_pixel mask_img y x = xff ->
   mask_multiplier cfg width height y x = boost 1 (mask_gain cfg)) /\
  (forall g, boost 1 g = float32 (1 + float32 (g - 1))) /\
  (forall g, is_float32 g -> is_float32 (g - 1) -> boost 1 g = g).
Proof.
  intros Hr Hm. unfold radial_multiplier, mask_multiplier. rewrite Hr, Hm.
  split; [split; [apply float32_is_float32|apply radial_mask_range]|].
  split; [split; [apply float32_is_float32|apply load_mask_image_range]|].
  split; [apply boost_between, radial_mask_range|]. split; [|split].
  - intros H0. rewrite radial_mask_inside by (rewrite dist_centre; lra).
    apply boost_zero.
  - apply boost_between, load_mask_image_range.
  - split; [|split; [|split]].
    + intros <- <- Hp. rewrite load_mask_image_same_size, Hp.
      replace (IZR (byte_to_Z x00) / 255) with 0 by (cbn; lra).
      rewrite float32_0. apply boost_zero.
    + intros <- <- Hp. rewrite load_mask_image_same_size, Hp.
      replace (IZR (byte_to_Z xff) / 255) with 1 by (cbn; lra).
      now rewrite float32_1.
    + apply boost_one.
    + apply boost_one_exact.
Qed.

Lemma boosts_between_one_and_gain_witness :
  1 <= radial_multiplier Examples.boosted_config 400 300 10 20 <= 2 /\
  radial_multiplier Examples.boosted_config 400 300 150 200 = 1 /\
  mask_multiplier Examples.boosted_config 400 300 10 20 = 100 /\
  mask_multiplier Examples.boosted_config 400 300 10 220 = 1.
Proof.
  destruct (boosts_between_one_and_gain Examples.boosted_config 400 300 10 20
              100 Examples.left_half_mask eq_refl eq_refl)
    as (_ & _ & Hrange & _ & _ & _ & Hwhite & _ & Hexact).
  destruct (boosts_between_one_and_gain Examples.boosted_config 400 300 150 200
              100 Examples.left_half_mask eq_refl eq_refl)
    as (_ & _ & _ & Hcentre & _).
  destruct (boosts_between_one_and_gain Examples.boosted_config 400 300 10 220
              100 Examples.left_half_mask eq_refl eq_refl)
    as (_ & _ & _ & _ & _ & Hblack & _).
  assert (H2 : boost 1 2 = 2).
  { apply Hexact; [apply (is_float32_Z 2); reflexivity|].
    exists 1%Z, 0%Z. split; [cbn; lra|]. split; [reflexivity|lia]. }
  assert (H100 : boost 1 100 = 100).
  { apply Hexact; [apply (is_float32_Z 100); reflexivity|].
    exists 99%Z, 0%Z. split; [cbn; lra|]. split; [reflexivity|lia]. }
  split; [|split; [|split]].
  - cbn [radial_gain Examples.boosted_config] in Hrange. rewrite H2 in Hrange.
    unfold Rmin, Rmax in Hrange. destruct (Rle_dec 1 2); [|lra].
    exact Hrange.
  - apply Hcentre. lra.
  - rewrite (Hwhite eq_refl eq_refl eq_refl).
    cbn [mask_gain Examples.boosted_config]. exact H100.
  - apply (Hblack eq_refl eq_refl eq_refl).
Defined.

(** *** Order on the 8-bit grid *)

(** The linear branch at 10/255, the last grid point below the threshold
    0.04045, is below the power branch at 11/255: with the exponent
    2.4 = 12/5 this is a comparison of a fifth and a twelfth power. *)
Lemma srgb_branches_meet :
  10 / 255 / 12.92 <= power ((11 / 255 + 0.055) / 1.055) 2.4.
Proof.
  set (a := 10 / 255 / 12.92). set (b := (11 / 255 + 0.055) / 1.055).
  assert (Ha : 0 < a) by (unfold a; lra).
  assert (Hb : 0 < b) by (unfold b; lra).
  rewrite power_positive by assumption.
  replace a with (Rpower (Rpower a 5) (/ 5)).
  2:{ rewrite Rpower_mult. replace (5 * / 5) with 1 by lra.
      now apply Rpower_1. }
  replace 2.4 with (12 * / 5) by lra. rewrite <- Rpower_mult.
  rewrite <- (powerRZ_Rpower a 5), <- (powerRZ_Rpower b 12) by lra.
  change (powerRZ a 5) with (a ^ Pos.to_nat 5).
  change (powerRZ b 12) with (b ^ Pos.to_nat 12).
  replace (Pos.to_nat 5) with 5%nat by reflexivity.
  replace (Pos.to_nat 12) with 12%nat by reflexivity.
  apply Rle_Rpower_l; [lra|]. unfold a, b. lra.
Qed.

Lemma normalize_low (v : Z) : (v <= 10)%Z -> normalize v <= 0.04045.
Proof. intros H. apply IZR_le in H. unfold normalize. lra. Qed.

Lemma normalize_high (v : Z) : (11 <= v)%Z -> ~ normalize v <= 0.04045.
Proof. intros H. apply IZR_le in H. unfold normalize. lra. Qed.

Lemma srgb_grid_le (v1 v2 : Z) :
  (0 <= v1)%Z -> (v1 <= v2)%Z ->
  srgb_to_linear (normalize v1) <= srgb_to_linear (normalize v2).
Proof.
  intros H0 H12. unfold srgb_to_linear.
  assert (Hn : 0 <= normalize v1 <= normalize v2).
  { apply IZR_le in H0, H12. unfold normalize. lra. }
  destruct (Rle_dec (normalize v1) 0.04045) as [L1|L1];
    destruct (Rle_dec (normalize v2) 0.04045) as [L2|L2].
  - lra.
  - assert (Hv1 : (v1 <= 10)%Z).
    { destruct (Z_le_gt_dec v1 10) as [H|H]; [exact H|].
      exfalso. apply (normalize_high v1); [lia|exact L1]. }
    assert (Hv2 : (11 <= v2)%Z).
    { destruct (Z_le_gt_dec v2 10) as [H|H]; [|lia].
      exfalso. apply L2. now apply normalize_low. }
    apply Rle_trans with (10 / 255 / 12.92).
    + apply IZR_le in Hv1. unfold normalize. lra.
    + apply Rle_trans with (power ((11 / 255 + 0.055) / 1.055) 2.4);
        [apply srgb_branches_meet|].
      apply power_le; [lra|]. apply IZR_le in Hv2. unfold normalize. lra.
  - lra.
  - apply power_le; lra.
Qed.

Lemma radial_multiplier_nonneg (cfg : config) (width height y x : Z) :
  0 <= radial_gain cfg -> 0 <= radial_multiplier cfg width height y x.
Proof.
  intros Hg. unfold radial_multiplier.
  destruct (radial_boost cfg) as [radius|]; [|lra].
  apply boost_nonneg; [apply radial_mask_range|exact Hg].
Qed.

Lemma mask_multiplier_nonneg (cfg : config) (width height y x : nat) :
  0 <= mask_gain cfg -> 0 <= mask_multiplier cfg width height y x.
Proof.
  intros Hg. unfold mask_multiplier.
  destruct (mask_path cfg) as [mask_img|]; [|lra].
  apply boost_nonneg; [apply load_mask_image_range|exact Hg].
Qed.

(** X18.  The conversion keeps the order of 8-bit samples.  With gains and
    nits that are not negative, a brighter 8-bit input sample never gets a
    smaller 16-bit output code at the same pixel, with or without the
    boosts, whose float32 multipliers are not negative; the jump of
    [srgb_to_linear] at its threshold 0.04045 falls between the grid points
    10/255 and 11/255 and does not reverse them. *)
Theorem conversion_keeps_order (cfg : config) (width height y x : nat)
    (v1 v2 : Z) :
  0 <= gain cfg -> 0 <= nits cfg ->
  0 <= radial_gain cfg -> 0 <= mask_gain cfg ->
  (0 <= v1)%Z -> (v1 <= v2)%Z ->
  (quantize (pq_sample cfg width height y x (normalize v1))
   <= quantize (pq_sample cfg width height y x (normalize v2)))%Z.
Proof.
  intros Hg Hn Hrg Hmg H0 H12.
  pose proof (srgb_grid_le v1 v2 H0 H12) as Hs.
  pose proof (radial_multiplier_nonneg cfg (Z.of_nat width) (Z.of_nat height)
                (Z.of_nat y) (Z.of_nat x) Hrg) as Hr.
  pose proof (mask_multiplier_nonneg cfg width height y x Hmg) as Hk.
  pose proof (pq_sample_range cfg width height y x (normalize v1)) as R1.
  pose proof (pq_sample_range cfg width height y x (normalize v2)) as R2.
  apply quantize_le; [lra| |lra].
  unfold pq_sample.
  apply linear_to_pq_le, clip_le.
  assert (Hq : 0 <= nits cfg / 10000) by lra.
  apply Rmult_le_compat_r; [exact Hq|].
  assert (Hsg : srgb_to_linear (normalize v1) * gain cfg
                <= srgb_to_linear (normalize v2) * gain cfg)
    by (apply Rmult_le_compat_r; assumption).
  destruct (radial_boost cfg); destruct (mask_path cfg).
  - apply Rmult_le_compat_r; [exact Hk|].
    apply Rmult_le_compat_r; [exact Hr|exact Hsg].
  - apply Rmult_le_compat_r; [exact Hr|exact Hsg].
  - apply Rmult_le_compat_r; [exact Hk|exact Hsg].
  - exact Hsg.
Qed.

Lemma conversion_keeps_order_witness :
  (quantize (pq_sample Examples.boosted_config 400 300 10 20 (normalize 10))
   <= quantize (pq_sample Examples.boosted_config 400 300 10 20 (normalize 11)))%Z.
Proof.
  apply (conversion_keeps_order Examples.boosted_config 400 300 10 20 10 11);
    cbn [gain nits radial_gain mask_gain Examples.boosted_config];
    try lra; lia.
Defined.

End PipelineFacts.

(** ** The conversion with a reference file *)

Module ReferenceFacts.

Import png_hdr_analyzer hdr_convert Container ConversionFacts WrittenFacts.

(** X19.  The profile of the reference file.  When reading the reference
    file succeeds, the conversion writes a file from which
    [extract_icc_profile] returns the profile bytes of the reference file,
    under the name PQ HDR whatever the name in the reference file was; a
    reference file without a profile, or with an empty one, gives a file
    without a profile.  When reading the reference file raises (an iCCP
    chunk without a NUL, a stream that does not inflate), the conversion
    raises the same exception and writes nothing. *)
Theorem reference_profile_carried_over (zlib : Zlib.codec) (img : ndarray)
    (cfg : config) (reference : bytes) :
  reference_hdr cfg = Some reference ->
  Zlib.lossless zlib ->
  Z.of_nat (nd_width img) < 2 ^ 32 ->
  Z.of_nat (nd_height img) < 2 ^ 32 ->
  (forall found,
     extract_icc_profile zlib reference = Ok found ->
     (forall name p, found = Some (name, p) ->
        8 + Z.of_nat (length (Zlib.compress zlib p 9)) < 2 ^ 32) ->
     exists file,
       convert_to_hdr zlib img cfg = Ok file /\
       extract_icc_profile zlib file =
       Ok (match found with
           | Some (_, b :: p) => Some ("PQ HDR"%string, b :: p)
           | _ => None
           end)) /\
  (forall e,
     extract_icc_profile zlib reference = Raise e ->
     convert_to_hdr zlib img cfg = Raise e).
Proof.
  intros Href Hz Hw Hh.
  pose proof (convert_pixels_well_formed cfg img) as Hwf.
  assert (Hw' : Z.of_nat (nd_width (convert_pixels cfg img)) < 2 ^ 32)
    by exact Hw.
  assert (Hh' : Z.of_nat (nd_height (convert_pixels cfg img)) < 2 ^ 32)
    by exact Hh.
  split.
  - intros found Hx Hfit.
    set (icc_profile := match found with
                        | Some (_, data) => Some data
                        | None => None
                        end).
    assert (Hfit' : forall q, icc_profile = Some q ->
              8 + Z.of_nat (length (Zlib.compress zlib q 9)) < 2 ^ 32).
    { intros q Hq. subst icc_profile. destruct found as [[name p]|].
      - injection Hq as <-. now apply (Hfit name).
      - discriminate Hq. }
    exists (png_signature
              ++ chunk_stream (written_chunks zlib (convert_pixels cfg img)
                                 icc_profile)).
    split.
    + unfold convert_to_hdr. rewrite Href, Hx. cbn [bind].
      now apply save_layout.
    + rewrite (extract_written zlib _ icc_profile Hz Hw' Hh' Hfit').
      subst icc_profile. now destruct found as [[name [|b p]]|].
  - intros e Hx. unfold convert_to_hdr. now rewrite Href, Hx.
Qed.

Lemma reference_profile_carried_over_witness :
  (exists file,
     convert_to_hdr Zlib.stored Examples.white_1x1 Examples.reference_config
     = Ok file /\
     extract_icc_profile Zlib.stored file
     = Ok (Some ("PQ HDR"%string, Examples.profile_2))) /\
  convert_to_hdr Zlib.stored Examples.white_1x1
    Examples.damaged_reference_config = Raise ValueError.
Proof.
  split.
  - refine (proj1 (reference_profile_carried_over Zlib.stored
                     Examples.white_1x1 Examples.reference_config
                     Examples.profile_stream eq_refl _ _ _)
                  (Some ("sRGB"%string, Examples.profile_2)) _ _).
    + intros data level. reflexivity.
    + cbn. lia.
    + cbn. lia.
    + vm_compute. reflexivity.
    + intros name p E. injection E as _ <-. cbn. lia.
  - refine (proj2 (reference_profile_carried_over Zlib.stored
                     Examples.white_1x1 Examples.damaged_reference_config
                     Examples.damaged_reference eq_refl _ _ _) ValueError _).
    + intros data level. reflexivity.
    + cbn. lia.
    + cbn. lia.
    + vm_compute. reflexivity.
Defined.

End ReferenceFacts.
